(** * flet_mqtt_client: the connection / dispatch / publish wrapper

    A shallow embedding of [src/flet_mqtt_client.py] (class [FletMQTTClient]
    and the [MQTTConfig] record), followed by the properties of its lifecycle
    manager, message dispatcher and publisher.

    The Python object is split into
    - its immutable part, the record [FletMQTTClient]: the configuration, the
      optional message handler and the external collaborators (the paho
      client, the Flet page and [json.dumps]);
    - its mutable part, [client_state]: the two flags of the object together
      with what the object has done to the outside world so far (log records,
      calls made on the paho client, messages passed to the handler, tasks
      handed to the page).

    Methods are computations in a state-and-exception monad [M]: a Python
    [raise] is the [Raise] outcome, and the state reached at the moment of the
    raise is kept, as in Python. *)

From Stdlib Require Import ZArith List String Ascii Bool Lia DecimalString.
From Stdlib.Strings Require Import Byte.
Import ListNotations.

Local Open Scope string_scope.
Local Open Scope list_scope.
Local Open Scope Z_scope.

(** ** Python values that reach the wrapper *)

(** Python [str] values are represented by their UTF-8 encoding. *)
Definition str := string.

#[local] Set Warnings "-register-all".

(** The payloads a caller can hand to [publish], whose parameter is typed
    [Any].  [PyList] and [PyDict] are the instances of [list] and [dict],
    subclasses included; a [float] is kept as its [repr]; [PyObject] is an
    instance of any other class, named by its class: a [set], a [range], a
    [collections.deque], a [types.MappingProxyType], ... *)
Inductive py_value : Type :=
| PyNone
| PyBool (b : bool)
| PyInt (z : Z)
| PyFloat (repr : str)
| PyStr (s : str)
| PyBytes (bs : list byte)
| PyByteArray (bs : list byte)
| PyList (items : list py_value)
| PyTuple (items : list py_value)
| PyDict (items : list (py_value * py_value))
| PyObject (class_name : str).

(** [isinstance(payload, (dict, list))] *)
Definition is_dict_or_list (v : py_value) : bool :=
  match v with
  | PyDict _ | PyList _ => true
  | _ => false
  end.

(** The payloads that the specification calls structured values, mappings
    and sequences, as opposed to raw bytes and strings.  Which objects of
    other classes are mappings or sequences is not recorded: they are not
    counted here. *)
Definition spec_structured (v : py_value) : bool :=
  match v with
  | PyDict _ | PyList _ | PyTuple _ => true
  | _ => false
  end.

(** ** Exceptions *)

(** The classes that matter to the [except] clauses of the module.
    [SystemExiting] stands for the classes that derive from [BaseException]
    but not from [Exception] ([KeyboardInterrupt], [SystemExit],
    [asyncio.CancelledError]); [OSError] covers [socket.error] (its alias) and
    its subclasses ([socket.gaierror], [ConnectionRefusedError], ...). *)
Inductive exn_class : Type :=
| OSError
| ValueError
| TypeError
| UnicodeDecodeError
| OtherException
| SystemExiting.

Record exn : Type := mk_exn { exn_class_of : exn_class; exn_text : string }.

(** [isinstance(e, (socket.error, OSError))] *)
Definition is_OSError (e : exn) : bool :=
  match exn_class_of e with
  | OSError => true
  | _ => false
  end.

(** [isinstance(e, Exception)] *)
Definition is_Exception (e : exn) : bool :=
  match exn_class_of e with
  | SystemExiting => false
  | _ => true
  end.

Inductive outcome (A : Type) : Type :=
| Ret (a : A)
| Raise (e : exn).
Arguments Ret {A} a.
Arguments Raise {A} e.

(** ** [bytes.decode()]: strict UTF-8 *)

Definition is_continuation (b : N) : bool := ((128 <=? b) && (b <=? 191))%N.

(** Decodes a byte sequence into code points; [None] where Python raises
    [UnicodeDecodeError]: a stray continuation byte, a truncated sequence, an
    overlong form, a surrogate or a code point above U+10FFFF. *)
Fixpoint utf8_decode (bs : list N) : option (list N) :=
  match bs with
  | [] => Some []
  | b0 :: r0 =>
    if (b0 <? 128)%N then option_map (cons b0) (utf8_decode r0)
    else if ((194 <=? b0) && (b0 <=? 223))%N then
      match r0 with
      | b1 :: r1 =>
        if is_continuation b1
        then option_map (cons ((b0 - 192) * 64 + (b1 - 128))%N) (utf8_decode r1)
        else None
      | _ => None
      end
    else if ((224 <=? b0) && (b0 <=? 239))%N then
      match r0 with
      | b1 :: b2 :: r2 =>
        if ((if b0 =? 224 then 160 else 128) <=? b1)%N
           && (b1 <=? (if b0 =? 237 then 159 else 191))%N
           && is_continuation b2
        then option_map
               (cons ((b0 - 224) * 4096 + (b1 - 128) * 64 + (b2 - 128))%N)
               (utf8_decode r2)
        else None
      | _ => None
      end
    else if ((240 <=? b0) && (b0 <=? 244))%N then
      match r0 with
      | b1 :: b2 :: b3 :: r3 =>
        if ((if b0 =? 240 then 144 else 128) <=? b1)%N
           && (b1 <=? (if b0 =? 244 then 143 else 191))%N
           && is_continuation b2 && is_continuation b3
        then option_map
               (cons ((b0 - 240) * 262144 + (b1 - 128) * 4096
                      + (b2 - 128) * 64 + (b3 - 128))%N)
               (utf8_decode r3)
        else None
      | _ => None
      end
    else None
  end.

Definition utf8_valid (bs : list byte) : bool :=
  match utf8_decode (map Byte.to_N bs) with
  | Some _ => true
  | None => false
  end.

Definition undecodable : exn :=
  mk_exn UnicodeDecodeError "'utf-8' codec can't decode byte".

(** [payload.decode()] *)
Definition decode (bs : list byte) : outcome str :=
  if utf8_valid bs then Ret (string_of_list_byte bs) else Raise undecodable.

(** ** Configuration, messages, log records *)

(** [@dataclass class MQTTConfig] *)
Record MQTTConfig : Type := {
  broker_host : str;
  broker_port : Z;
  broker_user : option str;
  broker_password : option str;
  client_id : str;
  keepalive : Z;
  qos : Z;
  subscribe_topics : list str
}.

(** The defaults of the dataclass; the default [client_id] is built from the
    host name and the clock and is therefore taken as an argument. *)
Definition default_MQTTConfig (default_client_id : str) : MQTTConfig :=
  {| broker_host := "127.0.0.1";
     broker_port := 1883;
     broker_user := None;
     broker_password := None;
     client_id := default_client_id;
     keepalive := 60;
     qos := 0;
     subscribe_topics := [] |}.

(** [paho.MQTTMessage], as far as the wrapper reads it. *)
Record MQTTMessage : Type := {
  topic : str;
  payload : list byte
}.

Inductive level : Type := INFO | WARNING | ERROR.

(** One constructor per log statement of the module, holding the values its
    f-string interpolates. *)
Inductive message : Type :=
| Msg_connected (host : str)          (* Successfully connected to MQTT broker at {host} *)
| Msg_subscribed (t : str)            (* Subscribed to topic: {topic} *)
| Msg_connect_failed (rc : Z)         (* Failed to connect to broker with result code {rc} *)
| Msg_received (t : str) (text : str) (* Message received on topic '{topic}': {payload} *)
| Msg_handler_error (e : exn)         (* Error processing message in handler: {e} *)
| Msg_unexpected_disconnect           (* Unexpected disconnection from MQTT broker. *)
| Msg_loop_started                    (* MQTT background loop started. *)
| Msg_loop_stopped                    (* MQTT background loop stopped. *)
| Msg_already_running                 (* Client is already running. *)
| Msg_starting                        (* Starting MQTT client... *)
| Msg_could_not_connect (host : str) (e : exn)
                                      (* Could not connect to MQTT broker at {host}: {e} *)
| Msg_unexpected_error (e : exn)      (* An unexpected error occurred while starting the client: {e} *)
| Msg_stopping                        (* Stopping MQTT client... *)
| Msg_publish_not_connected           (* Publish failed: MQTT client is not connected. *)
| Msg_queued (t : str) (p : py_value) (* Queued publish to topic '{topic}': {payload} *)
| Msg_queue_failed (t : str)          (* Failed to queue publish to topic '{topic}' *)
| Msg_not_implemented.                (* on_message not implemented. ... *)

Definition log_record : Type := (level * message)%type.

(** A call made on [self.client]. *)
Inductive client_call : Type :=
| Call_username_pw_set (user password : str)
| Call_connect (host : str) (port keepalive : Z)
| Call_disconnect
| Call_subscribe (t : str) (q : Z)
| Call_publish (t : str) (p : py_value) (q : Z) (retain : bool)
| Call_loop.

(** ** The mutable state *)

Record client_state : Type := {
  _is_running : bool;             (* self._is_running *)
  connected_event : bool;         (* the flag of self.connected_event *)
  log : list log_record;          (* records emitted by self.logger, oldest first *)
  calls : list client_call;       (* calls made on self.client, oldest first *)
  handled : list MQTTMessage;     (* messages passed to the handler, oldest first *)
  scheduled : nat                 (* coroutines handed to page.run_task *)
}.

(** [paho.MQTT_ERR_SUCCESS] *)
Definition MQTT_ERR_SUCCESS : Z := 0.

(** ** External collaborators

    What the paho client, the Flet page and [json.dumps] answer is not decided
    by the module: each call either returns or raises.  A stateful
    collaborator answers according to its own history: the paho client to the
    calls made on it before, the page to the number of tasks it was given. *)
Record collaborators : Type := {
  paho_connect : list client_call -> str -> Z -> Z -> outcome unit;
  paho_disconnect : list client_call -> outcome unit;
  paho_subscribe : list client_call -> str -> Z -> outcome unit;
  (* the rc of the MQTTMessageInfo that client.publish returns *)
  paho_publish : list client_call -> str -> py_value -> Z -> bool -> outcome Z;
  (* the call page.run_task(coroutine_function) *)
  page_run_task : nat -> outcome unit;
  (* awaiting what page.run_task returned *)
  await_task_handle : nat -> outcome unit;
  json_dumps : py_value -> outcome str
}.

(** A custom message handler.  It acts on the application (the demo updates
    its widgets), not on the fields of the wrapper; what matters to the
    wrapper is whether the call returns or raises, which may depend on the
    messages the handler was given before. *)
Definition handler : Type := list MQTTMessage -> MQTTMessage -> outcome unit.

(** The immutable part of a [FletMQTTClient] object: what [__init__] stores
    and no method changes. *)
Record FletMQTTClient : Type := {
  config : MQTTConfig;                  (* self.config *)
  on_message_handler : option handler;  (* the constructor argument *)
  world : collaborators                 (* self.client, self.page, json.dumps *)
}.

(** ** The monad of the methods *)

Definition M (A : Type) : Type := client_state -> outcome A * client_state.

Definition ret {A} (a : A) : M A := fun st => (Ret a, st).

Definition raise {A} (e : exn) : M A := fun st => (Raise e, st).

Definition bind {A B} (m : M A) (k : A -> M B) : M B :=
  fun st =>
    match m st with
    | (Ret a, st') => k a st'
    | (Raise e, st') => (Raise e, st')
    end.

(** [try: m except BaseException as e: h e]; the clauses of the source
    re-raise what they do not match. *)
Definition try_catch {A} (m : M A) (h : exn -> M A) : M A :=
  fun st =>
    match m st with
    | (Ret a, st') => (Ret a, st')
    | (Raise e, st') => h e st'
    end.

Definition gets {A} (f : client_state -> A) : M A := fun st => (Ret (f st), st).

Definition modify (f : client_state -> client_state) : M unit :=
  fun st => (Ret tt, f st).

Declare Scope py_scope.
Delimit Scope py_scope with py.
Notation "x <- m ;; k" := (bind m (fun x => k))
  (at level 61, m at next level, right associativity) : py_scope.
Notation "m ;; k" := (bind m (fun _ => k))
  (at level 61, right associativity) : py_scope.
Local Open Scope py_scope.

(** [for x in l: body x] *)
Fixpoint for_each {A} (l : list A) (body : A -> M unit) : M unit :=
  match l with
  | [] => ret tt
  | x :: xs => body x ;; for_each xs body
  end.

(** *** State updates *)

Definition with_running (b : bool) (st : client_state) : client_state :=
  {| _is_running := b; connected_event := connected_event st; log := log st;
     calls := calls st; handled := handled st; scheduled := scheduled st |}.

Definition with_connected (b : bool) (st : client_state) : client_state :=
  {| _is_running := _is_running st; connected_event := b; log := log st;
     calls := calls st; handled := handled st; scheduled := scheduled st |}.

Definition with_log (r : log_record) (st : client_state) : client_state :=
  {| _is_running := _is_running st; connected_event := connected_event st;
     log := log st ++ [r];
     calls := calls st; handled := handled st; scheduled := scheduled st |}.

Definition with_call (c : client_call) (st : client_state) : client_state :=
  {| _is_running := _is_running st; connected_event := connected_event st;
     log := log st; calls := calls st ++ [c];
     handled := handled st; scheduled := scheduled st |}.

Definition with_handled (m : MQTTMessage) (st : client_state) : client_state :=
  {| _is_running := _is_running st; connected_event := connected_event st;
     log := log st; calls := calls st;
     handled := handled st ++ [m]; scheduled := scheduled st |}.

Definition with_scheduled (st : client_state) : client_state :=
  {| _is_running := _is_running st; connected_event := connected_event st;
     log := log st; calls := calls st;
     handled := handled st; scheduled := S (scheduled st) |}.

(** [self.logger.<level>(message)] *)
Definition logger (l : level) (m : message) : M unit := modify (with_log (l, m)).

(** [self.connected_event.set()] and [.clear()] *)
Definition connected_set : M unit := modify (with_connected true).
Definition connected_clear : M unit := modify (with_connected false).

(** [if s:] on an [Optional[str]] *)
Definition truthy (s : option str) : bool :=
  match s with
  | Some (String _ _) => true
  | _ => false
  end.

(** ** The methods of [FletMQTTClient] *)

(** What the paho network step delivers to the wrapper. *)
Inductive callback : Type :=
| On_connect (rc : Z)
| On_message (msg : MQTTMessage)
| On_disconnect (rc : Z).

(** Calls the application makes from its own coroutines. *)
Inductive app_call : Type :=
| App_start
| App_stop.

(** What other coroutines do to the object while one of its coroutines is
    suspended: the background loop delivering a callback, or the application
    calling [start()] or [stop()]. *)
Inductive event : Type :=
| Delivered (cb : callback)
| Called (c : app_call).

(** State of the background loop when the observation ends: still iterating,
    or returned after it saw [_is_running] false.  A loop that dies of an
    exception is the [Raise] outcome. *)
Inductive loop_status : Type :=
| Alive
| Stopped.

Section Methods.

Variable self : FletMQTTClient.

(** *** Calls on the collaborators, recorded in the state *)

Definition client_connect (host : str) (port ka : Z) : M unit :=
  fun st => (paho_connect (world self) (calls st) host port ka,
             with_call (Call_connect host port ka) st).

Definition client_disconnect : M unit :=
  fun st => (paho_disconnect (world self) (calls st), with_call Call_disconnect st).

Definition client_subscribe (t : str) (q : Z) : M unit :=
  fun st => (paho_subscribe (world self) (calls st) t q, with_call (Call_subscribe t q) st).

Definition client_publish (t : str) (p : py_value) (q : Z) (retain : bool)
  : M Z :=
  fun st => (paho_publish (world self) (calls st) t p q retain,
             with_call (Call_publish t p q retain) st).

(** [await self.page.run_task(self._background_loop)]: the call hands the
    coroutine to the page unless it raises; its result is then awaited.
    Nothing follows the [await] in [start] but the [except] clauses, so what
    other coroutines do while it is pending is as if done after [start]. *)
Definition await_run_task : M unit :=
  fun st =>
    match page_run_task (world self) (scheduled st) with
    | Ret _ => (await_task_handle (world self) (scheduled st), with_scheduled st)
    | Raise e => (Raise e, st)
    end.

Definition dumps (v : py_value) : M str := fun st => (json_dumps (world self) v, st).

(** *** [__init__] and [_setup_callbacks] *)

Definition _setup_callbacks : list client_call :=
  if truthy (broker_user (config self)) && truthy (broker_password (config self)) then
    match broker_user (config self), broker_password (config self) with
    | Some u, Some p => [Call_username_pw_set u p]
    | _, _ => []
    end
  else [].

Definition __init__ : client_state :=
  {| _is_running := false;
     connected_event := false;
     log := [];
     calls := _setup_callbacks;
     handled := [];
     scheduled := 0 |}.

(** *** [on_message]: the placeholder handler *)

Definition on_message (msg : MQTTMessage) : M unit :=
  logger WARNING Msg_not_implemented.

(** [self.on_message_handler(msg)] *)
Definition call_handler (msg : MQTTMessage) : M unit :=
  match on_message_handler self with
  | Some h => fun st => (h (handled st) msg, with_handled msg st)
  | None => modify (with_handled msg) ;; on_message msg
  end.

(** *** The three paho callbacks *)

(** The body of the [for topic in ...] loop of [_on_connect]. *)
Definition subscribe_and_log (t : str) : M unit :=
  client_subscribe t (qos (config self)) ;;
  logger INFO (Msg_subscribed t).

Definition _on_connect (rc : Z) : M unit :=
  if rc =? 0 then
    logger INFO (Msg_connected (broker_host (config self))) ;;
    connected_set ;;
    match subscribe_topics (config self) with
    | [] => ret tt
    | _ :: _ => for_each (subscribe_topics (config self)) subscribe_and_log
    end
  else
    logger ERROR (Msg_connect_failed rc) ;;
    connected_clear.

Definition _on_message_internal (msg : MQTTMessage) : M unit :=
  text <- (fun st => (decode (payload msg), st)) ;;
  logger INFO (Msg_received (topic msg) text) ;;
  try_catch (call_handler msg)
    (fun e =>
       if is_Exception e then logger ERROR (Msg_handler_error e)
       else raise e).

Definition _on_disconnect (rc : Z) : M unit :=
  connected_clear ;;
  if negb (rc =? 0) then logger WARNING Msg_unexpected_disconnect
  else ret tt.

Definition deliver (cb : callback) : M unit :=
  match cb with
  | On_connect rc => _on_connect rc
  | On_message msg => _on_message_internal msg
  | On_disconnect rc => _on_disconnect rc
  end.

(** *** [start] and [stop] *)

Definition start : M unit :=
  running <- gets _is_running ;;
  if running then logger WARNING Msg_already_running
  else
    try_catch
      (logger INFO Msg_starting ;;
       connected_clear ;;
       client_connect (broker_host (config self)) (broker_port (config self))
                      (keepalive (config self)) ;;
       modify (with_running true) ;;
       await_run_task)
      (fun e =>
         if is_OSError e then
           logger ERROR (Msg_could_not_connect (broker_host (config self)) e)
         else if is_Exception e then
           logger ERROR (Msg_unexpected_error e)
         else raise e).

Definition stop : M unit :=
  running <- gets _is_running ;;
  if negb running then ret tt
  else
    logger INFO Msg_stopping ;;
    modify (with_running false) ;;
    client_disconnect ;;
    connected_clear.

(** *** Other coroutines *)

(** An event runs in its own coroutine: what it raises goes to its own
    caller, and only its effect on the state is seen by the others. *)
Definition run_event (ev : event) (st : client_state) : client_state :=
  snd (match ev with
       | Delivered cb => deliver cb st
       | Called App_start => start st
       | Called App_stop => stop st
       end).

Definition run_events (evs : list event) (st : client_state) : client_state :=
  fold_left (fun s ev => run_event ev s) evs st.

(** What the other coroutines do between two points at which a suspended
    coroutine can be resumed: one network step of the background loop with
    all its callbacks, calls of the application, or several of these.  The
    boolean tells whether the turn has woken the coroutines that wait on
    [connected_event]: [Event.set()] wakes them when it turns the flag from
    clear to set, and a later [clear()] in the same turn does not put them
    back to sleep. *)
Fixpoint run_turn (evs : list event) (st : client_state)
  : bool * client_state :=
  match evs with
  | [] => (false, st)
  | ev :: rest =>
    let st1 := run_event ev st in
    let (woken, st') := run_turn rest st1 in
    ((negb (connected_event st) && connected_event st1) || woken, st')
  end.

(** The suspended [Event.wait()]: it is resumed, and returns, at the end of
    the first turn that woke it, in whatever state that turn has left, and
    without looking at the flag again; when the turns before the timeout
    are used up it is the [asyncio.TimeoutError] ([false]). *)
Fixpoint wait_pending (window : list (list event)) (st : client_state)
  : bool * client_state :=
  match window with
  | [] => (false, st)
  | turn :: rest =>
    let (woken, st') := run_turn turn st in
    if woken then (true, st') else wait_pending rest st'
  end.

(** [await asyncio.wait_for(self.connected_event.wait(), timeout=5.0)], as
    [asyncio] has it since Python 3.12: [Event.wait()] runs in the calling
    coroutine and returns at once when the flag is set at the call;
    otherwise the coroutine is suspended.  [window] lists, in order, the
    turns of the other coroutines before the timeout expires. *)
Definition wait_for_connected (window : list (list event)) : M bool :=
  fun st =>
    if connected_event st then (Ret true, st)
    else let (woken, st') := wait_pending window st in (Ret woken, st').

(** *** [publish] *)

(** [if isinstance(payload, (dict, list)): payload = json.dumps(payload)] *)
Definition serialize_payload (p : py_value) : M py_value :=
  if is_dict_or_list p then (s <- dumps p ;; ret (PyStr s)) else ret p.

(** The statements of [publish] that follow the wait. *)
Definition publish_now (t : str) (p : py_value) (q : option Z) (retain : bool)
  : M unit :=
  p' <- serialize_payload p ;;
  let qos_level := match q with Some q' => q' | None => qos (config self) end in
  rc <- client_publish t p' qos_level retain ;;
  if rc =? MQTT_ERR_SUCCESS then logger INFO (Msg_queued t p')
  else logger ERROR (Msg_queue_failed t).

Definition publish (t : str) (p : py_value) (q : option Z) (retain : bool)
           (window : list (list event)) : M unit :=
  connected <- wait_for_connected window ;;
  if negb connected then logger ERROR Msg_publish_not_connected
  else publish_now t p q retain.

(** *** What clears the connected condition *)

(** Whether the event, run in the given state, executes
    [self.connected_event.clear()]: [_on_disconnect] always does,
    [_on_connect] for a code other than 0, [start()] on a client that is not
    running, and [stop()] on a running client once the protocol client's
    [disconnect] has returned. *)
Definition clears_connected (ev : event) (st : client_state) : bool :=
  match ev with
  | Delivered (On_disconnect _) => true
  | Delivered (On_connect rc) => negb (rc =? 0)
  | Delivered (On_message _) => false
  | Called App_start => negb (_is_running st)
  | Called App_stop =>
    _is_running st
    && match paho_disconnect (world self) (calls st) with
       | Ret _ => true
       | Raise _ => false
       end
  end.

(** No event of the run clears the connected condition. *)
Fixpoint none_clears (evs : list event) (st : client_state) : bool :=
  match evs with
  | [] => true
  | ev :: rest =>
    negb (clears_connected ev st) && none_clears rest (run_event ev st)
  end.

(** *** [_background_loop] *)

(** [self.client.loop()]: paho runs the callbacks of the packets it has
    read; with its default [suppress_exceptions = False] an exception of a
    callback leaves [loop()]. *)
Definition client_loop (delivered : list callback) : M unit :=
  modify (with_call Call_loop) ;;
  for_each delivered deliver.

(** The [while self._is_running] loop.  A tick is what [client.loop()]
    delivers in that iteration and what the application calls during the
    following [asyncio.sleep(0.1)]; [ticks] is the observed part of the
    run. *)
Fixpoint iterate (ticks : list (list callback * list app_call))
  : M loop_status :=
  running <- gets _is_running ;;
  if negb running then
    logger INFO Msg_loop_stopped ;; ret Stopped
  else
    match ticks with
    | [] => ret Alive
    | (delivered, during_sleep) :: rest =>
      client_loop delivered ;;
      modify (run_events (map Called during_sleep)) ;;
      iterate rest
    end.

Definition _background_loop (ticks : list (list callback * list app_call))
  : M loop_status :=
  logger INFO Msg_loop_started ;;
  iterate ticks.

End Methods.

(** ** Stand-ins for the collaborators

    Concrete collaborators on which the embedding can be run: a model of
    [json.dumps] on [py_value] and a paho client that performs some of the
    argument checks of the real one.  The general results below hold for every
    collaborator; these are used to evaluate the wrapper on examples. *)
Module Doubles.

Definition hex_digit (n : N) : ascii :=
  if (n <? 10)%N then ascii_of_N (48 + n) else ascii_of_N (87 + n).

(** ['\\u{0:04x}'.format(n)] *)
Definition u_escape (n : N) : string :=
  String "\" (String "u"
    (String (hex_digit (N.land (N.shiftr n 12) 15))
    (String (hex_digit (N.land (N.shiftr n 8) 15))
    (String (hex_digit (N.land (N.shiftr n 4) 15))
    (String (hex_digit (N.land n 15)) EmptyString))))).

Definition double_quote : string := String "034" EmptyString.

(** The replacement of one code point in [py_encode_basestring_ascii]:
    printable ASCII stays, [ESCAPE_DCT] gives the short escapes, the rest
    of the basic plane is a [\uXXXX] and the other planes are a surrogate
    pair. *)
Definition escape_code_point (cp : N) : string :=
  if (cp =? 34)%N then String "\" double_quote
  else if (cp =? 92)%N then "\\"
  else if (cp =? 10)%N then "\n"
  else if (cp =? 13)%N then "\r"
  else if (cp =? 9)%N then "\t"
  else if (cp =? 8)%N then "\b"
  else if (cp =? 12)%N then "\f"
  else if ((32 <=? cp) && (cp <=? 126))%N then String (ascii_of_N cp) EmptyString
  else if (cp <? 65536)%N then u_escape cp
  else
    let n := (cp - 65536)%N in
    append (u_escape (N.lor 55296 (N.land (N.shiftr n 10) 1023)))
           (u_escape (N.lor 56320 (N.land n 1023))).

Definition code_points (s : str) : list N :=
  let bytes := map Byte.to_N (list_byte_of_string s) in
  match utf8_decode bytes with
  | Some cps => cps
  | None => bytes
  end.

(** [json.encoder.py_encode_basestring_ascii] *)
Definition encode_basestring_ascii (s : str) : string :=
  append double_quote
    (append (String.concat "" (map escape_code_point (code_points s)))
            double_quote).

(** [str(z)] *)
Definition str_of_int (z : Z) : str := NilZero.string_of_int (Z.to_int z).

Definition not_serializable (type_name : string) : exn :=
  mk_exn TypeError
    (append "Object of type " (append type_name " is not JSON serializable")).

Definition bad_key (type_name : string) : exn :=
  mk_exn TypeError
    (append "keys must be str, int, float, bool or None, not " type_name).

(** A [float] as the encoder writes it: [float.__repr__], but for the
    three values that are not finite. *)
Definition json_float (repr : str) : str :=
  if String.eqb repr "nan" then "NaN"
  else if String.eqb repr "inf" then "Infinity"
  else if String.eqb repr "-inf" then "-Infinity"
  else repr.

(** The key of a dict item as the encoder writes it. *)
Definition json_key (k : py_value) : outcome str :=
  match k with
  | PyStr s => Ret s
  | PyFloat r => Ret (json_float r)
  | PyBool true => Ret "true"
  | PyBool false => Ret "false"
  | PyNone => Ret "null"
  | PyInt z => Ret (str_of_int z)
  | PyBytes _ => Raise (bad_key "bytes")
  | PyByteArray _ => Raise (bad_key "bytearray")
  | PyList _ => Raise (bad_key "list")
  | PyTuple _ => Raise (bad_key "tuple")
  | PyDict _ => Raise (bad_key "dict")
  | PyObject c => Raise (bad_key c)
  end.

(** [json.dumps(v)] with its default arguments: [ensure_ascii=True],
    separators [', '] and [': '], no indentation; a tuple is written as a
    list.  The first value that cannot be serialized, in document order,
    raises. *)
Fixpoint py_json_dumps (v : py_value) : outcome str :=
  match v with
  | PyNone => Ret "null"
  | PyBool true => Ret "true"
  | PyBool false => Ret "false"
  | PyInt z => Ret (str_of_int z)
  | PyFloat r => Ret (json_float r)
  | PyStr s => Ret (encode_basestring_ascii s)
  | PyBytes _ => Raise (not_serializable "bytes")
  | PyByteArray _ => Raise (not_serializable "bytearray")
  | PyObject c => Raise (not_serializable c)
  | PyList items | PyTuple items =>
    let fix elements (l : list py_value) : outcome (list str) :=
        match l with
        | [] => Ret []
        | x :: xs =>
          match py_json_dumps x with
          | Raise e => Raise e
          | Ret s =>
            match elements xs with
            | Raise e => Raise e
            | Ret ss => Ret (s :: ss)
            end
          end
        end in
    match elements items with
    | Raise e => Raise e
    | Ret ss => Ret (append "[" (append (String.concat ", " ss) "]"))
    end
  | PyDict items =>
    let fix members (l : list (py_value * py_value)) : outcome (list str) :=
        match l with
        | [] => Ret []
        | (k, x) :: xs =>
          match json_key k with
          | Raise e => Raise e
          | Ret ks =>
            match py_json_dumps x with
            | Raise e => Raise e
            | Ret s =>
              match members xs with
              | Raise e => Raise e
              | Ret ss =>
                Ret (append (encode_basestring_ascii ks) (append ": " s) :: ss)
              end
            end
          end
        end in
    match members items with
    | Raise e => Raise e
    | Ret ss => Ret (append "{" (append (String.concat ", " ss) "}"))
    end
  end.

Definition valid_qos (q : Z) : bool := (0 <=? q) && (q <=? 2).

(** [needle in s] *)
Definition occurs (needle s : string) : bool :=
  match String.index 0 needle s with
  | Some _ => true
  | None => false
  end.

(** [s.split('/')] *)
Fixpoint split_levels (current s : string) : list string :=
  match s with
  | EmptyString => [current]
  | String c rest =>
    if Ascii.eqb c "/" then current :: split_levels "" rest
    else split_levels (append current (String c EmptyString)) rest
  end.

(** [_filter_wildcard_len_check]: a wildcard fills a whole level and [#]
    is the last level. *)
Definition valid_filter (t : str) : bool :=
  negb (String.eqb t "")
  && (N.of_nat (String.length t) <=? 65535)%N
  && forallb (fun level =>
                (String.length level <=? 1)%nat
                || negb (occurs "+" level || occurs "#" level))
             (split_levels "" t)
  && negb (occurs "#/" t).

(** [_topic_wildcard_len_check]: no wildcard in the topic of a publish. *)
Definition valid_publish_topic (t : str) : bool :=
  negb (occurs "+" t || occurs "#" t)
  && (N.of_nat (String.length t) <=? 65535)%N.

(** The checks [paho.Client.subscribe] makes on a single topic string. *)
Definition checked_subscribe (t : str) (q : Z) : outcome unit :=
  if negb (valid_qos q) then Raise (mk_exn ValueError "Invalid QoS level.")
  else if String.eqb t "" then Raise (mk_exn ValueError "Invalid topic.")
  else if negb (valid_filter t)
       then Raise (mk_exn ValueError "Invalid subscription filter.")
  else Ret tt.

(** The checks [paho.Client.publish] makes on topic, QoS and payload type;
    [rc] is the result code it reports for an accepted message. *)
Definition checked_publish (rc : Z) (t : str) (p : py_value) (q : Z)
  : outcome Z :=
  if String.eqb t "" then Raise (mk_exn ValueError "Invalid topic.")
  else if negb (valid_publish_topic t)
       then Raise (mk_exn ValueError "Publish topic cannot contain wildcards.")
  else if negb (valid_qos q) then Raise (mk_exn ValueError "Invalid QoS level.")
  else
    match p with
    | PyStr _ | PyBytes _ | PyByteArray _ | PyInt _ | PyBool _ | PyFloat _
    | PyNone => Ret rc
    | _ => Raise (mk_exn TypeError
                    "payload must be a string, bytearray, int, float or None.")
    end.

Definition connection_refused : exn :=
  mk_exn OSError "[Errno 111] Connection refused".

Definition broken_pipe : exn := mk_exn OSError "[Errno 32] Broken pipe".

(** What awaiting the result of Flet's [page.run_task] raises: the result
    is a [concurrent.futures.Future], which is not awaitable. *)
Definition not_awaitable : exn :=
  mk_exn TypeError "object Future can't be used in 'await' expression".

(** A broker that is reachable or not, a protocol client whose
    [disconnect] returns or not and whose accepted publishes report [rc],
    and the page of Flet. *)
Definition paho_client (reachable disconnects : bool) (rc : Z)
  : collaborators :=
  {| paho_connect := fun _ _ _ _ =>
       if reachable then Ret tt else Raise connection_refused;
     paho_disconnect := fun _ =>
       if disconnects then Ret tt else Raise broken_pipe;
     paho_subscribe := fun _ => checked_subscribe;
     paho_publish := fun _ t p q _ => checked_publish rc t p q;
     page_run_task := fun _ => Ret tt;
     await_task_handle := fun _ => Raise not_awaitable;
     json_dumps := py_json_dumps |}.

Definition paho (reachable : bool) (rc : Z) : collaborators :=
  paho_client reachable true rc.

(** A handler that raises on every call. *)
Definition failing_handler : handler :=
  fun _ _ => Raise (mk_exn OtherException "handler failed").

(** The configuration of the demo application, on fixed topics. *)
Definition demo_config : MQTTConfig :=
  {| broker_host := "broker.hivemq.com";
     broker_port := 1883;
     broker_user := None;
     broker_password := None;
     client_id := "flet_mqtt_async_demo";
     keepalive := 60;
     qos := 0;
     subscribe_topics := ["demo/light/state"; "demo/light/set"] |}.

(** A configuration that changes two defaults: the host and the topics. *)
Definition test_broker_config : MQTTConfig :=
  {| broker_host := "test-broker";
     broker_port := 1883;
     broker_user := None;
     broker_password := None;
     client_id := "flet_mqtt_async_test";
     keepalive := 60;
     qos := 0;
     subscribe_topics := ["a/b"] |}.

Definition bytes_of (s : string) : list byte := list_byte_of_string s.

Definition quoted (s : string) : string :=
  append double_quote (append s double_quote).

(** The demo client with the placeholder handler, on a reachable broker. *)
Definition demo : FletMQTTClient :=
  {| config := demo_config; on_message_handler := None; world := paho true 0 |}.

(** The same client when the broker refuses the TCP connection. *)
Definition unreachable : FletMQTTClient :=
  {| config := demo_config; on_message_handler := None; world := paho false 0 |}.

(** The same client when paho reports [MQTT_ERR_NO_CONN] on a publish. *)
Definition not_enqueuing : FletMQTTClient :=
  {| config := demo_config; on_message_handler := None; world := paho true 4 |}.

(** The same client when the protocol client's [disconnect] raises. *)
Definition not_disconnecting : FletMQTTClient :=
  {| config := demo_config;
     on_message_handler := None;
     world := paho_client true false 0 |}.

(** The demo client with a handler that always fails. *)
Definition failing : FletMQTTClient :=
  {| config := demo_config;
     on_message_handler := Some failing_handler;
     world := paho true 0 |}.

Definition test_broker : FletMQTTClient :=
  {| config := test_broker_config;
     on_message_handler := None;
     world := paho true 0 |}.

(** The state of the demo client: just constructed, after [start()], and
    after the broker has accepted the connection. *)
Definition fresh : client_state := __init__ demo.

Definition started : client_state := run_event demo (Called App_start) fresh.

Definition connected : client_state :=
  run_event demo (Delivered (On_connect 0)) started.

Definition state_message (text : string) : MQTTMessage :=
  {| topic := "demo/light/state"; payload := bytes_of text |}.

End Doubles.

(** ** Observations on a run *)

Definition is_publish_call (c : client_call) : bool :=
  match c with
  | Call_publish _ _ _ _ => true
  | _ => false
  end.

(** The calls of the send primitive, [client.publish], among the calls made
    on the paho client. *)
Definition publish_calls (cs : list client_call) : list client_call :=
  filter is_publish_call cs.

(** What the body of the [try] in [start] raises, if anything: the
    exception of the first of [connect], [page.run_task] and the [await] of
    its result that raises. *)
Definition start_raises (self : FletMQTTClient) (st : client_state)
  : option exn :=
  match paho_connect (world self) (calls st) (broker_host (config self))
                     (broker_port (config self)) (keepalive (config self))
  with
  | Raise e => Some e
  | Ret _ =>
    match page_run_task (world self) (scheduled st) with
    | Raise e => Some e
    | Ret _ =>
      match await_task_handle (world self) (scheduled st) with
      | Raise e => Some e
      | Ret _ => None
      end
    end
  end.

Definition is_handler_error (r : log_record) : bool :=
  match r with
  | (ERROR, Msg_handler_error _) => true
  | _ => false
  end.

(** The number of handler failures on record. *)
Definition handler_errors (st : client_state) : nat :=
  List.length (filter is_handler_error (log st)).

(** A network step that delivers nothing but messages with a payload that
    decodes. *)
Definition decodable_messages (cbs : list callback) : Prop :=
  forall cb, In cb cbs ->
             exists m, cb = On_message m /\ utf8_valid (payload m) = true.

(** The messages among the callbacks that the network step delivers. *)
Definition inbound (cbs : list callback) : list MQTTMessage :=
  flat_map (fun cb => match cb with On_message m => [m] | _ => [] end) cbs.

Definition is_subscribe_call (c : client_call) : bool :=
  match c with
  | Call_subscribe _ _ => true
  | _ => false
  end.

(** The subscribe requests among the calls made on the paho client. *)
Definition subscribe_calls (cs : list client_call) : list client_call :=
  filter is_subscribe_call cs.

(** A subscribe request for a topic of the configuration at its QoS. *)
Definition configured_subscription (cfg : MQTTConfig) (c : client_call) : Prop :=
  exists t, In t (subscribe_topics cfg) /\ c = Call_subscribe t (qos cfg).

(** The call [start] makes on the protocol client. *)
Definition connect_call (cfg : MQTTConfig) : client_call :=
  Call_connect (broker_host cfg) (broker_port cfg) (keepalive cfg).

(** ** The module logger: [_setup_logging]

    [logging.getLogger(__name__)] is one object for the whole process; every
    client that is constructed runs [_setup_logging] on it. *)

Inductive stream : Type := Stdout | Stderr.

(** A [logging.StreamHandler] with its formatter. *)
Record stream_handler : Type := {
  handler_stream : stream;
  handler_format : string
}.

(** The logger, as far as [_setup_logging] reads and writes it: its numeric
    level and its own handlers. *)
Record py_logger : Type := {
  logger_level : Z;
  logger_handlers : list stream_handler
}.

(** [logging.INFO] *)
Definition logging_INFO : Z := 20.

Definition stdout_handler : stream_handler :=
  {| handler_stream := Stdout;
     handler_format := "%(asctime)s - %(name)s - %(levelname)s - %(message)s" |}.

Definition _setup_logging (logger : py_logger) : py_logger :=
  match logger_handlers logger with
  | [] =>
    {| logger_level := logging_INFO;
       logger_handlers := logger_handlers logger ++ [stdout_handler] |}
  | _ :: _ => logger
  end.

(** ** More stand-ins *)
Module Scenarios.

Import Doubles.

(** A configuration whose second topic is empty, which paho's [subscribe]
    rejects. *)
Definition bad_topic_config : MQTTConfig :=
  {| broker_host := "broker.hivemq.com";
     broker_port := 1883;
     broker_user := None;
     broker_password := None;
     client_id := "flet_mqtt_async_demo";
     keepalive := 60;
     qos := 1;
     subscribe_topics := ["demo/light/state"; ""; "demo/light/set"] |}.

Definition bad_topic : FletMQTTClient :=
  {| config := bad_topic_config;
     on_message_handler := None;
     world := paho true 0 |}.

(** A configuration with credentials. *)
Definition secured_config : MQTTConfig :=
  {| broker_host := "broker.hivemq.com";
     broker_port := 8883;
     broker_user := Some "alice";
     broker_password := Some "secret";
     client_id := "flet_mqtt_async_demo";
     keepalive := 60;
     qos := 0;
     subscribe_topics := [] |}.

Definition secured : FletMQTTClient :=
  {| config := secured_config;
     on_message_handler := None;
     world := paho true 0 |}.

(** A handler that ends the interpreter. *)
Definition system_exit : exn := mk_exn SystemExiting "SystemExit".

Definition exiting_handler : handler := fun _ _ => Raise system_exit.

Definition exiting : FletMQTTClient :=
  {| config := demo_config;
     on_message_handler := Some exiting_handler;
     world := paho true 0 |}.

(** A message whose payload is not UTF-8. *)
Definition garbled_message : MQTTMessage :=
  {| topic := "demo/light/state"; payload := [x4f; xff] |}.

(** The module logger before the first client is constructed. *)
Definition untouched_logger : py_logger :=
  {| logger_level := 0; logger_handlers := [] |}.

End Scenarios.

(** ** The demo application: [main.py]

    [LightControlApp] is a subclass of [FletMQTTClient] that overrides
    [on_message] and adds the widgets of one page.  Its own mutable state is
    the [app_view]; with the state of the inherited client it forms the
    [app_state].  [json.loads], [str.upper], the clock and [page.update] are
    further collaborators. *)
Module LightControlApp.

(** What [json.loads] returns. *)
Inductive json_value : Type :=
| JNull
| JBool (b : bool)
| JInt (z : Z)
| JFloat (text : str)
| JStr (s : str)
| JList (items : list json_value)
| JDict (items : list (str * json_value)).   (* the items; keys are distinct *)

Inductive loads_outcome : Type :=
| Loaded (v : json_value)
| JSONDecodeError                 (* raise json.JSONDecodeError(...) *)
| Loads_raised (e : exn).         (* any other exception *)

Record libraries : Type := {
  json_loads : str -> loads_outcome;
  str_upper : str -> str;               (* str.upper *)
  (* datetime.now().strftime('%H:%M:%S'), by the number of earlier page updates *)
  strftime_now : nat -> str;
  (* self.page.update(), by the number of earlier page updates *)
  page_update : nat -> outcome unit
}.

Inductive icon : Type := LIGHTBULB | LIGHTBULB_OUTLINE.   (* ft.Icons *)

Inductive colour : Type := GREY | GREY_600 | YELLOW_600.  (* ft.Colors *)

(** The log statements of [main.py]. *)
Inductive app_message : Type :=
| Msg_could_not_decode_json (text : str)  (* Could not decode JSON payload: {payload} *)
| Msg_error_updating_ui (e : exn)         (* Error updating UI from message: {e} *)
| Msg_publishing_new_state (s : str)      (* Publishing new state: {new_state} *)
| Msg_window_closed.                      (* Window closed. Stopping MQTT client... *)

(** The widgets that change after [_setup_ui], the number of calls of
    [page.update()], and the records the application writes to the logger,
    oldest first (kept apart from the records of the inherited methods). *)
Record app_view : Type := {
  light_icon_name : icon;            (* self.light_icon.name *)
  light_icon_color : colour;         (* self.light_icon.color *)
  status_text : str;                 (* self.status_text.value *)
  last_updated_text : str;           (* self.last_updated_text.value *)
  toggle_button_disabled : bool;     (* self.toggle_button.disabled *)
  page_updates : nat;
  app_log : list (level * app_message)
}.

(** *** A state-and-exception monad over any state *)

Definition SE (S X : Type) : Type := S -> outcome X * S.

Definition se_ret {S X} (x : X) : SE S X := fun s => (Ret x, s).

Definition se_raise {S X} (e : exn) : SE S X := fun s => (Raise e, s).

Definition se_lift {S X} (o : outcome X) : SE S X := fun s => (o, s).

Definition se_bind {S X Y} (m : SE S X) (k : X -> SE S Y) : SE S Y :=
  fun s =>
    match m s with
    | (Ret x, s') => k x s'
    | (Raise e, s') => (Raise e, s')
    end.

Definition se_try {S X} (m : SE S X) (h : exn -> SE S X) : SE S X :=
  fun s =>
    match m s with
    | (Ret x, s') => (Ret x, s')
    | (Raise e, s') => h e s'
    end.

Definition se_modify {S} (f : S -> S) : SE S unit := fun s => (Ret tt, f s).

Declare Scope se_scope.
Notation "x <- m ;; k" := (se_bind m (fun x => k)) : se_scope.
Notation "m ;; k" := (se_bind m (fun _ => k)) : se_scope.
Local Open Scope se_scope.

(** *** Updates of the view *)

Definition show_light (n : icon) (c : colour) (text : str) (v : app_view)
  : app_view :=
  {| light_icon_name := n; light_icon_color := c; status_text := text;
     last_updated_text := last_updated_text v;
     toggle_button_disabled := toggle_button_disabled v;
     page_updates := page_updates v; app_log := app_log v |}.

Definition show_last_updated (text : str) (v : app_view) : app_view :=
  {| light_icon_name := light_icon_name v;
     light_icon_color := light_icon_color v; status_text := status_text v;
     last_updated_text := text;
     toggle_button_disabled := toggle_button_disabled v;
     page_updates := page_updates v; app_log := app_log v |}.

Definition enable_toggle (v : app_view) : app_view :=
  {| light_icon_name := light_icon_name v;
     light_icon_color := light_icon_color v; status_text := status_text v;
     last_updated_text := last_updated_text v;
     toggle_button_disabled := false;
     page_updates := page_updates v; app_log := app_log v |}.

Definition count_page_update (v : app_view) : app_view :=
  {| light_icon_name := light_icon_name v;
     light_icon_color := light_icon_color v; status_text := status_text v;
     last_updated_text := last_updated_text v;
     toggle_button_disabled := toggle_button_disabled v;
     page_updates := S (page_updates v); app_log := app_log v |}.

Definition with_app_log (r : level * app_message) (v : app_view) : app_view :=
  {| light_icon_name := light_icon_name v;
     light_icon_color := light_icon_color v; status_text := status_text v;
     last_updated_text := last_updated_text v;
     toggle_button_disabled := toggle_button_disabled v;
     page_updates := page_updates v; app_log := app_log v ++ [r] |}.

(** The widgets alone. *)
Definition widgets (v : app_view) : icon * colour * str * str * bool :=
  (light_icon_name v, light_icon_color v, status_text v, last_updated_text v,
   toggle_button_disabled v).

(** *** Python operators on what [json.loads] returned *)

(** [needle in hay] for two [str] *)
Fixpoint str_contains (needle hay : str) : bool :=
  prefix needle hay
  || match hay with
     | EmptyString => false
     | String _ rest => str_contains needle rest
     end.

Definition not_iterable : exn :=
  mk_exn TypeError "argument of this type is not iterable".

Definition bad_index : exn :=
  mk_exn TypeError "indices must be integers or slices, not str".

Definition key_error : exn := mk_exn OtherException "KeyError: 'state'".

Definition no_upper : exn :=
  mk_exn OtherException "AttributeError: object has no attribute 'upper'".

(** ['state' in payload] *)
Definition contains_state (v : json_value) : outcome bool :=
  match v with
  | JDict items => Ret (existsb (fun kv => String.eqb (fst kv) "state") items)
  | JList items =>
    Ret (existsb (fun x => match x with
                           | JStr s => String.eqb s "state"
                           | _ => false
                           end) items)
  | JStr s => Ret (str_contains "state" s)
  | JNull | JBool _ | JInt _ | JFloat _ => Raise not_iterable
  end.

(** [payload['state']] *)
Definition get_state (v : json_value) : outcome json_value :=
  match v with
  | JDict items =>
    match find (fun kv => String.eqb (fst kv) "state") items with
    | Some (_, x) => Ret x
    | None => Raise key_error
    end
  | _ => Raise bad_index
  end.

(** What the application is run with. *)
Record application : Type := {
  time_ns : Z;               (* time.time_ns() when the module is loaded *)
  default_client_id : str;   (* the default of MQTTConfig.client_id *)
  net : collaborators;       (* the paho client, the page's tasks, json.dumps *)
  lib : libraries
}.

(** A well-formed view: nothing shown yet and the button disabled, or a
    state shown with its bulb and the button enabled. *)
Definition view_ok (v : app_view) : Prop :=
  (light_icon_name v, light_icon_color v, status_text v,
   toggle_button_disabled v)
  = (LIGHTBULB_OUTLINE, GREY, "Waiting for status...", true) \/
  (light_icon_name v, light_icon_color v, status_text v,
   toggle_button_disabled v)
  = (LIGHTBULB, YELLOW_600, "ON", false) \/
  (light_icon_name v, light_icon_color v, status_text v,
   toggle_button_disabled v)
  = (LIGHTBULB_OUTLINE, GREY, "OFF", false).

Section Application.

Variable app : application.

Definition BROKER_HOST : str := "broker.hivemq.com".

Definition BASE_TOPIC : str :=
  append "flet-mqtt-demo/user/" (NilZero.string_of_int (Z.to_int (time_ns app))).

Definition STATE_TOPIC : str := append BASE_TOPIC "/light/state".

Definition COMMAND_TOPIC : str := append BASE_TOPIC "/light/set".

(** [MQTTConfig(broker_host=BROKER_HOST,
                subscribe_topics=[STATE_TOPIC, COMMAND_TOPIC])] *)
Definition mqtt_config : MQTTConfig :=
  {| broker_host := BROKER_HOST;
     broker_port := 1883;
     broker_user := None;
     broker_password := None;
     client_id := default_client_id app;
     keepalive := 60;
     qos := 0;
     subscribe_topics := [STATE_TOPIC; COMMAND_TOPIC] |}.

(** *** [_setup_ui] *)

(** The view that [_setup_ui] builds; its [page.update()] is taken to
    return. *)
Definition _setup_ui : app_view :=
  {| light_icon_name := LIGHTBULB_OUTLINE;
     light_icon_color := GREY;
     status_text := "Waiting for status...";
     last_updated_text := "Never";
     toggle_button_disabled := true;
     page_updates := 1;
     app_log := [] |}.

(** [self.logger.<level>(...)] in [main.py] *)
Definition app_logger (l : level) (m : app_message) : SE app_view unit :=
  se_modify (with_app_log (l, m)).

(** *** [update_ui] *)

(** [state.upper()] *)
Definition upper_of (state : json_value) : outcome str :=
  match state with
  | JStr s => Ret (str_upper (lib app) s)
  | _ => Raise no_upper
  end.

Definition update_ui (state : json_value) : SE app_view unit :=
  upper <- se_lift (upper_of state) ;;
  (if String.eqb upper "ON"
   then se_modify (show_light LIGHTBULB YELLOW_600 "ON")
   else se_modify (show_light LIGHTBULB_OUTLINE GREY "OFF")) ;;
  (fun v =>
     se_modify
       (show_last_updated
          (append "Last update: " (strftime_now (lib app) (page_updates v)))) v) ;;
  se_modify enable_toggle ;;
  (fun v => (page_update (lib app) (page_updates v), count_page_update v)).

(** *** [on_message], as overridden *)

(** [except Exception as e: self.logger.error(...)] *)
Definition log_ui_error (e : exn) : SE app_view unit :=
  if is_Exception e then app_logger ERROR (Msg_error_updating_ui e)
  else se_raise e.

Definition on_message (msg : MQTTMessage) : SE app_view unit :=
  fun v =>
    match decode (payload msg) with
    | Raise e => log_ui_error e v
    | Ret text =>
      match json_loads (lib app) text with
      | JSONDecodeError => app_logger ERROR (Msg_could_not_decode_json text) v
      | Loads_raised e => log_ui_error e v
      | Loaded parsed =>
        se_try
          (has_state <- se_lift (contains_state parsed) ;;
           if has_state : bool
           then (state <- se_lift (get_state parsed) ;; update_ui state)
           else se_ret tt)
          log_ui_error v
      end
    end.

(** *** The inherited methods on the application *)

Definition app_state : Type := (client_state * app_view)%type.

(** The application seen as a client, with a handler that answers as
    given. *)
Definition as_client (h : handler) : FletMQTTClient :=
  {| config := mqtt_config; on_message_handler := Some h; world := net app |}.

(** A handler for the methods that do not reach the handler. *)
Definition unused_handler : handler := fun _ _ => Ret tt.

(** An inherited method that does not reach the handler: it runs on the
    client state and leaves the view alone. *)
Definition inherited {X} (m : FletMQTTClient -> M X) : SE app_state X :=
  fun s =>
    let (r, c) := m (as_client unused_handler) (fst s) in (r, (c, snd s)).

(** A statement of [main.py] that touches the view only. *)
Definition on_view {X} (m : SE app_view X) : SE app_state X :=
  fun s => let (r, v) := m (snd s) in (r, (fst s, v)).

(** The inherited [_on_message_internal], whose handler is the overriding
    [on_message]: the dispatcher runs with the answer [on_message] gives in
    the current view, and [on_message] has acted on the view when the
    dispatcher got as far as the handler, that is when the payload
    decodes. *)
Definition dispatch (msg : MQTTMessage) : SE app_state unit :=
  fun s =>
    let (answer, v) := on_message msg (snd s) in
    let (r, c) :=
        _on_message_internal (as_client (fun _ _ => answer)) msg (fst s) in
    (r, (c, if utf8_valid (payload msg) then v else snd s)).

Definition app_event (ev : event) (s : app_state) : app_state :=
  snd (match ev with
       | Delivered (On_message msg) => dispatch msg s
       | Delivered cb => inherited (fun self => deliver self cb) s
       | Called App_start => inherited start s
       | Called App_stop => inherited stop s
       end).

Definition app_events (evs : list event) (s : app_state) : app_state :=
  fold_left (fun s' ev => app_event ev s') evs s.

(** The wait of the inherited [publish], with the events of the window
    acting on the application: [run_turn], [wait_pending] and
    [wait_for_connected] on the application. *)
Fixpoint app_turn (evs : list event) (s : app_state) : bool * app_state :=
  match evs with
  | [] => (false, s)
  | ev :: rest =>
    let s1 := app_event ev s in
    let (woken, s') := app_turn rest s1 in
    ((negb (connected_event (fst s)) && connected_event (fst s1)) || woken, s')
  end.

Fixpoint app_pending (window : list (list event)) (s : app_state)
  : bool * app_state :=
  match window with
  | [] => (false, s)
  | turn :: rest =>
    let (woken, s') := app_turn turn s in
    if woken then (true, s') else app_pending rest s'
  end.

Definition app_wait (window : list (list event)) (s : app_state)
  : bool * app_state :=
  if connected_event (fst s) then (true, s) else app_pending window s.

(** The inherited [publish]: the wait, then the rest of the method on the
    client. *)
Definition app_publish (t : str) (p : py_value) (q : option Z) (retain : bool)
           (window : list (list event)) : SE app_state unit :=
  fun s =>
    let (connected, s1) := app_wait window s in
    inherited
      (fun self =>
         if negb connected then logger ERROR Msg_publish_not_connected
         else publish_now self t p q retain)
      s1.

(** *** [toggle_light_state_async] *)

Definition toggle_light_state_async (window : list (list event))
  : SE app_state unit :=
  fun s =>
    let current_state := status_text (snd s) in
    let new_state := if String.eqb current_state "ON" then "OFF" else "ON" in
    (on_view (app_logger INFO (Msg_publishing_new_state new_state)) ;;
     app_publish COMMAND_TOPIC (PyDict [(PyStr "state", PyStr new_state)])
                 None false window) s.

(** *** [main] and [on_window_destroy] *)

(** The application as [LightControlApp(page, mqtt_config)] leaves it. *)
Definition new_app : app_state := (__init__ (as_client unused_handler), _setup_ui).


(** [await app.start()] and the first publish; [window] is what happens
    while that publish waits. *)
Definition main (window : list (list event)) : SE app_state unit :=
  inherited start ;;
  app_publish STATE_TOPIC (PyDict [(PyStr "state", PyStr "OFF")]) None true
              window.

End Application.

End LightControlApp.

(** ** Stand-ins for the libraries of the application *)
Module AppDoubles.

Import LightControlApp.

(** *** A reader for part of JSON

    It reads what [json.loads] reads, except floats, [NaN], [Infinity] and
    [\u] escapes, on which it gives up ([Beyond]). *)

Inductive scan (A : Type) : Type :=
| Got (a : A) (rest : string)
| Malformed
| Beyond.
Arguments Got {A} a rest.
Arguments Malformed {A}.
Arguments Beyond {A}.

Definition is_space (c : ascii) : bool :=
  let n := N_of_ascii c in
  ((n =? 32) || (n =? 9) || (n =? 10) || (n =? 13))%N.

Fixpoint skip_spaces (s : string) : string :=
  match s with
  | String c rest => if is_space c then skip_spaces rest else s
  | EmptyString => s
  end.

Definition is_digit (c : ascii) : bool :=
  let n := N_of_ascii c in ((48 <=? n) && (n <=? 57))%N.

Definition scan_map {A B} (f : A -> B) (r : scan A) : scan B :=
  match r with
  | Got a rest => Got (f a) rest
  | Malformed => Malformed
  | Beyond => Beyond
  end.

(** The characters of a string literal, after its opening quote. *)
Fixpoint scan_string (s : string) : scan str :=
  match s with
  | EmptyString => Malformed
  | String c rest =>
    let n := N_of_ascii c in
    if (n =? 34)%N then Got EmptyString rest
    else if (n =? 92)%N then
      match rest with
      | EmptyString => Malformed
      | String e rest' =>
        let m := N_of_ascii e in
        let escaped (x : N) := scan_map (String (ascii_of_N x)) (scan_string rest') in
        if (m =? 34)%N then escaped 34%N
        else if (m =? 92)%N then escaped 92%N
        else if (m =? 47)%N then escaped 47%N
        else if (m =? 98)%N then escaped 8%N
        else if (m =? 102)%N then escaped 12%N
        else if (m =? 110)%N then escaped 10%N
        else if (m =? 114)%N then escaped 13%N
        else if (m =? 116)%N then escaped 9%N
        else if (m =? 117)%N then Beyond
        else Malformed
      end
    else if (n <? 32)%N then Malformed
    else scan_map (String c) (scan_string rest)
  end.

(** The digits at the head of a string, as a number, and what follows. *)
Fixpoint scan_digits (acc : Z) (s : string) : Z * string :=
  match s with
  | String c rest =>
    if is_digit c
    then scan_digits (10 * acc + Z.of_N (N_of_ascii c - 48)) rest
    else (acc, s)
  | EmptyString => (acc, s)
  end.

Definition starts_fraction (s : string) : bool :=
  match s with
  | String c _ =>
    let n := N_of_ascii c in ((n =? 46) || (n =? 101) || (n =? 69))%N
  | EmptyString => false
  end.

(** An integer literal without its sign. *)
Definition scan_natural (s : string) : scan Z :=
  match s with
  | String c rest =>
    if negb (is_digit c) then Malformed
    else
      let (z, rest') :=
          if (N_of_ascii c =? 48)%N then (0, rest) else scan_digits 0 s in
      if starts_fraction rest' then Beyond else Got z rest'
  | EmptyString => Malformed
  end.

Definition drop (n : nat) (s : string) : string :=
  substring n (String.length s - n) s.

(** [d[k] = x] on the items of a dict. *)
Fixpoint dict_put (k : str) (x : json_value) (items : list (str * json_value))
  : list (str * json_value) :=
  match items with
  | [] => [(k, x)]
  | (k', x') :: rest =>
    if String.eqb k k' then (k, x) :: rest else (k', x') :: dict_put k x rest
  end.

(** The elements of an array after its first bracket or a comma. *)
Fixpoint scan_elements (value : string -> scan json_value) (n : nat)
         (s : string) : scan (list json_value) :=
  match n with
  | O => Beyond
  | S n' =>
    match value s with
    | Got v rest =>
      match skip_spaces rest with
      | String c rest' =>
        if (N_of_ascii c =? 44)%N
        then scan_map (cons v) (scan_elements value n' rest')
        else if (N_of_ascii c =? 93)%N then Got [v] rest'
        else Malformed
      | EmptyString => Malformed
      end
    | Malformed => Malformed
    | Beyond => Beyond
    end
  end.

(** The members of an object after its brace or a comma; [seen] holds the
    members read so far. *)
Fixpoint scan_members (value : string -> scan json_value) (n : nat)
         (seen : list (str * json_value)) (s : string)
  : scan (list (str * json_value)) :=
  match n with
  | O => Beyond
  | S n' =>
    match skip_spaces s with
    | String q rest =>
      if negb (N_of_ascii q =? 34)%N then Malformed
      else
        match scan_string rest with
        | Got k rest1 =>
          match skip_spaces rest1 with
          | String colon rest2 =>
            if negb (N_of_ascii colon =? 58)%N then Malformed
            else
              match value rest2 with
              | Got v rest3 =>
                match skip_spaces rest3 with
                | String c rest4 =>
                  if (N_of_ascii c =? 44)%N
                  then scan_members value n' (dict_put k v seen) rest4
                  else if (N_of_ascii c =? 125)%N
                       then Got (dict_put k v seen) rest4
                       else Malformed
                | EmptyString => Malformed
                end
              | Malformed => Malformed
              | Beyond => Beyond
              end
          | EmptyString => Malformed
          end
        | Malformed => Malformed
        | Beyond => Beyond
        end
    | EmptyString => Malformed
    end
  end.

Fixpoint scan_value (fuel : nat) (s : string) : scan json_value :=
  match fuel with
  | O => Beyond
  | S fuel' =>
    match skip_spaces s with
    | EmptyString => Malformed
    | String c rest as s' =>
      let n := N_of_ascii c in
      if (n =? 123)%N then
        match skip_spaces rest with
        | String c' rest' =>
          if (N_of_ascii c' =? 125)%N then Got (JDict []) rest'
          else scan_map JDict (scan_members (scan_value fuel') fuel' [] rest)
        | EmptyString => Malformed
        end
      else if (n =? 91)%N then
        match skip_spaces rest with
        | String c' rest' =>
          if (N_of_ascii c' =? 93)%N then Got (JList []) rest'
          else scan_map JList (scan_elements (scan_value fuel') fuel' rest)
        | EmptyString => Malformed
        end
      else if (n =? 34)%N then scan_map JStr (scan_string rest)
      else if (n =? 45)%N then
        if prefix "-Infinity" s' then Beyond
        else scan_map (fun z => JInt (- z)) (scan_natural rest)
      else if is_digit c then scan_map JInt (scan_natural s')
      else if prefix "true" s' then Got (JBool true) (drop 4 s')
      else if prefix "false" s' then Got (JBool false) (drop 5 s')
      else if prefix "null" s' then Got JNull (drop 4 s')
      else if prefix "NaN" s' || prefix "Infinity" s' then Beyond
      else Malformed
    end
  end.

Definition not_read : exn :=
  mk_exn OtherException "outside the JSON the stand-in reads".

Definition loads (text : str) : loads_outcome :=
  match scan_value (S (String.length text)) text with
  | Got v rest =>
    match skip_spaces rest with
    | EmptyString => Loaded v
    | String _ _ => JSONDecodeError
    end
  | Malformed => JSONDecodeError
  | Beyond => Loads_raised not_read
  end.

(** [str.upper] on ASCII letters; other characters are kept. *)
Definition upper_char (c : ascii) : ascii :=
  let n := N_of_ascii c in
  if ((97 <=? n) && (n <=? 122))%N then ascii_of_N (n - 32) else c.

Fixpoint upper (s : str) : str :=
  match s with
  | EmptyString => EmptyString
  | String c rest => String (upper_char c) (upper rest)
  end.

Definition python : libraries :=
  {| json_loads := loads;
     str_upper := upper;
     strftime_now := fun _ => "12:00:00";
     page_update := fun _ => Ret tt |}.

(** The demo on a reachable broker, and on one that refuses. *)
Definition light_app : application :=
  {| time_ns := 1700000000000000000;
     default_client_id := "flet_mqtt_async_demo";
     net := Doubles.paho true 0;
     lib := python |}.

Definition offline_app : application :=
  {| time_ns := 1700000000000000000;
     default_client_id := "flet_mqtt_async_demo";
     net := Doubles.paho false 0;
     lib := python |}.

(** A message on any topic with the given text as payload. *)
Definition message_with (text : string) : MQTTMessage :=
  {| topic := "any/topic"; payload := list_byte_of_string text |}.

(** The JSON text of an object with the one member ["state"]. *)
Definition state_json (value : string) : string :=
  append "{" (append (Doubles.quoted "state")
                (append ": " (append (Doubles.quoted value) "}"))).

(** The JSON text of an object whose ["state"] is the number 1. *)
Definition numeric_state_json : string :=
  append "{" (append (Doubles.quoted "state") ": 1}").

(** The demo after [start] and the broker's acknowledgement. *)
Definition connected_app : app_state :=
  app_events light_app [Called App_start; Delivered (On_connect 0)]
             (new_app light_app).

End AppDoubles.

(** * Properties *)

Ltac unfold_monad :=
  unfold bind, ret, raise, try_catch, gets, modify, logger,
         connected_set, connected_clear.

Ltac run := unfold_monad; cbn.

Section ForEach.

Context {A : Type} (body : A -> M unit).

Lemma for_each_nil st : for_each [] body st = (Ret tt, st).
Proof. reflexivity. Qed.

Lemma for_each_cons x xs st :
  for_each (x :: xs) body st =
  match body x st with
  | (Ret _, st') => for_each xs body st'
  | (Raise e, st') => (Raise e, st')
  end.
Proof. reflexivity. Qed.

(** What every iteration preserves, returning or raising, the loop
    preserves. *)
Lemma for_each_preserves (P : client_state -> Prop) :
  (forall x st, P st -> P (snd (body x st))) ->
  forall l st, P st -> P (snd (for_each l body st)).
Proof.
  intros Hbody l; induction l as [| x xs IH]; intros st HP.
  - exact HP.
  - rewrite for_each_cons.
    specialize (Hbody x st HP).
    destruct (body x st) as [[[] | e] st']; cbn in Hbody.
    + now apply IH.
    + exact Hbody.
Qed.

End ForEach.

Section Lifecycle.

Variable self : FletMQTTClient.

(** *** The subscribe loop of [_on_connect] *)

Lemma subscribe_and_log_frame t st :
  let st' := snd (subscribe_and_log self t st) in
  connected_event st' = connected_event st /\
  _is_running st' = _is_running st /\
  handled st' = handled st /\
  scheduled st' = scheduled st /\
  publish_calls (calls st') = publish_calls (calls st).
Proof.
  unfold subscribe_and_log, client_subscribe; run.
  destruct (paho_subscribe (world self) (calls st) t (qos (config self))) as [[] | e]; cbn;
    unfold publish_calls; rewrite filter_app; cbn; rewrite app_nil_r;
    repeat split.
Qed.

Lemma subscribe_loop_frame topics st :
  let st' := snd (for_each topics (subscribe_and_log self) st) in
  connected_event st' = connected_event st /\
  _is_running st' = _is_running st /\
  handled st' = handled st /\
  scheduled st' = scheduled st /\
  publish_calls (calls st') = publish_calls (calls st).
Proof.
  cbn zeta.
  apply (for_each_preserves (subscribe_and_log self)
           (fun s => connected_event s = connected_event st /\
                     _is_running s = _is_running st /\
                     handled s = handled st /\
                     scheduled s = scheduled st /\
                     publish_calls (calls s) = publish_calls (calls st))).
  - intros t s (H1 & H2 & H3 & H4 & H5).
    destruct (subscribe_and_log_frame t s) as (F1 & F2 & F3 & F4 & F5).
    repeat split; congruence.
  - repeat split.
Qed.

(** When every call returns, the loop issues one request per topic. *)
Lemma subscribe_loop_all topics : forall st,
  (forall done t rest,
      topics = done ++ t :: rest ->
      paho_subscribe (world self)
        (calls st ++ map (fun t' => Call_subscribe t' (qos (config self))) done)
        t (qos (config self)) = Ret tt) ->
  exists st',
    for_each topics (subscribe_and_log self) st = (Ret tt, st') /\
    calls st' =
      calls st ++ map (fun t => Call_subscribe t (qos (config self))) topics /\
    log st' = log st ++ map (fun t => (INFO, Msg_subscribed t)) topics.
Proof.
  induction topics as [| t ts IH]; intros st Hret.
  - exists st. cbn. now rewrite !app_nil_r.
  - rewrite for_each_cons.
    unfold subscribe_and_log at 1, client_subscribe; run.
    pose proof (Hret [] t ts eq_refl) as H0. cbn in H0.
    rewrite app_nil_r in H0. rewrite H0.
    set (st1 := with_log (INFO, Msg_subscribed t)
                  (with_call (Call_subscribe t (qos (config self))) st)).
    destruct (IH st1) as (st' & Hrun & Hcalls & Hlog).
    + intros done t' rest Heq. cbn.
      rewrite <- app_assoc. cbn.
      apply (Hret (t :: done) t' rest). now rewrite Heq.
    + exists st'. split; [exact Hrun |].
      rewrite Hcalls, Hlog. cbn. rewrite <- !app_assoc. now cbn.
Qed.

(** *** What each operation does to the flags and to the send calls *)

Ltac frame :=
  cbn; unfold publish_calls; rewrite ?filter_app; cbn; rewrite ?app_nil_r;
  repeat split; auto.

Lemma on_connect_accepted_sets st :
  connected_event (snd (_on_connect self 0 st)) = true.
Proof.
  unfold _on_connect; run.
  destruct (subscribe_topics (config self)) as [| t ts] eqn:Htopics; [reflexivity |].
  destruct (subscribe_loop_frame (t :: ts)
              (with_connected true
                 (with_log (INFO, Msg_connected (broker_host (config self))) st)))
    as (H & _).
  exact H.
Qed.

Lemma on_connect_refused rc st :
  rc <> 0 ->
  _on_connect self rc st =
  (Ret tt, with_connected false (with_log (ERROR, Msg_connect_failed rc) st)).
Proof.
  intros Hrc. unfold _on_connect.
  destruct (Z.eqb_spec rc 0) as [-> | _]; [contradiction | reflexivity].
Qed.

Lemma on_connect_frame rc st :
  let st' := snd (_on_connect self rc st) in
  _is_running st' = _is_running st /\
  handled st' = handled st /\
  scheduled st' = scheduled st /\
  publish_calls (calls st') = publish_calls (calls st).
Proof.
  unfold _on_connect.
  destruct (rc =? 0); run; [| repeat split].
  destruct (subscribe_topics (config self)) as [| t ts]; [repeat split |].
  destruct (subscribe_loop_frame (t :: ts)
              (with_connected true
                 (with_log (INFO, Msg_connected (broker_host (config self))) st)))
    as (_ & H2 & H3 & H4 & H5).
  repeat split; assumption.
Qed.

Lemma on_disconnect_clears rc st :
  exists st',
    _on_disconnect rc st = (Ret tt, st') /\
    connected_event st' = false /\
    _is_running st' = _is_running st /\
    calls st' = calls st /\
    handled st' = handled st /\
    scheduled st' = scheduled st.
Proof.
  unfold _on_disconnect; run.
  destruct (rc =? 0); cbn; eexists; repeat split.
Qed.

Lemma dispatch_frame msg st :
  let st' := snd (_on_message_internal self msg st) in
  connected_event st' = connected_event st /\
  _is_running st' = _is_running st /\
  calls st' = calls st /\
  scheduled st' = scheduled st.
Proof.
  unfold _on_message_internal, call_handler, on_message; run.
  destruct (decode (payload msg)) as [text | e]; cbn; [| repeat split].
  destruct (on_message_handler self) as [h |]; cbn; [| repeat split].
  destruct (h (handled st) msg) as [[] | e]; cbn; [repeat split |].
  destruct (is_Exception e); repeat split.
Qed.

Lemma start_frame st :
  let st' := snd (start self st) in
  (connected_event st = false -> connected_event st' = false) /\
  handled st' = handled st /\
  publish_calls (calls st') = publish_calls (calls st).
Proof.
  unfold start, client_connect, await_run_task; run.
  destruct (_is_running st); [frame |]; cbn.
  destruct (paho_connect (world self) (calls st) (broker_host (config self))
              (broker_port (config self)) (keepalive (config self))) as [[] | e]; cbn.
  - destruct (page_run_task (world self) (scheduled st)) as [[] | e]; cbn.
    + destruct (await_task_handle (world self) (scheduled st)) as [[] | e]; cbn;
        [frame |].
      destruct (is_OSError e); [frame |]. destruct (is_Exception e); frame.
    + destruct (is_OSError e); [frame |]. destruct (is_Exception e); frame.
  - destruct (is_OSError e); [frame |]. destruct (is_Exception e); frame.
Qed.

Lemma stop_frame st :
  let st' := snd (stop self st) in
  (connected_event st = false -> connected_event st' = false) /\
  handled st' = handled st /\
  scheduled st' = scheduled st /\
  publish_calls (calls st') = publish_calls (calls st).
Proof.
  unfold stop, client_disconnect; run.
  destruct (_is_running st); cbn; [| frame].
  destruct (paho_disconnect (world self) (calls st)) as [[] | e]; frame.
Qed.

Lemma events_cons ev evs st :
  run_events self (ev :: evs) st = run_events self evs (run_event self ev st).
Proof. reflexivity. Qed.

(** No event calls the send primitive. *)
Lemma event_sends_nothing ev st :
  publish_calls (calls (run_event self ev st)) = publish_calls (calls st).
Proof.
  unfold run_event. destruct ev as [[rc | msg | rc] | []]; cbn [deliver].
  - apply on_connect_frame.
  - destruct (dispatch_frame msg st) as (_ & _ & H & _). now rewrite H.
  - destruct (on_disconnect_clears rc st) as (st' & -> & _ & _ & H & _).
    cbn. now rewrite H.
  - apply start_frame.
  - apply stop_frame.
Qed.

Lemma events_send_nothing evs : forall st,
  publish_calls (calls (run_events self evs st)) = publish_calls (calls st).
Proof.
  induction evs as [| ev evs IH]; intros st; [reflexivity |].
  rewrite events_cons.
  rewrite IH. apply event_sends_nothing.
Qed.

(** Only an accepted connection sets the flag. *)
Lemma event_sets_only_on_accept ev st :
  connected_event st = false ->
  connected_event (run_event self ev st) = true ->
  ev = Delivered (On_connect 0).
Proof.
  intros Hclear Hset. unfold run_event in Hset.
  destruct ev as [[rc | msg | rc] | []]; cbn [deliver] in Hset.
  - destruct (Z.eq_dec rc 0) as [-> | Hrc]; [reflexivity |].
    rewrite (on_connect_refused rc st Hrc) in Hset. discriminate.
  - destruct (dispatch_frame msg st) as (H & _). congruence.
  - destruct (on_disconnect_clears rc st) as (st' & Hrun & H & _).
    rewrite Hrun in Hset. cbn in Hset. congruence.
  - destruct (start_frame st) as (H & _). specialize (H Hclear). congruence.
  - destruct (stop_frame st) as (H & _). specialize (H Hclear). congruence.
Qed.

Lemma events_app evs1 evs2 st :
  run_events self (evs1 ++ evs2) st =
  run_events self evs2
    (run_events self evs1 st).
Proof. unfold run_events. apply fold_left_app. Qed.

(** [start()] on a client that is not running executes [clear()], and
    nothing in it sets the flag. *)
Lemma start_clears st :
  _is_running st = false -> connected_event (snd (start self st)) = false.
Proof.
  intros Hstopped. unfold start, client_connect, await_run_task; run.
  rewrite Hstopped. cbn.
  destruct (paho_connect (world self) (calls st) (broker_host (config self))
              (broker_port (config self)) (keepalive (config self))) as [[] | e]; cbn.
  - destruct (page_run_task (world self) (scheduled st)) as [[] | e]; cbn.
    + destruct (await_task_handle (world self) (scheduled st)) as [[] | e]; cbn;
        [reflexivity |].
      destruct (is_OSError e); [reflexivity |].
      destruct (is_Exception e); reflexivity.
    + destruct (is_OSError e); [reflexivity |].
      destruct (is_Exception e); reflexivity.
  - destruct (is_OSError e); [reflexivity |].
    destruct (is_Exception e); reflexivity.
Qed.

Lemma start_when_running st :
  _is_running st = true ->
  start self st = (Ret tt, with_log (WARNING, Msg_already_running) st).
Proof. intros Hrunning. unfold start; run. now rewrite Hrunning. Qed.

Lemma stop_when_stopped st :
  _is_running st = false -> stop self st = (Ret tt, st).
Proof. intros Hstopped. unfold stop; run. now rewrite Hstopped. Qed.

(** [stop()] on a running client: the outcome is that of [disconnect], and
    [clear()] is reached only when [disconnect] has returned. *)
Lemma stop_when_running st :
  _is_running st = true ->
  fst (stop self st) = paho_disconnect (world self) (calls st) /\
  connected_event (snd (stop self st)) =
    match paho_disconnect (world self) (calls st) with
    | Ret _ => false
    | Raise _ => connected_event st
    end /\
  log (snd (stop self st)) = log st ++ [(INFO, Msg_stopping)].
Proof.
  intros Hrunning. unfold stop, client_disconnect; run. rewrite Hrunning. cbn.
  destruct (paho_disconnect (world self) (calls st)) as [[] | e];
    repeat split.
Qed.

(** An event that executes [clear()] leaves the flag clear. *)
Lemma event_clears ev st :
  clears_connected self ev st = true ->
  connected_event (run_event self ev st) = false.
Proof.
  unfold run_event.
  destruct ev as [[rc | msg | rc] | []]; cbn [clears_connected deliver];
    try discriminate; intros Hclears.
  - destruct (Z.eqb_spec rc 0) as [-> | Hrc]; [discriminate |].
    now rewrite (on_connect_refused rc st Hrc).
  - destruct (on_disconnect_clears rc st) as (st' & Hrun & Hc & _).
    now rewrite Hrun.
  - apply start_clears. now destruct (_is_running st).
  - apply andb_true_iff in Hclears. destruct Hclears as [Hrunning Hreturns].
    destruct (stop_when_running st Hrunning) as (_ & -> & _).
    now destruct (paho_disconnect (world self) (calls st)).
Qed.

(** Any other event leaves a set flag set. *)
Lemma event_keeps ev st :
  clears_connected self ev st = false ->
  connected_event st = true ->
  connected_event (run_event self ev st) = true.
Proof.
  unfold run_event.
  destruct ev as [[rc | msg | rc] | []]; cbn [clears_connected deliver];
    try discriminate; intros Hkeeps Hset.
  - destruct (Z.eqb_spec rc 0) as [-> | Hrc]; [| discriminate].
    apply on_connect_accepted_sets.
  - destruct (dispatch_frame msg st) as (H & _). congruence.
  - rewrite start_when_running; [exact Hset |].
    now destruct (_is_running st).
  - destruct (_is_running st) eqn:Hrunning.
    + destruct (stop_when_running st Hrunning) as (_ & -> & _).
      cbn in Hkeeps.
      now destruct (paho_disconnect (world self) (calls st)).
    + now rewrite (stop_when_stopped st Hrunning).
Qed.

Lemma none_clears_app evs1 : forall evs2 st,
  none_clears self (evs1 ++ evs2) st =
  none_clears self evs1 st && none_clears self evs2 (run_events self evs1 st).
Proof.
  induction evs1 as [| ev evs1 IH]; intros evs2 st; [reflexivity |].
  cbn [app none_clears]. rewrite events_cons, IH. now rewrite andb_assoc.
Qed.

(** When the flag is set at the end of a run that started with the flag
    clear, the run holds an accepted connection after which no event has
    cleared the flag. *)
Lemma connected_since_accept evs : forall st,
  connected_event st = false ->
  connected_event (run_events self evs st) = true ->
  exists before after,
    evs = before ++ Delivered (On_connect 0) :: after /\
    none_clears self after
      (run_events self (before ++ [Delivered (On_connect 0)]) st) = true.
Proof.
  induction evs as [| ev evs IH] using rev_ind; intros st Hclear Hset.
  - cbn in Hset. congruence.
  - rewrite events_app in Hset. cbn in Hset.
    destruct (connected_event (run_events self evs st)) eqn:Hprev.
    + destruct (IH st Hclear Hprev) as (before & after & -> & Hafter).
      exists before, (after ++ [ev]). split.
      * now rewrite <- app_assoc.
      * rewrite none_clears_app, Hafter. cbn. rewrite andb_true_r.
        rewrite <- events_app, <- app_assoc. cbn [app].
        destruct (clears_connected self ev _) eqn:Hev; [| reflexivity].
        rewrite (event_clears ev _ Hev) in Hset. discriminate.
    + exists evs, []. split; [| reflexivity].
      now rewrite (event_sets_only_on_accept ev _ Hprev Hset).
Qed.

(** Conversely, the flag stays set as long as no event clears it. *)
Lemma connected_while_none_clears evs : forall st,
  connected_event st = true ->
  none_clears self evs st = true ->
  connected_event (run_events self evs st) = true.
Proof.
  induction evs as [| ev evs IH]; intros st Hset Hnone; [exact Hset |].
  cbn [none_clears] in Hnone. apply andb_true_iff in Hnone.
  destruct Hnone as [Hev Hrest]. rewrite events_cons.
  apply IH; [| exact Hrest].
  apply event_keeps; [| exact Hset]. now destruct (clears_connected self ev st).
Qed.

(** *** The wait on the connected condition *)

Lemma run_turn_state evs : forall st,
  snd (run_turn self evs st) = run_events self evs st.
Proof.
  induction evs as [| ev evs IH]; intros st; [reflexivity |].
  cbn [run_turn]. rewrite events_cons, <- IH.
  now destruct (run_turn self evs (run_event self ev st)).
Qed.

(** A turn that has not woken the waiter has left the flag clear all
    along. *)
Lemma run_turn_quiet evs : forall st,
  connected_event st = false ->
  fst (run_turn self evs st) = false ->
  forall k, connected_event (run_events self (firstn k evs) st) = false.
Proof.
  induction evs as [| ev evs IH]; intros st Hclear Hquiet k.
  - now rewrite firstn_nil.
  - destruct k as [| k]; [exact Hclear |].
    cbn [firstn]. rewrite events_cons.
    cbn [run_turn] in Hquiet. rewrite Hclear in Hquiet.
    destruct (run_turn self evs (run_event self ev st)) as [woken st'] eqn:Hrest.
    cbn in Hquiet. apply orb_false_iff in Hquiet. destruct Hquiet as [Hev ->].
    apply IH; [exact Hev | now rewrite Hrest].
Qed.

(** A turn that has woken the waiter has set the flag at some point. *)
Lemma run_turn_woken evs : forall st,
  fst (run_turn self evs st) = true ->
  exists k,
    (k <= List.length evs)%nat /\
    connected_event (run_events self (firstn k evs) st) = true.
Proof.
  induction evs as [| ev evs IH]; intros st Hwoken; [discriminate |].
  cbn [run_turn] in Hwoken.
  destruct (run_turn self evs (run_event self ev st)) as [woken st'] eqn:Hrest.
  cbn in Hwoken.
  destruct (connected_event (run_event self ev st)) eqn:Hev.
  - exists 1%nat. cbn. split; [lia | exact Hev].
  - rewrite andb_false_r in Hwoken. cbn in Hwoken. subst woken.
    destruct (IH (run_event self ev st)) as (k & Hk & Hset);
      [now rewrite Hrest |].
    exists (S k). cbn [firstn List.length]. rewrite events_cons.
    split; [lia | exact Hset].
Qed.

Lemma firstn_app_cases k (turn rest : list event) :
  firstn k (turn ++ rest) =
  if (k <=? List.length turn)%nat then firstn k turn
  else turn ++ firstn (k - List.length turn) rest.
Proof.
  rewrite firstn_app.
  destruct (Nat.leb_spec k (List.length turn)) as [Hle | Hlt].
  - replace (k - List.length turn)%nat with 0%nat by lia.
    cbn. apply app_nil_r.
  - now rewrite firstn_all2 by lia.
Qed.

(** The suspended wait ends after some number of whole turns.  It ends with
    [false] only when the window is used up and the flag was clear all
    along, and with [true] only when some event of the window has set the
    flag. *)
Lemma wait_pending_spec window : forall st,
  connected_event st = false ->
  exists j,
    snd (wait_pending self window st)
    = run_events self (List.concat (firstn j window)) st /\
    (fst (wait_pending self window st) = false ->
     j = List.length window /\
     forall k,
       connected_event (run_events self (firstn k (List.concat window)) st)
       = false) /\
    (fst (wait_pending self window st) = true ->
     exists k,
       connected_event (run_events self (firstn k (List.concat window)) st)
       = true).
Proof.
  induction window as [| turn rest IH]; intros st Hclear.
  - exists 0%nat. cbn. split; [reflexivity |]. split; [| discriminate].
    intros _. split; [reflexivity |]. intros k. now rewrite firstn_nil.
  - cbn [wait_pending].
    pose proof (run_turn_state turn st) as Hstate.
    pose proof (run_turn_quiet turn st Hclear) as Hquiet.
    pose proof (run_turn_woken turn st) as Hwoken.
    destruct (run_turn self turn st) as [[] st']; cbn [fst snd] in *.
    + exists 1%nat. cbn [firstn List.concat]. rewrite app_nil_r.
      split; [exact Hstate |]. split; [discriminate |].
      intros _. destruct (Hwoken eq_refl) as (k & Hk & Hset).
      exists k. rewrite firstn_app_cases.
      apply Nat.leb_le in Hk. now rewrite Hk.
    + specialize (Hquiet eq_refl). subst st'.
      assert (Hclear' : connected_event (run_events self turn st) = false).
      { specialize (Hquiet (List.length turn)).
        now rewrite firstn_all in Hquiet. }
      destruct (IH _ Hclear') as (j & Hj & Hfalse & Htrue).
      exists (S j). cbn [firstn List.concat]. rewrite events_app.
      split; [exact Hj |]. split.
      * intros Hb. destruct (Hfalse Hb) as (-> & Hnever).
        split; [reflexivity |]. intros k. rewrite firstn_app_cases.
        destruct (k <=? List.length turn)%nat; [apply Hquiet |].
        rewrite events_app. apply Hnever.
      * intros Hb. destruct (Htrue Hb) as (k & Hset).
        exists (List.length turn + k)%nat. rewrite firstn_app_cases.
        destruct (Nat.leb_spec (List.length turn + k) (List.length turn))
          as [Hle | Hlt].
        -- replace k with 0%nat in Hset by lia. cbn in Hset.
           replace (List.length turn + k)%nat with (List.length turn) by lia.
           now rewrite firstn_all.
        -- rewrite events_app.
           now replace (List.length turn + k - List.length turn)%nat with k
             by lia.
Qed.


Lemma wait_times_out window st :
  (forall k,
      connected_event (run_events self (firstn k (List.concat window)) st)
      = false) ->
  wait_for_connected self window st
  = (Ret false, run_events self (List.concat window) st).
Proof.
  intros Hnever. unfold wait_for_connected.
  pose proof (Hnever 0%nat) as Hclear. cbn in Hclear. rewrite Hclear.
  destruct (wait_pending_spec window st Hclear) as (j & Hj & Hfalse & Htrue).
  destruct (wait_pending self window st) as [[] st']; cbn [fst snd] in *.
  - destruct (Htrue eq_refl) as (k & Hset). rewrite Hnever in Hset.
    discriminate.
  - destruct (Hfalse eq_refl) as (-> & _). rewrite firstn_all in Hj.
    now subst st'.
Qed.

Lemma wait_returns window st :
  (exists k,
      connected_event (run_events self (firstn k (List.concat window)) st)
      = true) ->
  exists st_w,
    wait_for_connected self window st = (Ret true, st_w) /\
    publish_calls (calls st_w) = publish_calls (calls st).
Proof.
  intros [k Hk]. unfold wait_for_connected.
  destruct (connected_event st) eqn:Hclear.
  - now exists st.
  - destruct (wait_pending_spec window st Hclear) as (j & Hj & Hfalse & _).
    destruct (wait_pending self window st) as [[] st']; cbn [fst snd] in *.
    + exists st'. split; [reflexivity |]. subst st'.
      apply events_send_nothing.
    + destruct (Hfalse eq_refl) as (_ & Hnever). rewrite Hnever in Hk.
      discriminate.
Qed.

(** *** [publish], case by case *)

Lemma serialize_payload_spec p st :
  serialize_payload self p st =
  (if is_dict_or_list p then
     match json_dumps (world self) p with
     | Ret s => Ret (PyStr s)
     | Raise e => Raise e
     end
   else Ret p, st).
Proof.
  unfold serialize_payload, dumps; run.
  destruct (is_dict_or_list p); [| reflexivity].
  destruct (json_dumps (world self) p); reflexivity.
Qed.

Lemma publish_timed_out t p q retain window st st_w :
  wait_for_connected self window st = (Ret false, st_w) ->
  publish self t p q retain window st =
  (Ret tt, with_log (ERROR, Msg_publish_not_connected) st_w).
Proof. intros Hw. unfold publish; run. now rewrite Hw. Qed.

Lemma publish_not_serializable t p q retain window st st_w e :
  wait_for_connected self window st = (Ret true, st_w) ->
  is_dict_or_list p = true ->
  json_dumps (world self) p = Raise e ->
  publish self t p q retain window st = (Raise e, st_w).
Proof.
  intros Hw Hp He. unfold publish, publish_now; run. rewrite Hw. cbn.
  rewrite serialize_payload_spec. now rewrite Hp, He.
Qed.

Lemma publish_sent t p p' q retain window st st_w :
  wait_for_connected self window st = (Ret true, st_w) ->
  fst (serialize_payload self p st_w) = Ret p' ->
  let qos_level := match q with Some q' => q' | None => qos (config self) end in
  let st_c := with_call (Call_publish t p' qos_level retain) st_w in
  publish self t p q retain window st =
  match paho_publish (world self) (calls st_w) t p' qos_level retain with
  | Ret rc =>
    (Ret tt,
     with_log (if rc =? MQTT_ERR_SUCCESS then (INFO, Msg_queued t p')
               else (ERROR, Msg_queue_failed t)) st_c)
  | Raise e => (Raise e, st_c)
  end.
Proof.
  intros Hw Hp. unfold publish, publish_now, client_publish; run.
  rewrite Hw. cbn.
  rewrite serialize_payload_spec in *. cbn in Hp. rewrite Hp.
  destruct (paho_publish (world self) (calls st_w) t p' _ retain) as [rc | e];
    [| reflexivity].
  destruct (rc =? MQTT_ERR_SUCCESS); reflexivity.
Qed.

(** A publish that has got through the wait and the serialization makes
    one more send call. *)
Lemma publish_sent_calls t p p' q retain window st st_w :
  wait_for_connected self window st = (Ret true, st_w) ->
  publish_calls (calls st_w) = publish_calls (calls st) ->
  fst (serialize_payload self p st_w) = Ret p' ->
  publish_calls (calls (snd (publish self t p q retain window st))) =
  publish_calls (calls st)
  ++ [Call_publish t p'
        (match q with Some q' => q' | None => qos (config self) end) retain].
Proof.
  intros Hw Hsame Hp.
  rewrite (publish_sent t p p' q retain window st st_w Hw Hp).
  destruct (paho_publish (world self) (calls st_w) t p' _ retain) as [rc | e]; cbn;
    unfold publish_calls; rewrite filter_app; cbn;
    fold (publish_calls (calls st_w)); now rewrite Hsame.
Qed.

(** *** The subscribe loop when a call fails *)

Lemma subscribe_loop_stops done : forall topics t rest e st,
  topics = done ++ t :: rest ->
  (forall before t' after,
      done = before ++ t' :: after ->
      paho_subscribe (world self)
        (calls st ++ map (fun x => Call_subscribe x (qos (config self))) before)
        t' (qos (config self)) = Ret tt) ->
  paho_subscribe (world self)
    (calls st ++ map (fun x => Call_subscribe x (qos (config self))) done)
    t (qos (config self)) = Raise e ->
  exists st',
    for_each topics (subscribe_and_log self) st = (Raise e, st') /\
    calls st' =
      calls st
      ++ map (fun x => Call_subscribe x (qos (config self))) (done ++ [t]) /\
    log st' = log st ++ map (fun x => (INFO, Msg_subscribed x)) done.
Proof.
  induction done as [| d done IH]; intros topics t rest e st -> Hreturn Hraise.
  - cbn [app map] in *. rewrite app_nil_r in Hraise.
    rewrite for_each_cons.
    unfold subscribe_and_log at 1, client_subscribe; run.
    rewrite Hraise. eexists. split; [reflexivity |]. cbn.
    now rewrite app_nil_r.
  - cbn [app]. rewrite for_each_cons.
    unfold subscribe_and_log at 1, client_subscribe; run.
    pose proof (Hreturn [] d done eq_refl) as Hfirst. cbn in Hfirst.
    rewrite app_nil_r in Hfirst. rewrite Hfirst.
    set (st1 := with_log (INFO, Msg_subscribed d)
                  (with_call (Call_subscribe d (qos (config self))) st)).
    destruct (IH (done ++ t :: rest) t rest e st1 eq_refl)
      as (st' & Hrun & Hcalls & Hlog).
    + intros before t' after Hdone. cbn. rewrite <- app_assoc. cbn.
      apply (Hreturn (d :: before) t' after). now rewrite Hdone.
    + cbn. rewrite <- app_assoc. exact Hraise.
    + exists st'. split; [exact Hrun |].
      rewrite Hcalls, Hlog. cbn. rewrite <- !app_assoc. split; reflexivity.
Qed.

(** Whatever the calls answer, the requests made are those for the first
    topics of the list, in order. *)
Lemma subscribe_loop_prefix topics : forall st,
  exists k,
    (k <= List.length topics)%nat /\
    calls (snd (for_each topics (subscribe_and_log self) st)) =
    calls st
    ++ map (fun t => Call_subscribe t (qos (config self))) (firstn k topics).
Proof.
  induction topics as [| t ts IH]; intros st.
  - exists 0%nat. cbn. split; [lia | now rewrite app_nil_r].
  - rewrite for_each_cons.
    unfold subscribe_and_log at 1, client_subscribe; run.
    destruct (paho_subscribe (world self) (calls st) t (qos (config self)))
      as [[] | e].
    + destruct (IH (with_log (INFO, Msg_subscribed t)
                      (with_call (Call_subscribe t (qos (config self))) st)))
        as (k & Hle & Hk).
      exists (S k). cbn in *. rewrite Hk. split; [lia |].
      now rewrite <- app_assoc.
    + exists 1%nat. cbn. split; [lia | reflexivity].
Qed.

(** *** Connection lifecycle *)

(** C3, as the code has it.  A connect acknowledgement with the success
    code requests the configured topics in list order, each at the default
    QoS of the configuration, and stops at the first request that raises.
    When every call returns, as paho's does for a topic filter and a QoS
    level that are valid, there is one call per topic: N calls for N topics
    and none for an empty list, and the callback returns.  When the call
    for a topic raises, the exception leaves the callback, the requests made
    are those up to and including that topic, and the later topics are never
    requested.  In every case the flag is set and the requests made are
    those for the first k topics, for some k up to N. *)
Theorem connect_accepted_subscribes_in_order st :
  ((forall done t rest,
       subscribe_topics (config self) = done ++ t :: rest ->
       paho_subscribe (world self)
         (calls st ++ map (fun t' => Call_subscribe t' (qos (config self))) done)
         t (qos (config self)) = Ret tt) ->
   exists st',
     _on_connect self 0 st = (Ret tt, st') /\
     connected_event st' = true /\
     calls st' =
       calls st
       ++ map (fun t => Call_subscribe t (qos (config self)))
              (subscribe_topics (config self)) /\
     List.length (calls st') =
       (List.length (calls st)
        + List.length (subscribe_topics (config self)))%nat /\
     (subscribe_topics (config self) = [] -> calls st' = calls st)) /\
  (forall done t rest e,
      subscribe_topics (config self) = done ++ t :: rest ->
      (forall before t' after,
          done = before ++ t' :: after ->
          paho_subscribe (world self)
            (calls st
             ++ map (fun x => Call_subscribe x (qos (config self))) before)
            t' (qos (config self)) = Ret tt) ->
      paho_subscribe (world self)
        (calls st ++ map (fun x => Call_subscribe x (qos (config self))) done)
        t (qos (config self)) = Raise e ->
      exists st',
        _on_connect self 0 st = (Raise e, st') /\
        connected_event st' = true /\
        calls st' =
          calls st
          ++ map (fun x => Call_subscribe x (qos (config self))) (done ++ [t]) /\
        List.length (calls st') =
          (List.length (calls st) + List.length done + 1)%nat) /\
  connected_event (snd (_on_connect self 0 st)) = true /\
  exists k,
    (k <= List.length (subscribe_topics (config self)))%nat /\
    calls (snd (_on_connect self 0 st)) =
    calls st
    ++ map (fun t => Call_subscribe t (qos (config self)))
           (firstn k (subscribe_topics (config self))).
Proof.
  set (st0 := with_connected true
                (with_log (INFO, Msg_connected (broker_host (config self))) st)).
  assert (Hloop : _on_connect self 0 st =
                  for_each (subscribe_topics (config self))
                           (subscribe_and_log self) st0).
  { unfold _on_connect; run. fold st0.
    now destruct (subscribe_topics (config self)). }
  destruct (subscribe_loop_frame (subscribe_topics (config self)) st0)
    as (Hset & _).
  cbn zeta in Hset. rewrite <- Hloop in Hset.
  change (connected_event st0) with true in Hset.
  split; [| split; [| split; [exact Hset |]]].
  - intros Hret.
    destruct (subscribe_loop_all (subscribe_topics (config self)) st0 Hret)
      as (st' & Hrun & Hcalls & _).
    rewrite <- Hloop in Hrun. rewrite Hrun in Hset. cbn in Hset, Hcalls.
    exists st'. split; [exact Hrun |].
    split; [exact Hset |]. split; [exact Hcalls |]. split.
    + rewrite Hcalls, length_app, length_map. reflexivity.
    + intros Hnil. rewrite Hcalls, Hnil. cbn. apply app_nil_r.
  - intros done t rest e Htopics Hreturn Hraise.
    destruct (subscribe_loop_stops done (subscribe_topics (config self)) t rest e
                st0 Htopics Hreturn Hraise) as (st' & Hrun & Hcalls & _).
    rewrite <- Hloop in Hrun. rewrite Hrun in Hset. cbn in Hset, Hcalls.
    exists st'. split; [exact Hrun |].
    split; [exact Hset |]. split; [exact Hcalls |].
    rewrite Hcalls, !length_app, length_map, length_app. cbn. lia.
  - destruct (subscribe_loop_prefix (subscribe_topics (config self)) st0)
      as (k & Hle & Hk).
    exists k. split; [exact Hle |]. now rewrite Hloop.
Qed.

(** C2, as the code has it.  The connected condition is set by a connect
    acknowledgement with rc = 0 and by nothing else.  It is cleared by an
    acknowledgement with another code, by a disconnect event whatever its
    code, by [start()] on a client that is not running, and by [stop()] on a
    running client once the protocol-level disconnect has returned: when
    [disconnect] raises, [stop()] raises with it and leaves the condition as
    it was, and on a client that is not running [stop()] does nothing.
    [publish] itself leaves the condition as it is.  So, in a run that
    began with the condition false, it is true at the end exactly when the
    run holds an accepted connection after which no event has cleared
    it. *)
Theorem connected_only_between_accept_and_disconnect :
  (forall st, connected_event (snd (_on_connect self 0 st)) = true) /\
  (forall rc st,
      rc <> 0 ->
      exists st', _on_connect self rc st = (Ret tt, st') /\
                  connected_event st' = false) /\
  (forall rc st,
      exists st', _on_disconnect rc st = (Ret tt, st') /\
                  connected_event st' = false) /\
  (forall st,
      _is_running st = true ->
      fst (stop self st) = paho_disconnect (world self) (calls st) /\
      connected_event (snd (stop self st)) =
        match paho_disconnect (world self) (calls st) with
        | Ret _ => false
        | Raise _ => connected_event st
        end) /\
  (forall st, _is_running st = false -> stop self st = (Ret tt, st)) /\
  (forall st,
      _is_running st = false ->
      connected_event (snd (start self st)) = false) /\
  (forall st,
      _is_running st = true ->
      connected_event (snd (start self st)) = connected_event st) /\
  (forall ev st,
      connected_event st = false ->
      connected_event (run_event self ev st) = true ->
      ev = Delivered (On_connect 0)) /\
  (forall ev st,
      connected_event st = true ->
      connected_event (run_event self ev st)
      = negb (clears_connected self ev st)) /\
  (forall t p q retain st,
      connected_event (snd (publish self t p q retain [] st))
      = connected_event st) /\
  (forall evs st,
      connected_event st = false ->
      (connected_event (run_events self evs st) = true <->
       exists before after,
         evs = before ++ Delivered (On_connect 0) :: after /\
         none_clears self after
           (run_events self (before ++ [Delivered (On_connect 0)]) st)
         = true)).
Proof.
  split; [exact on_connect_accepted_sets |].
  split.
  { intros rc st Hrc. rewrite (on_connect_refused rc st Hrc).
    eexists; split; reflexivity. }
  split.
  { intros rc st.
    destruct (on_disconnect_clears rc st) as (st' & Hrun & Hc & _).
    now exists st'. }
  split.
  { intros st Hrunning.
    destruct (stop_when_running st Hrunning) as (Hout & Hflag & _).
    now split. }
  split; [exact stop_when_stopped |].
  split; [exact start_clears |].
  split; [intros st Hrunning; now rewrite start_when_running |].
  split; [exact event_sets_only_on_accept |].
  split.
  { intros ev st Hset.
    destruct (clears_connected self ev st) eqn:Hev; cbn.
    - now apply event_clears.
    - now apply event_keeps. }
  split.
  { intros t p q retain st.
    destruct (connected_event st) eqn:Hc.
    - assert (Hw : wait_for_connected self [] st = (Ret true, st))
        by (unfold wait_for_connected; now rewrite Hc).
      destruct (serialize_payload self p st) as [[p' | e] s'] eqn:Hser.
      + rewrite (publish_sent t p p' q retain [] st st Hw)
          by now rewrite Hser.
        destruct (paho_publish (world self) (calls st) t p' _ retain)
          as [rc | e]; [destruct (rc =? MQTT_ERR_SUCCESS) |]; exact Hc.
      + rewrite serialize_payload_spec in Hser.
        destruct (is_dict_or_list p) eqn:Hp; [| discriminate].
        destruct (json_dumps (world self) p) as [s | e0] eqn:Hd;
          [discriminate |].
        now rewrite (publish_not_serializable t p q retain [] st st e0 Hw Hp Hd).
    - assert (Hw : wait_for_connected self [] st = (Ret false, st))
        by (unfold wait_for_connected; now rewrite Hc).
      now rewrite (publish_timed_out t p q retain [] st st Hw). }
  intros evs st Hclear. split.
  - now apply connected_since_accept.
  - intros (before & after & -> & Hnone).
    replace (before ++ Delivered (On_connect 0) :: after)
      with ((before ++ [Delivered (On_connect 0)]) ++ after)
      by now rewrite <- app_assoc.
    rewrite events_app.
    apply connected_while_none_clears; [| exact Hnone].
    rewrite events_app. cbn. apply on_connect_accepted_sets.
Qed.

(** C8. When the protocol client's [connect] raises (host unreachable, DNS
    failure: any [Exception]), [start()] catches and logs the error,
    returns normally, and leaves the client not running: the running flag
    is not set and no background loop is handed to the page. *)
Theorem start_connect_failure_leaves_stopped e st :
  _is_running st = false ->
  paho_connect (world self) (calls st) (broker_host (config self))
               (broker_port (config self)) (keepalive (config self))
  = Raise e ->
  is_Exception e = true ->
  exists st',
    start self st = (Ret tt, st') /\
    _is_running st' = false /\
    scheduled st' = scheduled st /\
    log st' =
      log st
      ++ [(INFO, Msg_starting);
          (ERROR, if is_OSError e
                  then Msg_could_not_connect (broker_host (config self)) e
                  else Msg_unexpected_error e)].
Proof.
  intros Hstopped Hraise Hexc.
  unfold start, client_connect; run. rewrite Hstopped. cbn.
  rewrite Hraise. cbn.
  destruct (is_OSError e); [| rewrite Hexc]; cbn;
    (eexists; split; [reflexivity |]; cbn;
     rewrite <- app_assoc; repeat split; assumption).
Qed.

(** C10. An inbound message whose payload is not valid UTF-8 makes the
    dispatcher raise [UnicodeDecodeError] from its own log statement: the
    error leaves [_on_message_internal], nothing is logged and the handler
    is not called, whatever the handler is. *)
Theorem undecodable_payload_escapes_dispatch msg st :
  utf8_valid (payload msg) = false ->
  _on_message_internal self msg st = (Raise undecodable, st) /\
  handled (snd (_on_message_internal self msg st)) = handled st /\
  log (snd (_on_message_internal self msg st)) = log st.
Proof.
  intros Hbad.
  assert (Hrun : _on_message_internal self msg st = (Raise undecodable, st)).
  { unfold _on_message_internal, decode; run. now rewrite Hbad. }
  rewrite Hrun. repeat split.
Qed.

(** *** Publisher *)

(** C4, as the code has it.  A [publish] that finds the connected
    condition true, or sees it become true within the timeout window, calls
    the send primitive exactly once, on the given topic, with the explicit
    QoS when there is one and the default QoS of the configuration
    otherwise, and with the given retain flag, unless the payload is a dict
    or a list that [json.dumps] rejects: then the exception of [json.dumps]
    leaves [publish] and the send primitive is not called. *)
Theorem publish_sends_once_when_connected t p q retain window st :
  (exists k,
      connected_event (run_events self (firstn k (List.concat window)) st)
      = true) ->
  ((is_dict_or_list p = true -> exists s, json_dumps (world self) p = Ret s) ->
   exists p',
     publish_calls (calls (snd (publish self t p q retain window st))) =
     publish_calls (calls st)
     ++ [Call_publish t p'
           (match q with Some q' => q' | None => qos (config self) end)
           retain]) /\
  (forall e,
      is_dict_or_list p = true ->
      json_dumps (world self) p = Raise e ->
      fst (publish self t p q retain window st) = Raise e /\
      publish_calls (calls (snd (publish self t p q retain window st))) =
      publish_calls (calls st)).
Proof.
  intros Hconnected.
  destruct (wait_returns window st Hconnected) as (st_w & Hw & Hsame).
  split.
  - intros Hjson.
    assert (Hp : exists p', fst (serialize_payload self p st_w) = Ret p').
    { rewrite serialize_payload_spec. cbn.
      destruct (is_dict_or_list p); [| eexists; reflexivity].
      destruct (Hjson eq_refl) as [s ->]. eexists; reflexivity. }
    destruct Hp as [p' Hp]. exists p'.
    now apply (publish_sent_calls t p p' q retain window st st_w).
  - intros e Hp He.
    rewrite (publish_not_serializable t p q retain window st st_w e Hw Hp He).
    split; [reflexivity | exact Hsame].
Qed.

(** C5. A [publish] made while the connected condition is false, and
    during whose timeout window it never becomes true, logs an error and
    returns without calling the send primitive; nothing is kept for a
    retry: whatever happens later, no event sends the dropped message. *)
Theorem publish_dropped_when_never_connected t p q retain window st :
  (forall k,
      connected_event (run_events self (firstn k (List.concat window)) st)
      = false) ->
  exists st',
    publish self t p q retain window st = (Ret tt, st') /\
    log st' =
      log (run_events self (List.concat window) st)
      ++ [(ERROR, Msg_publish_not_connected)] /\
    calls st' = calls (run_events self (List.concat window) st) /\
    publish_calls (calls st') = publish_calls (calls st) /\
    (forall later,
        publish_calls (calls (run_events self later st'))
        = publish_calls (calls st)).
Proof.
  intros Hnever.
  rewrite (publish_timed_out t p q retain window st _
             (wait_times_out window st Hnever)).
  eexists. split; [reflexivity |]. cbn.
  repeat split.
  - apply events_send_nothing.
  - intros later. rewrite events_send_nothing. cbn.
    apply events_send_nothing.
Qed.

(** C6, as the code has it.  On a [publish] that goes through the wait, a
    payload that is a [dict] or a [list] reaches the send primitive as the
    text [json.dumps] made of it, and is not sent at all when [json.dumps]
    rejects it: the exception leaves [publish].  Every other payload
    reaches the send primitive unchanged: [str] and [bytes], and also a
    tuple or another mapping or sequence that is not a [dict] or a [list],
    which is not serialized. *)
Theorem publish_payload_on_the_wire t p q retain window st :
  (exists k,
      connected_event (run_events self (firstn k (List.concat window)) st)
      = true) ->
  let sent := publish_calls (calls (snd (publish self t p q retain window st))) in
  let qos_level := match q with Some q' => q' | None => qos (config self) end in
  (forall s,
      is_dict_or_list p = true ->
      json_dumps (world self) p = Ret s ->
      sent = publish_calls (calls st)
             ++ [Call_publish t (PyStr s) qos_level retain]) /\
  (forall e,
      is_dict_or_list p = true ->
      json_dumps (world self) p = Raise e ->
      sent = publish_calls (calls st) /\
      fst (publish self t p q retain window st) = Raise e) /\
  (is_dict_or_list p = false ->
   sent = publish_calls (calls st) ++ [Call_publish t p qos_level retain]).
Proof.
  intros Hconnected sent qos_level. subst sent qos_level.
  destruct (wait_returns window st Hconnected) as (st_w & Hw & Hsame).
  split; [| split].
  - intros s Hp Hs.
    apply (publish_sent_calls t p (PyStr s) q retain window st st_w Hw Hsame).
    rewrite serialize_payload_spec. cbn. now rewrite Hp, Hs.
  - intros e Hp He.
    rewrite (publish_not_serializable t p q retain window st st_w e Hw Hp He).
    split; [exact Hsame | reflexivity].
  - intros Hp.
    apply (publish_sent_calls t p p q retain window st st_w Hw Hsame).
    rewrite serialize_payload_spec. cbn. now rewrite Hp.
Qed.

(** C9. [stop()] never sets the connected condition, so it cannot release
    a [publish] that waits on it: when no successful connect
    acknowledgement arrives during the timeout window, whatever the number
    of [stop()] calls and other events in it, the wait ends by its timeout
    and the message is not sent. *)
Theorem stop_never_unblocks_publish :
  (forall st,
      connected_event st = false ->
      connected_event (snd (stop self st)) = false) /\
  (forall t p q retain window st,
      connected_event st = false ->
      ~ In (Delivered (On_connect 0)) (List.concat window) ->
      exists st',
        publish self t p q retain window st = (Ret tt, st') /\
        log st' =
          log (run_events self (List.concat window) st)
          ++ [(ERROR, Msg_publish_not_connected)] /\
        publish_calls (calls st') = publish_calls (calls st)).
Proof.
  split.
  - intros st Hclear. now apply stop_frame.
  - intros t p q retain window st Hclear Hnoack.
    assert (Hnever : forall evs s,
               connected_event s = false ->
               ~ In (Delivered (On_connect 0)) evs ->
               forall k,
                 connected_event (run_events self (firstn k evs) s) = false).
    { induction evs as [| ev rest IH]; intros s Hs Hnone k.
      - now rewrite firstn_nil.
      - destruct k as [| k]; [exact Hs |].
        cbn [firstn]. rewrite events_cons. apply IH.
        + destruct (connected_event (run_event self ev s)) eqn:Hset; [| reflexivity].
          exfalso. apply Hnone. left.
          now apply (event_sets_only_on_accept ev s).
        + intros Hin. apply Hnone. now right. }
    rewrite (publish_timed_out t p q retain window st _
               (wait_times_out window st
                  (Hnever (List.concat window) st Hclear Hnoack))).
    eexists. split; [reflexivity |]. cbn. split; [reflexivity |].
    apply events_send_nothing.
Qed.

(** *** What reaches the caller *)

Lemma start_outcome st :
  _is_running st = false ->
  match start_raises self st with
  | None =>
    fst (start self st) = Ret tt /\
    log (snd (start self st)) = log st ++ [(INFO, Msg_starting)]
  | Some e =>
    if is_Exception e then
      fst (start self st) = Ret tt /\
      log (snd (start self st)) =
        log st
        ++ [(INFO, Msg_starting);
            (ERROR, if is_OSError e
                    then Msg_could_not_connect (broker_host (config self)) e
                    else Msg_unexpected_error e)]
    else fst (start self st) = Raise e
  end.
Proof.
  intros Hstopped.
  assert (Hcatch : forall e, is_OSError e = true -> is_Exception e = true).
  { intros e. unfold is_OSError, is_Exception.
    now destruct (exn_class_of e). }
  unfold start_raises, start, client_connect, await_run_task; run.
  rewrite Hstopped. cbn.
  destruct (paho_connect (world self) (calls st) (broker_host (config self))
              (broker_port (config self)) (keepalive (config self)))
    as [[] | e]; cbn;
    [destruct (page_run_task (world self) (scheduled st)) as [[] | e]; cbn;
     [destruct (await_task_handle (world self) (scheduled st)) as [[] | e]; cbn;
      [now split |] |] |];
    (destruct (is_OSError e) eqn:Hos;
     [rewrite (Hcatch e Hos); cbn; rewrite <- app_assoc; now split |];
     destruct (is_Exception e); cbn;
     [rewrite <- app_assoc; now split | reflexivity]).
Qed.


End Lifecycle.

Section Dispatcher.

Variable self : FletMQTTClient.
Variable h : handler.
Hypothesis installed : on_message_handler self = Some h.

Lemma decode_valid bs :
  utf8_valid bs = true -> decode bs = Ret (string_of_list_byte bs).
Proof. intros H. unfold decode. now rewrite H. Qed.

Lemma dispatch_contained msg text e st :
  decode (payload msg) = Ret text ->
  h (handled st) msg = Raise e ->
  is_Exception e = true ->
  _on_message_internal self msg st =
  (Ret tt,
   with_log (ERROR, Msg_handler_error e)
     (with_handled msg (with_log (INFO, Msg_received (topic msg) text) st))).
Proof.
  intros Hdecode Hraise Hexc.
  unfold _on_message_internal, call_handler; run.
  rewrite Hdecode, installed. cbn. rewrite Hraise. cbn. now rewrite Hexc.
Qed.

Lemma dispatch_not_contained msg text e st :
  decode (payload msg) = Ret text ->
  h (handled st) msg = Raise e ->
  is_Exception e = false ->
  _on_message_internal self msg st =
  (Raise e,
   with_handled msg (with_log (INFO, Msg_received (topic msg) text) st)).
Proof.
  intros Hdecode Hraise Hexc.
  unfold _on_message_internal, call_handler; run.
  rewrite Hdecode, installed. cbn. rewrite Hraise. cbn. now rewrite Hexc.
Qed.

Hypothesis always_raises :
  forall seen m, exists e, h seen m = Raise e /\ is_Exception e = true.

Lemma deliver_all_contained cbs : forall st,
  decodable_messages cbs ->
  exists st',
    for_each cbs (deliver self) st = (Ret tt, st') /\
    _is_running st' = _is_running st /\
    handled st' = handled st ++ inbound cbs /\
    handler_errors st' = (handler_errors st + List.length (inbound cbs))%nat.
Proof.
  induction cbs as [| cb cbs IH]; intros st Hmsgs.
  - exists st. cbn. rewrite app_nil_r, Nat.add_0_r. repeat split.
  - destruct (Hmsgs cb (or_introl eq_refl)) as (m & -> & Hvalid).
    destruct (always_raises (handled st) m) as (e & Hraise & Hexc).
    rewrite for_each_cons. cbn [deliver].
    rewrite (dispatch_contained m _ e st (decode_valid _ Hvalid) Hraise Hexc).
    destruct (IH (with_log (ERROR, Msg_handler_error e)
                    (with_handled m
                       (with_log (INFO, Msg_received (topic m)
                                          (string_of_list_byte (payload m)))
                          st))))
      as (st' & Hrun & Hrunning & Hhandled & Herrors).
    { intros cb Hin. apply Hmsgs. now right. }
    exists st'. split; [exact Hrun |]. split; [exact Hrunning |].
    split.
    + rewrite Hhandled. cbn. now rewrite <- app_assoc.
    + rewrite Herrors. unfold handler_errors, inbound. cbn.
      rewrite !filter_app, !length_app. cbn. lia.
Qed.

Lemma iterate_stays_alive ticks : forall st,
  _is_running st = true ->
  (forall cbs during_sleep,
      In (cbs, during_sleep) ticks ->
      during_sleep = [] /\ decodable_messages cbs) ->
  exists st',
    iterate self ticks st = (Ret Alive, st') /\
    _is_running st' = true /\
    handled st' = handled st ++ inbound (List.concat (map fst ticks)) /\
    handler_errors st' =
      (handler_errors st
       + List.length (inbound (List.concat (map fst ticks))))%nat.
Proof.
  induction ticks as [| [cbs during_sleep] ticks IH]; intros st Hrunning Hticks.
  - exists st. cbn. unfold_monad. rewrite Hrunning. cbn.
    rewrite app_nil_r, Nat.add_0_r. repeat split; exact Hrunning.
  - destruct (Hticks cbs during_sleep (or_introl eq_refl)) as (-> & Hmsgs).
    destruct (deliver_all_contained cbs (with_call Call_loop st) Hmsgs)
      as (st1 & Hrun1 & Hrunning1 & Hhandled1 & Herrors1).
    destruct (IH st1) as (st' & Hrun & Hrunning' & Hhandled & Herrors).
    { now rewrite Hrunning1. }
    { intros cbs' sl Hin. apply Hticks. now right. }
    exists st'. split.
    + cbn [iterate]. unfold client_loop. unfold_monad.
      rewrite Hrunning. cbn. rewrite Hrun1. cbn. exact Hrun.
    + split; [exact Hrunning' |].
      cbn [map fst List.concat]. unfold inbound in *.
      rewrite flat_map_app, length_app. split.
      * rewrite Hhandled, Hhandled1. cbn. now rewrite app_assoc.
      * rewrite Herrors, Herrors1. unfold handler_errors. cbn. lia.
Qed.

End Dispatcher.

Section MessageDispatcher.

Variable self : FletMQTTClient.

(** C7, as the code has it.  An [Exception] that the installed handler
    raises while a message is dispatched is caught in
    [_on_message_internal]: it is logged at error level with the exception,
    and the callback returns.  An exception that is not an [Exception]
    ([SystemExit], [KeyboardInterrupt]) is not caught: it leaves the
    callback and no error record is written.  Hence a handler that raises
    an [Exception] on every call does not end the background loop: after
    the inbound messages of any number of network steps, each of which made
    the handler fail, the loop is still iterating, every message has been
    passed to the handler and there is one error record per message. *)
Theorem handler_exception_is_contained (h : handler) :
  on_message_handler self = Some h ->
  (forall msg text e st,
      decode (payload msg) = Ret text ->
      h (handled st) msg = Raise e ->
      is_Exception e = true ->
      _on_message_internal self msg st =
      (Ret tt,
       with_log (ERROR, Msg_handler_error e)
         (with_handled msg
            (with_log (INFO, Msg_received (topic msg) text) st)))) /\
  (forall msg text e st,
      decode (payload msg) = Ret text ->
      h (handled st) msg = Raise e ->
      is_Exception e = false ->
      _on_message_internal self msg st =
      (Raise e,
       with_handled msg
         (with_log (INFO, Msg_received (topic msg) text) st))) /\
  ((forall seen m, exists e, h seen m = Raise e /\ is_Exception e = true) ->
   forall ticks st,
     _is_running st = true ->
     (forall cbs during_sleep,
         In (cbs, during_sleep) ticks ->
         during_sleep = [] /\ decodable_messages cbs) ->
     exists st',
       _background_loop self ticks st = (Ret Alive, st') /\
       _is_running st' = true /\
       handled st' = handled st ++ inbound (List.concat (map fst ticks)) /\
       handler_errors st' =
         (handler_errors st
          + List.length (inbound (List.concat (map fst ticks))))%nat).
Proof.
  intros Hinstalled. split; [| split].
  - intros msg text e st. now apply dispatch_contained.
  - intros msg text e st. now apply (dispatch_not_contained self h).
  - intros Hraises ticks st Hrunning Hticks.
    destruct (iterate_stays_alive self h Hinstalled Hraises ticks
                (with_log (INFO, Msg_loop_started) st) Hrunning Hticks)
      as (st' & Hrun & Hrunning' & Hhandled & Herrors).
    exists st'. split; [| split; [exact Hrunning' |]; split].
    + unfold _background_loop. unfold_monad. exact Hrun.
    + exact Hhandled.
    + rewrite Herrors. unfold handler_errors. cbn.
      rewrite filter_app, length_app. cbn. lia.
Qed.

End MessageDispatcher.

(** * The rest of the lifecycle manager *)

Section Operations.

Variable self : FletMQTTClient.

Ltac cases_of_start :=
  unfold start, client_connect, await_run_task, connect_call; run;
  repeat match goal with
         | |- context [paho_connect ?w ?h ?a ?b ?c] =>
           destruct (paho_connect w h a b c) as [[] | ?e]; cbn
         | |- context [page_run_task ?w ?n] =>
           destruct (page_run_task w n) as [[] | ?e]; cbn
         | |- context [await_task_handle ?w ?n] =>
           destruct (await_task_handle w n) as [[] | ?e]; cbn
         | |- context [is_OSError ?e] => destruct (is_OSError e); cbn
         | |- context [is_Exception ?e] => destruct (is_Exception e); cbn
         end.

Lemma start_calls_connect st :
  _is_running st = false ->
  calls (snd (start self st)) = calls st ++ [connect_call (config self)] /\
  connected_event (snd (start self st)) = false.
Proof.
  intros Hstopped. unfold start; run. rewrite Hstopped. cbn.
  cases_of_start; split; reflexivity.
Qed.

Lemma start_marks_running st :
  _is_running st = false ->
  paho_connect (world self) (calls st) (broker_host (config self))
               (broker_port (config self)) (keepalive (config self)) = Ret tt ->
  _is_running (snd (start self st)) = true.
Proof.
  intros Hstopped Hconnect. unfold start, client_connect, await_run_task; run.
  rewrite Hstopped. cbn. rewrite Hconnect. cbn.
  cases_of_start; reflexivity.
Qed.

Lemma stop_marks_stopped st : _is_running (snd (stop self st)) = false.
Proof.
  unfold stop, client_disconnect; run.
  destruct (_is_running st) eqn:Hrunning; cbn; [| exact Hrunning].
  destruct (paho_disconnect (world self) (calls st)) as [[] | e]; reflexivity.
Qed.

Lemma stop_calls_disconnect st :
  _is_running st = true ->
  calls (snd (stop self st)) = calls st ++ [Call_disconnect].
Proof.
  intros Hrunning. unfold stop, client_disconnect; run. rewrite Hrunning. cbn.
  destruct (paho_disconnect (world self) (calls st)) as [[] | e]; reflexivity.
Qed.

Lemma deliver_keeps_running cb st :
  _is_running (snd (deliver self cb st)) = _is_running st.
Proof.
  destruct cb as [rc | msg | rc]; cbn [deliver].
  - apply on_connect_frame.
  - apply dispatch_frame.
  - destruct (on_disconnect_clears rc st) as (st' & -> & _ & H & _). exact H.
Qed.

(** X1. [start()] on a client that is not running always makes one
    [connect] call, with the host, port and keepalive of the configuration,
    and clears the connected condition.  The client is marked running exactly
    when [connect] returned, and one background loop is handed to the page
    exactly when [connect] and [page.run_task] both returned: a failure of
    [run_task] leaves a client that counts as running and has no loop. *)
Theorem start_on_a_stopped_client st :
  _is_running st = false ->
  calls (snd (start self st)) = calls st ++ [connect_call (config self)] /\
  connected_event (snd (start self st)) = false /\
  handled (snd (start self st)) = handled st /\
  _is_running (snd (start self st)) =
    match paho_connect (world self) (calls st) (broker_host (config self))
                       (broker_port (config self)) (keepalive (config self))
    with
    | Ret _ => true
    | Raise _ => false
    end /\
  scheduled (snd (start self st)) =
    match paho_connect (world self) (calls st) (broker_host (config self))
                       (broker_port (config self)) (keepalive (config self)),
          page_run_task (world self) (scheduled st)
    with
    | Ret _, Ret _ => S (scheduled st)
    | _, _ => scheduled st
    end.
Proof.
  intros Hstopped. unfold start; run. rewrite Hstopped. cbn.
  cases_of_start; repeat split; assumption.
Qed.

(** X2. Once a [start()] has got through [connect], another [start()] does
    nothing but log a warning: no second connection, no second loop. *)
Theorem start_twice_connects_once st :
  _is_running st = false ->
  paho_connect (world self) (calls st) (broker_host (config self))
               (broker_port (config self)) (keepalive (config self)) = Ret tt ->
  start self (snd (start self st)) =
  (Ret tt, with_log (WARNING, Msg_already_running) (snd (start self st))).
Proof.
  intros Hstopped Hconnect.
  apply start_when_running. now apply start_marks_running.
Qed.

(** X3. [stop()] is idempotent: after a [stop()], whatever the client's
    [disconnect] answered, a second [stop()] returns at once and changes
    nothing; in particular it sends no second disconnect. *)
Theorem stop_twice_is_stop_once st :
  stop self (snd (stop self st)) = (Ret tt, snd (stop self st)).
Proof. apply stop_when_stopped, stop_marks_stopped. Qed.

(** X4. [stop()] on a running client makes exactly one [disconnect] call
    and marks the client stopped whatever that call answers; what
    [disconnect] raises reaches the caller, and the connected condition is
    cleared only when [disconnect] returned. *)
Theorem stop_on_a_running_client st :
  _is_running st = true ->
  calls (snd (stop self st)) = calls st ++ [Call_disconnect] /\
  _is_running (snd (stop self st)) = false /\
  fst (stop self st) = paho_disconnect (world self) (calls st) /\
  connected_event (snd (stop self st)) =
    match paho_disconnect (world self) (calls st) with
    | Ret _ => false
    | Raise _ => connected_event st
    end /\
  handled (snd (stop self st)) = handled st /\
  scheduled (snd (stop self st)) = scheduled st.
Proof.
  intros Hrunning. unfold stop, client_disconnect; run. rewrite Hrunning. cbn.
  destruct (paho_disconnect (world self) (calls st)) as [[] | e];
    repeat split.
Qed.

(** X5. A disconnect event leaves the running flag as it is and logs a
    warning exactly when its code is not 0.  So after an unexpected
    disconnect of a running client, [start()] does not reconnect: it only
    warns that the client is already running. *)
Theorem disconnect_event_blocks_restart rc st :
  _is_running st = true ->
  exists st1,
    _on_disconnect rc st = (Ret tt, st1) /\
    _is_running st1 = true /\
    connected_event st1 = false /\
    log st1 =
      log st ++ (if rc =? 0 then [] else [(WARNING, Msg_unexpected_disconnect)]) /\
    start self st1 = (Ret tt, with_log (WARNING, Msg_already_running) st1).
Proof.
  intros Hrunning.
  assert (Hrun : exists st1,
             _on_disconnect rc st = (Ret tt, st1) /\
             _is_running st1 = true /\
             connected_event st1 = false /\
             log st1 =
               log st
               ++ (if rc =? 0 then []
                   else [(WARNING, Msg_unexpected_disconnect)])).
  { unfold _on_disconnect; run.
    destruct (rc =? 0); cbn; eexists; repeat split;
      try exact Hrunning; now rewrite ?app_nil_r. }
  destruct Hrun as (st1 & Hrun & Hrunning1 & Hclear & Hlog).
  exists st1. repeat split; try assumption.
  now apply start_when_running.
Qed.

(** X6. [stop()] followed by [start()] on a running client always makes a
    fresh connection attempt: the calls made are one [disconnect] and then
    one [connect], the connected condition is clear, and the client is
    running again when that [connect] returns. *)
Theorem stop_then_start_reconnects st :
  _is_running st = true ->
  let st2 := snd (start self (snd (stop self st))) in
  calls st2 = calls st ++ [Call_disconnect; connect_call (config self)] /\
  connected_event st2 = false /\
  (paho_connect (world self) (calls st ++ [Call_disconnect])
                (broker_host (config self)) (broker_port (config self))
                (keepalive (config self)) = Ret tt ->
   _is_running st2 = true).
Proof.
  intros Hrunning st2. subst st2.
  pose proof (stop_marks_stopped st) as Hstopped.
  pose proof (stop_calls_disconnect st Hrunning) as Hcalls.
  destruct (start_calls_connect _ Hstopped) as (Hcalls2 & Hclear).
  split; [| split].
  - rewrite Hcalls2, Hcalls, <- app_assoc. reflexivity.
  - exact Hclear.
  - intros Hconnect. apply start_marks_running; [exact Hstopped |].
    now rewrite Hcalls.
Qed.

(** *** The subscribe loop when a call fails *)

(** X7. When [subscribe] raises for one of the topics during a successful
    connect acknowledgement, the error leaves [_on_connect]: the topics
    before it have been subscribed, the topics after it are never requested,
    and the connected condition stays set. *)
Theorem subscribe_failure_skips_later_topics done t rest e st :
  subscribe_topics (config self) = done ++ t :: rest ->
  (forall before t' after,
      done = before ++ t' :: after ->
      paho_subscribe (world self)
        (calls st ++ map (fun x => Call_subscribe x (qos (config self))) before)
        t' (qos (config self)) = Ret tt) ->
  paho_subscribe (world self)
    (calls st ++ map (fun x => Call_subscribe x (qos (config self))) done)
    t (qos (config self)) = Raise e ->
  exists st',
    _on_connect self 0 st = (Raise e, st') /\
    connected_event st' = true /\
    calls st' =
      calls st
      ++ map (fun x => Call_subscribe x (qos (config self))) (done ++ [t]).
Proof.
  intros Htopics Hreturn Hraise.
  set (st0 := with_connected true
                (with_log (INFO, Msg_connected (broker_host (config self))) st)).
  destruct (subscribe_loop_stops self done (subscribe_topics (config self))
              t rest e st0 Htopics Hreturn Hraise)
    as (st' & Hrun & Hcalls & _).
  destruct (subscribe_loop_frame self (subscribe_topics (config self)) st0)
    as (Hset & _).
  rewrite Hrun in Hset. cbn in Hset, Hcalls.
  exists st'. split; [| split; assumption].
  unfold _on_connect; run. fold st0.
  destruct (subscribe_topics (config self)) as [| x xs] eqn:Hx; [| exact Hrun].
  destruct done; discriminate.
Qed.

(** *** Where subscribe requests come from *)

Lemma subscribe_calls_app cs1 cs2 :
  subscribe_calls (cs1 ++ cs2) = subscribe_calls cs1 ++ subscribe_calls cs2.
Proof. apply filter_app. Qed.

Lemma subscribe_calls_of_requests q ts :
  subscribe_calls (map (fun t => Call_subscribe t q) ts) =
  map (fun t => Call_subscribe t q) ts.
Proof.
  induction ts as [| t ts IH]; [reflexivity |].
  cbn. unfold subscribe_calls in IH. now rewrite IH.
Qed.

Lemma requests_are_configured k :
  Forall (configured_subscription (config self))
    (map (fun t => Call_subscribe t (qos (config self)))
         (firstn k (subscribe_topics (config self)))).
Proof.
  apply Forall_forall. intros c Hc.
  apply in_map_iff in Hc. destruct Hc as (t & <- & Ht).
  exists t. split; [| reflexivity].
  rewrite <- (firstn_skipn k (subscribe_topics (config self))).
  apply in_or_app. now left.
Qed.

Lemma on_connect_subscribes rc st :
  exists k,
    calls (snd (_on_connect self rc st)) =
    calls st
    ++ map (fun t => Call_subscribe t (qos (config self)))
           (firstn k (subscribe_topics (config self))) /\
    (rc <> 0 -> k = 0%nat).
Proof.
  destruct (Z.eq_dec rc 0) as [-> | Hrc].
  - unfold _on_connect; run.
    destruct (subscribe_topics (config self)) as [| t ts] eqn:Htopics.
    + exists 0%nat. cbn. rewrite app_nil_r. split; [reflexivity | congruence].
    + destruct (subscribe_loop_prefix self (t :: ts)
                  (with_connected true
                     (with_log (INFO, Msg_connected (broker_host (config self)))
                        st))) as (k & _ & Hk).
      exists k. split; [exact Hk | congruence].
  - exists 0%nat. rewrite (on_connect_refused self rc st Hrc). cbn.
    rewrite app_nil_r. split; reflexivity.
Qed.

Lemma event_subscribes ev st :
  exists added,
    subscribe_calls (calls (run_event self ev st)) =
    subscribe_calls (calls st) ++ added /\
    Forall (configured_subscription (config self)) added /\
    (ev <> Delivered (On_connect 0) -> added = []).
Proof.
  unfold run_event. destruct ev as [[rc | msg | rc] | []]; cbn [deliver].
  - destruct (on_connect_subscribes rc st) as (k & Hk & Hrefused).
    exists (map (fun t => Call_subscribe t (qos (config self)))
                (firstn k (subscribe_topics (config self)))).
    rewrite Hk, subscribe_calls_app, subscribe_calls_of_requests.
    split; [reflexivity |]. split; [apply requests_are_configured |].
    intros Hev. rewrite Hrefused; [reflexivity |]. congruence.
  - exists []. destruct (dispatch_frame self msg st) as (_ & _ & -> & _).
    rewrite app_nil_r. repeat split. constructor.
  - exists [].
    destruct (on_disconnect_clears rc st) as (st' & -> & _ & _ & Hcalls & _).
    cbn. rewrite Hcalls, app_nil_r. repeat split. constructor.
  - exists [].
    destruct (_is_running st) eqn:Hrunning.
    + rewrite (start_when_running self st Hrunning). cbn.
      rewrite app_nil_r. repeat split. constructor.
    + destruct (start_calls_connect st Hrunning) as (-> & _).
      rewrite subscribe_calls_app. cbn. repeat split. constructor.
  - exists [].
    destruct (_is_running st) eqn:Hrunning.
    + rewrite (stop_calls_disconnect st Hrunning), subscribe_calls_app. cbn.
      repeat split. constructor.
    + rewrite (stop_when_stopped self st Hrunning). cbn.
      rewrite app_nil_r. repeat split. constructor.
Qed.

(** X8. Subscribe requests are made by successful connect acknowledgements
    only, and only for the topics of the configuration at its default QoS:
    whatever callbacks arrive and whatever the application calls, every
    request added is one of those, and a run without a successful
    acknowledgement adds none. *)
Theorem subscribes_only_what_is_configured evs : forall st,
  exists added,
    subscribe_calls (calls (run_events self evs st)) =
    subscribe_calls (calls st) ++ added /\
    Forall (configured_subscription (config self)) added /\
    (~ In (Delivered (On_connect 0)) evs -> added = []).
Proof.
  induction evs as [| ev evs IH]; intros st.
  - exists []. cbn. rewrite app_nil_r. repeat split. constructor.
  - rewrite events_cons.
    destruct (event_subscribes ev st) as (a1 & H1 & Hc1 & Hn1).
    destruct (IH (run_event self ev st)) as (a2 & H2 & Hc2 & Hn2).
    exists (a1 ++ a2). rewrite H2, H1, <- app_assoc.
    split; [reflexivity |]. split.
    + apply Forall_app. now split.
    + intros Hnone. rewrite Hn1, Hn2; [reflexivity | |].
      * intros Hin. apply Hnone. now right.
      * intros ->. apply Hnone. now left.
Qed.

(** *** A publish that waits *)

(** X25. A [publish] that waits for the connection is resumed at the end
    of the turn in which the acknowledgement arrived and does not look at
    the flag again: when the same turn ends with a disconnect event, the
    connected condition is false when [publish] goes on, and the message is
    handed to the send primitive all the same. *)
Theorem publish_sends_after_the_connection_is_lost
        t s q retain before between rc rest st :
  connected_event st = false ->
  connected_event
    (run_events self
       (before ++ Delivered (On_connect 0)
               :: between ++ [Delivered (On_disconnect rc)]) st) = false /\
  wait_for_connected self
    ((before ++ Delivered (On_connect 0)
             :: between ++ [Delivered (On_disconnect rc)]) :: rest) st
  = (Ret true,
     run_events self
       (before ++ Delivered (On_connect 0)
               :: between ++ [Delivered (On_disconnect rc)]) st) /\
  publish_calls
    (calls (snd (publish self t (PyStr s) q retain
                   ((before ++ Delivered (On_connect 0)
                            :: between ++ [Delivered (On_disconnect rc)])
                      :: rest) st)))
  = publish_calls (calls st)
    ++ [Call_publish t (PyStr s)
          (match q with Some q' => q' | None => qos (config self) end) retain].
Proof.
  intros Hclear.
  set (turn := before ++ Delivered (On_connect 0)
                      :: between ++ [Delivered (On_disconnect rc)]).
  assert (Hlost : connected_event (run_events self turn st) = false).
  { unfold turn.
    replace (before ++ Delivered (On_connect 0)
                    :: between ++ [Delivered (On_disconnect rc)])
      with ((before ++ Delivered (On_connect 0) :: between)
              ++ [Delivered (On_disconnect rc)])
      by now rewrite <- app_assoc.
    rewrite events_app. cbn. unfold run_event. cbn [deliver].
    now destruct (on_disconnect_clears rc
                    (run_events self
                       (before ++ Delivered (On_connect 0) :: between) st))
      as (st' & -> & Hc & _). }
  assert (Hwoken : fst (run_turn self turn st) = true).
  { destruct (fst (run_turn self turn st)) eqn:Hturn; [reflexivity |].
    pose proof (run_turn_quiet self turn st Hclear Hturn
                  (S (List.length before))) as Hquiet.
    unfold turn in Hquiet.
    rewrite firstn_app_cases in Hquiet.
    destruct (Nat.leb_spec (S (List.length before)) (List.length before));
      [lia |].
    replace (S (List.length before) - List.length before)%nat with 1%nat
      in Hquiet by lia.
    cbn [firstn] in Hquiet. rewrite events_app in Hquiet. cbn in Hquiet.
    unfold run_event in Hquiet. cbn [deliver] in Hquiet.
    now rewrite on_connect_accepted_sets in Hquiet. }
  assert (Hwait : wait_for_connected self (turn :: rest) st
                  = (Ret true, run_events self turn st)).
  { unfold wait_for_connected. rewrite Hclear. cbn [wait_pending].
    pose proof (run_turn_state self turn st) as Hstate.
    destruct (run_turn self turn st) as [woken st']. cbn [fst snd] in *.
    now subst. }
  split; [exact Hlost |]. split; [exact Hwait |].
  apply (publish_sent_calls self t (PyStr s) (PyStr s) q retain (turn :: rest)
           st (run_events self turn st) Hwait).
  - apply events_send_nothing.
  - now rewrite serialize_payload_spec.
Qed.

(** *** The dispatcher with other handlers *)

Lemma iterate_when_stopped ticks st :
  _is_running st = false ->
  iterate self ticks st = (Ret Stopped, with_log (INFO, Msg_loop_stopped) st).
Proof.
  intros Hstopped. destruct ticks; cbn; unfold_monad; now rewrite Hstopped.
Qed.

Lemma background_loop_unfold ticks st :
  _background_loop self ticks st =
  iterate self ticks (with_log (INFO, Msg_loop_started) st).
Proof. reflexivity. Qed.

Lemma iterate_step delivered during_sleep rest st :
  _is_running st = true ->
  iterate self ((delivered, during_sleep) :: rest) st =
  match for_each delivered (deliver self) (with_call Call_loop st) with
  | (Ret _, st1) =>
    iterate self rest (run_events self (map Called during_sleep) st1)
  | (Raise e, st1) => (Raise e, st1)
  end.
Proof.
  intros Hrunning. cbn [iterate]. unfold client_loop. unfold_monad.
  rewrite Hrunning. cbn [negb].
  destruct (for_each delivered (deliver self) (with_call Call_loop st))
    as [[[] | e] st1]; reflexivity.
Qed.

(** X9. Without a custom handler the placeholder [on_message] is called:
    for a payload that decodes, the dispatcher logs the message, the
    placeholder logs a warning that nothing is implemented, and the callback
    returns. *)
Theorem placeholder_handler_only_warns msg text st :
  on_message_handler self = None ->
  decode (payload msg) = Ret text ->
  _on_message_internal self msg st =
  (Ret tt,
   with_log (WARNING, Msg_not_implemented)
     (with_handled msg (with_log (INFO, Msg_received (topic msg) text) st))).
Proof.
  intros Hnone Hdecode.
  unfold _on_message_internal, call_handler, on_message; run.
  now rewrite Hdecode, Hnone.
Qed.

(** X10. The failure boundary of the dispatcher is [except Exception]: an
    exception of the handler that does not derive from [Exception]
    ([SystemExit], [KeyboardInterrupt]) leaves [_on_message_internal]
    without an error record, and, delivered by the network step of a running
    background loop, ends that loop. *)
Theorem system_exit_leaves_the_dispatcher h msg text e st :
  on_message_handler self = Some h ->
  decode (payload msg) = Ret text ->
  h (handled st) msg = Raise e ->
  is_Exception e = false ->
  _on_message_internal self msg st =
    (Raise e,
     with_handled msg (with_log (INFO, Msg_received (topic msg) text) st)) /\
  (_is_running st = true ->
   forall after during_sleep rest,
     fst (_background_loop self
            ((On_message msg :: after, during_sleep) :: rest) st) = Raise e).
Proof.
  intros Hinstalled Hdecode Hraise Hexc.
  assert (Hdispatch : forall s,
             h (handled s) msg = Raise e ->
             _on_message_internal self msg s =
             (Raise e,
              with_handled msg
                (with_log (INFO, Msg_received (topic msg) text) s))).
  { intros s Hs. unfold _on_message_internal, call_handler; run.
    rewrite Hdecode, Hinstalled. cbn. rewrite Hs. cbn. now rewrite Hexc. }
  split; [now apply Hdispatch |].
  intros Hrunning after during_sleep rest.
  rewrite background_loop_unfold, iterate_step by exact Hrunning.
  rewrite for_each_cons. cbn [deliver].
  rewrite Hdispatch by exact Hraise. reflexivity.
Qed.

(** *** The background loop *)

(** X11. The background loop makes a network step only while the client is
    running.  Entered on a stopped client it logs its start and its end and
    returns without a step; and when the application's calls during a sleep
    leave the client stopped, the loop returns after that sleep, whatever
    was still to come. *)
Theorem loop_ends_when_stopped :
  (forall ticks st,
      _is_running st = false ->
      _background_loop self ticks st =
      (Ret Stopped,
       with_log (INFO, Msg_loop_stopped) (with_log (INFO, Msg_loop_started) st))) /\
  (forall delivered during_sleep rest st st1,
      _is_running st = true ->
      for_each delivered (deliver self)
               (with_call Call_loop (with_log (INFO, Msg_loop_started) st))
      = (Ret tt, st1) ->
      _is_running (run_events self (map Called during_sleep) st1) = false ->
      _background_loop self ((delivered, during_sleep) :: rest) st =
      (Ret Stopped,
       with_log (INFO, Msg_loop_stopped)
         (run_events self (map Called during_sleep) st1))).
Proof.
  split.
  - intros ticks st Hstopped. rewrite background_loop_unfold.
    now apply iterate_when_stopped.
  - intros delivered during_sleep rest st st1 Hrunning Hstep Hstopped.
    rewrite background_loop_unfold, iterate_step by exact Hrunning.
    rewrite Hstep. now apply iterate_when_stopped.
Qed.

(** X12. A message with an undecodable payload ends the background loop:
    when the callbacks delivered before it in the same network step return,
    the loop raises [UnicodeDecodeError], the callbacks and steps after it
    are not run, and the running flag is still set, so that [start()] only
    warns and the loop is not replaced until [stop()] is called. *)
Theorem undecodable_payload_ends_the_loop
        before msg after during_sleep rest st st1 :
  _is_running st = true ->
  for_each before (deliver self)
           (with_call Call_loop (with_log (INFO, Msg_loop_started) st))
  = (Ret tt, st1) ->
  utf8_valid (payload msg) = false ->
  _background_loop self
    ((before ++ On_message msg :: after, during_sleep) :: rest) st
  = (Raise undecodable, st1) /\
  _is_running st1 = true /\
  start self st1 = (Ret tt, with_log (WARNING, Msg_already_running) st1).
Proof.
  intros Hrunning Hbefore Hbad.
  assert (Hrunning1 : _is_running st1 = true).
  { pose proof (for_each_preserves (deliver self)
                  (fun s => _is_running s = true)) as Hkeep.
    specialize (Hkeep (fun cb s H => eq_trans (deliver_keeps_running cb s) H)
                      before
                      (with_call Call_loop (with_log (INFO, Msg_loop_started) st))
                      Hrunning).
    now rewrite Hbefore in Hkeep. }
  split; [| split; [exact Hrunning1 | now apply start_when_running]].
  rewrite background_loop_unfold, iterate_step by exact Hrunning.
  assert (Hsplit : forall l s s',
             for_each l (deliver self) s = (Ret tt, s') ->
             for_each (l ++ On_message msg :: after) (deliver self) s =
             (Raise undecodable, s')).
  { induction l as [| cb l IH]; intros s s' Hl.
    - cbn in Hl. injection Hl as <-.
      rewrite app_nil_l, for_each_cons. cbn [deliver].
      unfold _on_message_internal, decode; run. now rewrite Hbad.
    - cbn [app]. rewrite for_each_cons in *.
      destruct (deliver self cb s) as [[[] | e] s0]; [| discriminate].
      now apply IH. }
  now rewrite (Hsplit before _ st1 Hbefore).
Qed.

(** *** Construction *)

(** X13. The constructor hands credentials to the protocol client only when
    the configuration has both a user name and a password and neither is
    empty; otherwise it makes no call at all, and the connection will be
    anonymous.  A new client is neither running nor connected. *)
Theorem credentials_need_user_and_password :
  (forall u p,
      In (Call_username_pw_set u p) (calls (__init__ self)) <->
      broker_user (config self) = Some u /\
      broker_password (config self) = Some p /\
      u <> "" /\ p <> "") /\
  (calls (__init__ self) = [] \/
   exists u p, calls (__init__ self) = [Call_username_pw_set u p]) /\
  _is_running (__init__ self) = false /\
  connected_event (__init__ self) = false.
Proof.
  unfold __init__, _setup_callbacks. cbn.
  destruct (broker_user (config self)) as [[| a u'] |];
    destruct (broker_password (config self)) as [[| b p'] |]; cbn;
    (split; [intros u p; split;
             [intros H; try contradiction;
              destruct H as [H | []]; injection H as <- <-;
              repeat split; discriminate
             | intros (Hu & Hp & Hnu & Hnp);
               try discriminate;
               try (injection Hu as <-); try (injection Hp as <-);
               try contradiction; try (now left)]
            | split; [| split; reflexivity]]);
    try (now left); right; eauto.
Qed.

End Operations.

(** X14. However many clients are constructed, [_setup_logging] adds at
    most one handler to the module logger: the first call on a logger
    without handlers sets the level to INFO and adds the stdout handler,
    every later call changes nothing, and a logger that the application has
    given a handler is left as it is, level included. *)
Theorem setup_logging_adds_one_handler n logger :
  Nat.iter (S n) _setup_logging logger = _setup_logging logger /\
  (logger_handlers logger = [] ->
   _setup_logging logger =
   {| logger_level := logging_INFO; logger_handlers := [stdout_handler] |}) /\
  (logger_handlers logger <> [] -> _setup_logging logger = logger).
Proof.
  assert (Hidem : forall l, _setup_logging (_setup_logging l) = _setup_logging l).
  { intros l. unfold _setup_logging.
    destruct (logger_handlers l) eqn:Hl; cbn; [reflexivity | now rewrite Hl]. }
  split; [| split].
  - induction n as [| n IH]; [reflexivity |].
    change (Nat.iter (S (S n)) _setup_logging logger)
      with (_setup_logging (Nat.iter (S n) _setup_logging logger)).
    now rewrite IH.
  - intros Hnone. unfold _setup_logging. now rewrite Hnone.
  - intros Hsome. unfold _setup_logging.
    destruct (logger_handlers logger); [contradiction | reflexivity].
Qed.

(** * The demo application *)

Section Application.

Import LightControlApp.

Variable app : application.

Ltac unfold_se :=
  unfold app_logger, log_ui_error, on_view, inherited,
         se_bind, se_ret, se_raise, se_lift, se_try, se_modify.

(** *** [update_ui] and [on_message] *)

Lemma update_ui_string s v :
  update_ui app (JStr s) v =
  (page_update (lib app) (page_updates v),
   count_page_update
     (enable_toggle
        (show_last_updated
           (append "Last update: " (strftime_now (lib app) (page_updates v)))
           (if String.eqb (str_upper (lib app) s) "ON"
            then show_light LIGHTBULB YELLOW_600 "ON" v
            else show_light LIGHTBULB_OUTLINE GREY "OFF" v)))).
Proof.
  unfold update_ui, upper_of. unfold_se.
  destruct (String.eqb (str_upper (lib app) s) "ON"); reflexivity.
Qed.

Lemma update_ui_other state v :
  (forall s, state <> JStr s) -> update_ui app state v = (Raise no_upper, v).
Proof.
  intros Hother. unfold update_ui, upper_of. unfold_se.
  destruct state; try reflexivity. now destruct (Hother s).
Qed.

Lemma log_ui_error_outcome e v :
  (fst (log_ui_error e v) = Ret tt \/
   fst (log_ui_error e v) = Raise e /\ is_Exception e = false) /\
  widgets (snd (log_ui_error e v)) = widgets v /\
  page_updates (snd (log_ui_error e v)) = page_updates v.
Proof.
  unfold log_ui_error. unfold_se.
  destruct (is_Exception e) eqn:He; cbn; repeat split; auto.
Qed.

Lemma find_state_present (items : list (str * json_value)) k x :
  find (fun kv => String.eqb (fst kv) "state") items = Some (k, x) ->
  existsb (fun kv => String.eqb (fst kv) "state") items = true.
Proof.
  intros Hfind. apply existsb_exists. exists (k, x).
  apply find_some in Hfind. exact Hfind.
Qed.

(** The cases of [on_message]: either the widgets and the count of page
    updates are as before, or the payload was a JSON object with a string
    under ["state"] and [update_ui] has shown it. *)
Lemma on_message_cases msg v :
  (widgets (snd (on_message app msg v)) = widgets v /\
   page_updates (snd (on_message app msg v)) = page_updates v) \/
  (exists text items k s,
      decode (payload msg) = Ret text /\
      json_loads (lib app) text = Loaded (JDict items) /\
      find (fun kv => String.eqb (fst kv) "state") items = Some (k, JStr s) /\
      widgets (snd (on_message app msg v)) =
      widgets (snd (update_ui app (JStr s) v))).
Proof.
  unfold on_message.
  destruct (decode (payload msg)) as [text | e] eqn:Hdecode;
    [| left; apply log_ui_error_outcome].
  destruct (json_loads (lib app) text) as [parsed | | e] eqn:Hloads;
    [| left; split; reflexivity | left; apply log_ui_error_outcome].
  unfold se_try, se_bind, se_lift, se_ret.
  destruct (contains_state parsed) as [[] | e] eqn:Hhas;
    [| left; split; reflexivity | left; apply log_ui_error_outcome].
  destruct (get_state parsed) as [state | e] eqn:Hget;
    [| left; apply log_ui_error_outcome].
  destruct parsed as [| | | | | | items]; try discriminate.
  cbn in Hget.
  destruct (find (fun kv => String.eqb (fst kv) "state") items)
    as [[k x] |] eqn:Hfind; [| discriminate].
  injection Hget as ->.
  destruct state as [| b | z | f | s | l | d];
    try (rewrite update_ui_other by discriminate;
         left; apply log_ui_error_outcome).
  right. exists text, items, k, s.
  split; [reflexivity |]. split; [exact Hloads |]. split; [exact Hfind |].
  rewrite update_ui_string.
  destruct (page_update (lib app) (page_updates v)) as [[] | e]; [reflexivity |].
  cbn [fst snd].
  destruct (log_ui_error_outcome e
              (snd (update_ui app (JStr s) v))) as (_ & Hw & _).
  rewrite update_ui_string in Hw. exact Hw.
Qed.

Lemma on_message_outcome msg v :
  fst (on_message app msg v) = Ret tt \/
  exists e, fst (on_message app msg v) = Raise e /\ is_Exception e = false.
Proof.
  assert (Hlog : forall e v',
             fst (log_ui_error e v') = Ret tt \/
             exists e', fst (log_ui_error e v') = Raise e' /\
                        is_Exception e' = false).
  { intros e v'. destruct (log_ui_error_outcome e v') as ([H | H] & _);
      [now left | right; now exists e]. }
  unfold on_message.
  destruct (decode (payload msg)) as [text | e]; [| apply Hlog].
  destruct (json_loads (lib app) text) as [parsed | | e];
    [| now left | apply Hlog].
  match goal with
  | |- context [se_try ?m log_ui_error v] =>
    unfold se_try; destruct (m v) as [[[] | e] v']
  end; [now left | apply Hlog].
Qed.

(** X15. The [on_message] of the demo never lets an [Exception] out:
    whatever the payload, whatever [json.loads] makes of it and whatever
    [page.update] does, the call returns, unless one of them raises an
    exception that is not an [Exception]. *)
Theorem demo_handler_catches_every_exception msg v :
  fst (on_message app msg v) = Ret tt \/
  exists e, fst (on_message app msg v) = Raise e /\ is_Exception e = false.
Proof. apply on_message_outcome. Qed.

Lemma on_message_shows msg text items k s v :
  decode (payload msg) = Ret text ->
  json_loads (lib app) text = Loaded (JDict items) ->
  find (fun kv => String.eqb (fst kv) "state") items = Some (k, JStr s) ->
  page_update (lib app) (page_updates v) = Ret tt ->
  on_message app msg v =
  (Ret tt,
   {| light_icon_name :=
        if String.eqb (str_upper (lib app) s) "ON"
        then LIGHTBULB else LIGHTBULB_OUTLINE;
      light_icon_color :=
        if String.eqb (str_upper (lib app) s) "ON" then YELLOW_600 else GREY;
      status_text :=
        if String.eqb (str_upper (lib app) s) "ON" then "ON" else "OFF";
      last_updated_text :=
        append "Last update: " (strftime_now (lib app) (page_updates v));
      toggle_button_disabled := false;
      page_updates := S (page_updates v);
      app_log := app_log v |}).
Proof.
  intros Hdecode Hloads Hfind Hupdate.
  unfold on_message. rewrite Hdecode, Hloads.
  unfold se_try, se_bind, se_lift, se_ret. cbn [contains_state get_state].
  rewrite (find_state_present items k (JStr s) Hfind), Hfind.
  rewrite update_ui_string, Hupdate.
  destruct (String.eqb (str_upper (lib app) s) "ON"); reflexivity.
Qed.

(** X17. A message whose payload is a JSON object with a string under
    ["state"] makes the demo show that state, whatever the topic: the status
    reads ON and the bulb is lit when the upper-cased string is ["ON"], and
    the status reads OFF for every other string; the time of the update is
    shown, the toggle button is enabled and the page is rendered once. *)
Theorem state_message_is_shown msg text items k s v :
  decode (payload msg) = Ret text ->
  json_loads (lib app) text = Loaded (JDict items) ->
  find (fun kv => String.eqb (fst kv) "state") items = Some (k, JStr s) ->
  page_update (lib app) (page_updates v) = Ret tt ->
  on_message app msg v =
  (Ret tt,
   {| light_icon_name :=
        if String.eqb (str_upper (lib app) s) "ON"
        then LIGHTBULB else LIGHTBULB_OUTLINE;
      light_icon_color :=
        if String.eqb (str_upper (lib app) s) "ON" then YELLOW_600 else GREY;
      status_text :=
        if String.eqb (str_upper (lib app) s) "ON" then "ON" else "OFF";
      last_updated_text :=
        append "Last update: " (strftime_now (lib app) (page_updates v));
      toggle_button_disabled := false;
      page_updates := S (page_updates v);
      app_log := app_log v |}).
Proof. apply on_message_shows. Qed.

(** X18. Nothing but such a message changes what the demo shows: unless
    the payload decodes to a JSON object with a string under ["state"], the
    widgets and the number of page updates after [on_message] are those
    before it (invalid JSON, other JSON values and a state that is not a
    string only add an error record). *)
Theorem widgets_change_only_on_a_string_state msg v :
  (forall text items k s,
      decode (payload msg) = Ret text ->
      json_loads (lib app) text = Loaded (JDict items) ->
      find (fun kv => String.eqb (fst kv) "state") items <> Some (k, JStr s)) ->
  widgets (snd (on_message app msg v)) = widgets v /\
  page_updates (snd (on_message app msg v)) = page_updates v.
Proof.
  intros Hnot.
  destruct (on_message_cases msg v)
    as [H | (text & items & k & s & Hd & Hl & Hf & _)]; [exact H |].
  now destruct (Hnot text items k s Hd Hl).
Qed.

Lemma on_message_keeps_view_ok msg v :
  view_ok v -> view_ok (snd (on_message app msg v)).
Proof.
  intros Hok.
  destruct (on_message_cases msg v)
    as [[Hw _] | (text & items & k & s & _ & _ & _ & Hw)].
  - unfold view_ok, widgets in *. injection Hw as -> -> -> _ ->. exact Hok.
  - rewrite update_ui_string in Hw. cbn [snd] in Hw.
    unfold view_ok, widgets in *.
    destruct (String.eqb (str_upper (lib app) s) "ON"); cbn in Hw;
      injection Hw as -> -> -> _ ->; auto.
Qed.

(** *** Events on the application *)

Lemma app_event_on_client ev s :
  exists h, fst (app_event app ev s) = run_event (as_client app h) ev (fst s).
Proof.
  unfold app_event, run_event.
  destruct ev as [[rc | msg | rc] | []]; unfold_se; cbn [deliver].
  - exists unused_handler.
    now destruct (_on_connect (as_client app unused_handler) rc (fst s)).
  - unfold dispatch.
    destruct (on_message app msg (snd s)) as [answer v].
    exists (fun _ _ => answer).
    now destruct (_on_message_internal (as_client app (fun _ _ => answer)) msg
                    (fst s)).
  - exists unused_handler. now destruct (_on_disconnect rc (fst s)).
  - exists unused_handler.
    now destruct (start (as_client app unused_handler) (fst s)).
  - exists unused_handler.
    now destruct (stop (as_client app unused_handler) (fst s)).
Qed.

Lemma app_event_view ev s :
  snd (app_event app ev s) = snd s \/
  exists msg, ev = Delivered (On_message msg) /\
              snd (app_event app ev s) = snd (on_message app msg (snd s)).
Proof.
  unfold app_event.
  destruct ev as [[rc | msg | rc] | []]; unfold_se; cbn [deliver].
  - left. now destruct (_on_connect (as_client app unused_handler) rc (fst s)).
  - unfold dispatch.
    destruct (on_message app msg (snd s)) as [answer v] eqn:Hanswer.
    destruct (_on_message_internal (as_client app (fun _ _ => answer)) msg
                (fst s)) as [r c].
    cbn. destruct (utf8_valid (payload msg)); [| now left].
    right. exists msg. now rewrite Hanswer.
  - left. now destruct (_on_disconnect rc (fst s)).
  - left. now destruct (start (as_client app unused_handler) (fst s)).
  - left. now destruct (stop (as_client app unused_handler) (fst s)).
Qed.

Lemma app_events_cons ev evs s :
  app_events app (ev :: evs) s = app_events app evs (app_event app ev s).
Proof. reflexivity. Qed.

Lemma app_event_keeps_view_ok ev s :
  view_ok (snd s) -> view_ok (snd (app_event app ev s)).
Proof.
  intros Hok. destruct (app_event_view ev s) as [-> | (msg & _ & ->)];
    [exact Hok | now apply on_message_keeps_view_ok].
Qed.

Lemma app_events_keep_view_ok evs : forall s,
  view_ok (snd s) -> view_ok (snd (app_events app evs s)).
Proof.
  induction evs as [| ev evs IH]; intros s Hok; [exact Hok |].
  rewrite app_events_cons. now apply IH, app_event_keeps_view_ok.
Qed.

Lemma app_events_app evs1 evs2 s :
  app_events app (evs1 ++ evs2) s = app_events app evs2 (app_events app evs1 s).
Proof. unfold app_events. apply fold_left_app. Qed.

Lemma app_turn_state evs : forall s,
  snd (app_turn app evs s) = app_events app evs s.
Proof.
  induction evs as [| ev evs IH]; intros s; [reflexivity |].
  cbn [app_turn]. rewrite app_events_cons, <- IH.
  now destruct (app_turn app evs (app_event app ev s)).
Qed.

Lemma app_pending_is_a_run window : forall s,
  exists j,
    snd (app_pending app window s)
    = app_events app (List.concat (firstn j window)) s.
Proof.
  induction window as [| turn rest IH]; intros s; [now exists 0%nat |].
  cbn [app_pending].
  pose proof (app_turn_state turn s) as Hstate.
  destruct (app_turn app turn s) as [[] s']; cbn [snd] in *.
  - exists 1%nat. cbn [firstn List.concat]. now rewrite app_nil_r.
  - destruct (IH s') as [j Hj]. exists (S j).
    cbn [firstn List.concat]. rewrite app_events_app. now rewrite <- Hstate.
Qed.

Lemma app_wait_is_a_run window s :
  exists j,
    snd (app_wait app window s)
    = app_events app (List.concat (firstn j window)) s.
Proof.
  unfold app_wait. destruct (connected_event (fst s)); [now exists 0%nat |].
  apply app_pending_is_a_run.
Qed.

Lemma app_wait_when_connected window s :
  connected_event (fst s) = true -> app_wait app window s = (true, s).
Proof. intros Hc. unfold app_wait. now rewrite Hc. Qed.

(** A turn without an accepted connection does not wake the waiter, leaves
    the flag clear and sends nothing. *)
Lemma app_turn_without_acknowledgement evs : forall s,
  connected_event (fst s) = false ->
  ~ In (Delivered (On_connect 0)) evs ->
  fst (app_turn app evs s) = false /\
  connected_event (fst (snd (app_turn app evs s))) = false /\
  publish_calls (calls (fst (snd (app_turn app evs s))))
  = publish_calls (calls (fst s)).
Proof.
  induction evs as [| ev rest IH]; intros s Hclear Hnone; [now split |].
  cbn [app_turn].
  destruct (app_event_on_client ev s) as [h Hclient].
  assert (Hev : connected_event (fst (app_event app ev s)) = false).
  { rewrite Hclient.
    destruct (connected_event (run_event (as_client app h) ev (fst s)))
      eqn:Hset; [| reflexivity].
    exfalso. apply Hnone. left.
    now apply (event_sets_only_on_accept (as_client app h) ev (fst s)). }
  destruct (IH (app_event app ev s) Hev) as (Hquiet & Hc & Hp).
  { intros Hin. apply Hnone. now right. }
  destruct (app_turn app rest (app_event app ev s)) as [woken s'].
  cbn [fst snd] in *. rewrite Hev, Hquiet, andb_false_r.
  split; [reflexivity |]. split; [exact Hc |].
  rewrite Hp, Hclient. apply event_sends_nothing.
Qed.

Lemma app_wait_without_acknowledgement window : forall s,
  connected_event (fst s) = false ->
  ~ In (Delivered (On_connect 0)) (List.concat window) ->
  fst (app_wait app window s) = false /\
  connected_event (fst (snd (app_wait app window s))) = false /\
  publish_calls (calls (fst (snd (app_wait app window s))))
  = publish_calls (calls (fst s)).
Proof.
  intros s Hclear. unfold app_wait. rewrite Hclear. revert s Hclear.
  induction window as [| turn rest IH]; intros s Hclear Hnone; [now split |].
  cbn [app_pending]. cbn [List.concat] in Hnone.
  destruct (app_turn_without_acknowledgement turn s Hclear)
    as (Hquiet & Hc & Hp).
  { intros Hin. apply Hnone. apply in_or_app. now left. }
  destruct (app_turn app turn s) as [woken s']. cbn [fst snd] in *.
  subst woken.
  destruct (IH s' Hc) as (Hquiet' & Hc' & Hp').
  { intros Hin. apply Hnone. apply in_or_app. now right. }
  split; [exact Hquiet' |]. split; [exact Hc' |]. now rewrite Hp'.
Qed.

(** The inherited [publish] once the wait has returned. *)
Lemma app_publish_woken t p q retain window s s1 :
  app_wait app window s = (true, s1) ->
  app_publish app t p q retain window s =
  (fst (publish_now (as_client app unused_handler) t p q retain (fst s1)),
   (snd (publish_now (as_client app unused_handler) t p q retain (fst s1)),
    snd s1)).
Proof.
  intros Hwait. unfold app_publish, inherited. rewrite Hwait. cbn [negb].
  now destruct (publish_now (as_client app unused_handler) t p q retain (fst s1)).
Qed.

Lemma app_publish_timed_out t p q retain window s s1 :
  app_wait app window s = (false, s1) ->
  app_publish app t p q retain window s =
  (Ret tt, (with_log (ERROR, Msg_publish_not_connected) (fst s1), snd s1)).
Proof.
  intros Hwait. unfold app_publish, inherited. now rewrite Hwait.
Qed.

Lemma app_publish_view t p q retain window s :
  snd (snd (app_publish app t p q retain window s))
  = snd (snd (app_wait app window s)).
Proof.
  unfold app_publish, inherited.
  destruct (app_wait app window s) as [connected s1]. cbn [snd].
  now destruct ((if negb connected
                 then logger ERROR Msg_publish_not_connected
                 else publish_now (as_client app unused_handler) t p q retain)
                  (fst s1)).
Qed.

Lemma toggle_unfold window s :
  toggle_light_state_async app window s =
  app_publish app (COMMAND_TOPIC app)
    (PyDict [(PyStr "state",
              PyStr (if String.eqb (status_text (snd s)) "ON"
                     then "OFF" else "ON"))])
    None false window
    (fst s,
     with_app_log
       (INFO,
        Msg_publishing_new_state
          (if String.eqb (status_text (snd s)) "ON" then "OFF" else "ON"))
       (snd s)).
Proof. reflexivity. Qed.

(** X19. The view of the demo is always one of three: nothing shown yet
    with the toggle button disabled, or ON with the bulb lit, or OFF with
    the bulb dark, both with the button enabled.  This holds after
    [_setup_ui] and is kept by [on_message], by every callback and call on
    the application and by [toggle_light_state_async]. *)
Theorem view_is_always_well_formed :
  view_ok _setup_ui /\
  (forall msg v, view_ok v -> view_ok (snd (on_message app msg v))) /\
  (forall evs s, view_ok (snd s) -> view_ok (snd (app_events app evs s))) /\
  (forall window s,
      view_ok (snd s) ->
      view_ok (snd (snd (toggle_light_state_async app window s)))).
Proof.
  split; [left; reflexivity |].
  split; [intros msg v; apply on_message_keeps_view_ok |].
  split; [intros evs s; apply app_events_keep_view_ok |].
  intros window s Hok.
  rewrite toggle_unfold, app_publish_view.
  match goal with
  | |- context [app_wait app window ?s1] =>
    destruct (app_wait_is_a_run window s1) as [j ->];
    now apply app_events_keep_view_ok
  end.
Qed.

(** *** The wrapper under the demo's handler *)

Ltac count_errors :=
  unfold handler_errors; cbn; rewrite ?filter_app, ?length_app; cbn;
  try reflexivity; try lia.

Lemma client_event_logs_no_handler_error (self : FletMQTTClient) ev st :
  (forall msg h,
      ev = Delivered (On_message msg) ->
      on_message_handler self = Some h ->
      h (handled st) msg = Ret tt \/
      exists e, h (handled st) msg = Raise e /\ is_Exception e = false) ->
  handler_errors (run_event self ev st) = handler_errors st.
Proof.
  intros Hanswer. unfold run_event.
  destruct ev as [[rc | msg | rc] | []]; cbn [deliver].
  - unfold _on_connect. destruct (rc =? 0); unfold_monad; [| count_errors].
    destruct (subscribe_topics (config self)) as [| t ts]; [count_errors |].
    unfold modify. cbv beta iota zeta.
    match goal with
    | |- handler_errors (snd (for_each ?l ?body ?s0)) = _ =>
      transitivity (handler_errors s0); [| count_errors];
      apply (for_each_preserves body
               (fun s => handler_errors s = handler_errors s0)); [| reflexivity]
    end.
    intros x s Hs. rewrite <- Hs.
    unfold subscribe_and_log, client_subscribe. unfold_monad. unfold modify.
    destruct (paho_subscribe (world self) (calls s) x (qos (config self)))
      as [[] | e]; count_errors.
  - unfold _on_message_internal, call_handler, on_message. unfold_monad.
    destruct (decode (payload msg)) as [text | e]; [| reflexivity].
    destruct (on_message_handler self) as [h |] eqn:Hh; [| count_errors].
    destruct (Hanswer msg h eq_refl eq_refl) as [Hret | (e & Hraise & Hexc)].
    + cbn in *. rewrite Hret. count_errors.
    + cbn in *. rewrite Hraise. cbn. rewrite Hexc. count_errors.
  - unfold _on_disconnect. unfold_monad.
    destruct (rc =? 0); count_errors.
  - unfold start, client_connect, await_run_task. unfold_monad.
    destruct (_is_running st); [count_errors |]. cbn.
    repeat match goal with
           | |- context [paho_connect ?w ?h ?a ?b ?c] =>
             destruct (paho_connect w h a b c) as [[] | ?e]; cbn
           | |- context [page_run_task ?w ?n] =>
             destruct (page_run_task w n) as [[] | ?e]; cbn
           | |- context [await_task_handle ?w ?n] =>
             destruct (await_task_handle w n) as [[] | ?e]; cbn
           | |- context [is_OSError ?e] => destruct (is_OSError e); cbn
           | |- context [is_Exception ?e] => destruct (is_Exception e); cbn
           end; count_errors.
  - unfold stop, client_disconnect. unfold_monad.
    destruct (_is_running st); [| reflexivity]. cbn.
    destruct (paho_disconnect (world self) (calls st)) as [[] | e];
      count_errors.
Qed.

Lemma app_event_logs_no_handler_error ev s :
  handler_errors (fst (app_event app ev s)) = handler_errors (fst s).
Proof.
  assert (Hquiet : forall c,
             handler_errors (run_event (as_client app unused_handler) ev c)
             = handler_errors c).
  { intros c. apply client_event_logs_no_handler_error.
    intros msg h _ Hh. injection Hh as <-. now left. }
  unfold app_event.
  destruct ev as [[rc | msg | rc] | []]; unfold_se; cbn [deliver];
    try (specialize (Hquiet (fst s)); unfold run_event in Hquiet;
         cbn [deliver] in Hquiet;
         match goal with
         | |- context [let (_, _) := ?m in _] => destruct m as [r c]
         end; exact Hquiet).
  unfold dispatch.
  destruct (on_message app msg (snd s)) as [answer v] eqn:Hanswer.
  pose proof (client_event_logs_no_handler_error
                (as_client app (fun _ _ => answer))
                (Delivered (On_message msg)) (fst s)) as Hlog.
  unfold run_event in Hlog. cbn [deliver] in Hlog.
  destruct (_on_message_internal (as_client app (fun _ _ => answer)) msg
              (fst s)) as [r c].
  apply Hlog. intros msg' h _ Hh. injection Hh as <-.
  pose proof (on_message_outcome msg (snd s)) as Hout.
  rewrite Hanswer in Hout. exact Hout.
Qed.

(** X16. With the demo's [on_message] as the handler, the failure boundary
    of the inherited dispatcher is never used: whatever callbacks arrive and
    whatever the application calls, the wrapper writes no handler-error
    record, because [on_message] has caught the error itself. *)
Theorem demo_never_logs_a_handler_error evs : forall s,
  handler_errors (fst (app_events app evs s)) = handler_errors (fst s).
Proof.
  induction evs as [| ev evs IH]; intros s; [reflexivity |].
  rewrite app_events_cons, IH. apply app_event_logs_no_handler_error.
Qed.

(** *** [toggle_light_state_async] *)

Lemma publish_now_state (self : FletMQTTClient) t key value q retain text st :
  json_dumps (world self) (PyDict [(PyStr key, PyStr value)]) = Ret text ->
  calls (snd (publish_now self t (PyDict [(PyStr key, PyStr value)]) q retain st))
  = calls st
    ++ [Call_publish t (PyStr text)
          (match q with Some q' => q' | None => qos (config self) end) retain] /\
  connected_event
    (snd (publish_now self t (PyDict [(PyStr key, PyStr value)]) q retain st))
  = connected_event st /\
  _is_running
    (snd (publish_now self t (PyDict [(PyStr key, PyStr value)]) q retain st))
  = _is_running st /\
  fst (publish_now self t (PyDict [(PyStr key, PyStr value)]) q retain st)
  = match paho_publish (world self) (calls st) t (PyStr text)
            (match q with Some q' => q' | None => qos (config self) end) retain
    with
    | Ret _ => Ret tt
    | Raise e => Raise e
    end.
Proof.
  intros Hdumps. unfold publish_now, client_publish. unfold_monad.
  unfold modify. rewrite serialize_payload_spec. cbn. rewrite Hdumps.
  destruct (paho_publish (world self) (calls st) t (PyStr text) _ retain)
    as [rc | e]; [destruct (rc =? MQTT_ERR_SUCCESS) |];
    cbn; repeat split.
Qed.

(** X20. On a connected client, [toggle_light_state_async] publishes the
    opposite of what the status shows: ["OFF"] when it reads ON, and ["ON"]
    otherwise, also before any state has arrived.  It makes one send call,
    on the command topic, with the JSON text of the one-member object, at
    the default QoS 0 and without the retain flag; it logs what it
    publishes and leaves the widgets as they are. *)
Theorem toggle_publishes_the_opposite_state window s text :
  connected_event (fst s) = true ->
  json_dumps (net app)
    (PyDict [(PyStr "state",
              PyStr (if String.eqb (status_text (snd s)) "ON"
                     then "OFF" else "ON"))]) = Ret text ->
  calls (fst (snd (toggle_light_state_async app window s))) =
    calls (fst s) ++ [Call_publish (COMMAND_TOPIC app) (PyStr text) 0 false] /\
  widgets (snd (snd (toggle_light_state_async app window s))) = widgets (snd s) /\
  app_log (snd (snd (toggle_light_state_async app window s))) =
    app_log (snd s)
    ++ [(INFO,
         Msg_publishing_new_state
           (if String.eqb (status_text (snd s)) "ON" then "OFF" else "ON"))].
Proof.
  intros Hconnected Hdumps.
  rewrite toggle_unfold.
  match goal with
  | |- context [app_publish app ?t ?p ?q ?r window ?s1] =>
    rewrite (app_publish_woken t p q r window s1 s1
               (app_wait_when_connected window s1 Hconnected))
  end.
  cbn [fst snd].
  destruct (publish_now_state (as_client app unused_handler)
              (COMMAND_TOPIC app) "state"
              (if String.eqb (status_text (snd s)) "ON" then "OFF" else "ON")
              None false text (fst s) Hdumps) as (Hcalls & _).
  split; [exact Hcalls |]. split; reflexivity.
Qed.

(** X21. The toggle and its echo: when the payload that
    [toggle_light_state_async] published comes back in a message, on
    whatever topic, the status shows the state that was published and the
    toggle button is enabled.  The JSON library is assumed to read back what
    it wrote, and [str.upper] to keep ["ON"] and ["OFF"]. *)
Theorem toggle_echo_shows_the_new_state window s text msg :
  connected_event (fst s) = true ->
  json_dumps (net app)
    (PyDict [(PyStr "state",
              PyStr (if String.eqb (status_text (snd s)) "ON"
                     then "OFF" else "ON"))]) = Ret text ->
  payload msg = list_byte_of_string text ->
  utf8_valid (payload msg) = true ->
  json_loads (lib app) text =
    Loaded (JDict [("state",
                    JStr (if String.eqb (status_text (snd s)) "ON"
                          then "OFF" else "ON"))]) ->
  str_upper (lib app) "ON" = "ON" ->
  str_upper (lib app) "OFF" = "OFF" ->
  page_update (lib app) (page_updates (snd s)) = Ret tt ->
  let s1 := snd (toggle_light_state_async app window s) in
  let s2 := app_event app (Delivered (On_message msg)) s1 in
  status_text (snd s2) =
    (if String.eqb (status_text (snd s)) "ON" then "OFF" else "ON") /\
  toggle_button_disabled (snd s2) = false /\
  calls (fst s2) = calls (fst s1).
Proof.
  intros Hconnected Hdumps Hpayload Hvalid Hloads Hon Hoff Hupdate s1 s2.
  assert (Hview : snd s1 =
                  with_app_log
                    (INFO,
                     Msg_publishing_new_state
                       (if String.eqb (status_text (snd s)) "ON"
                        then "OFF" else "ON")) (snd s)).
  { subst s1. rewrite toggle_unfold.
    match goal with
    | |- context [app_publish app ?t ?p ?q ?r window ?s1] =>
      now rewrite (app_publish_woken t p q r window s1 s1
                     (app_wait_when_connected window s1 Hconnected))
    end. }
  assert (Hdecode : decode (payload msg) = Ret text).
  { unfold decode. rewrite Hvalid, Hpayload.
    now rewrite string_of_list_byte_of_string. }
  subst s2. unfold app_event, dispatch.
  rewrite (on_message_shows msg text _ "state" _ (snd s1) Hdecode Hloads
             eq_refl) by (rewrite Hview; exact Hupdate).
  destruct (dispatch_frame (as_client app (fun _ _ => Ret tt)) msg (fst s1))
    as (_ & _ & Hcalls & _).
  destruct (_on_message_internal _ msg (fst s1)) as [r c]. cbn [fst snd] in *.
  rewrite Hvalid. cbn [status_text toggle_button_disabled].
  split; [| split; [reflexivity | exact Hcalls]].
  destruct (String.eqb (status_text (snd s)) "ON").
  - rewrite Hoff. reflexivity.
  - rewrite Hon. reflexivity.
Qed.

(** *** [main] *)

Lemma main_unfold window s :
  main app window s =
  match start (as_client app unused_handler) (fst s) with
  | (Ret _, c) =>
    app_publish app (STATE_TOPIC app) (PyDict [(PyStr "state", PyStr "OFF")])
                None true window (c, snd s)
  | (Raise e, c) => (Raise e, (c, snd s))
  end.
Proof.
  unfold main. unfold_se.
  destruct (start (as_client app unused_handler) (fst s)) as [[[] | e] c];
    reflexivity.
Qed.

(** [start] returns whenever what its [try] body raises is an
    [Exception]. *)
Lemma start_returns (self : FletMQTTClient) st :
  _is_running st = false ->
  (forall e, start_raises self st = Some e -> is_Exception e = true) ->
  fst (start self st) = Ret tt.
Proof.
  intros Hstopped Hexc.
  pose proof (start_outcome self st Hstopped) as Hout.
  destruct (start_raises self st) as [e |]; [| apply Hout].
  rewrite (Hexc e eq_refl) in Hout. apply Hout.
Qed.


(** X23. When the broker cannot be reached, [main] does not fail: [start]
    logs the error of [connect], and the first publish, for which no
    acknowledgement arrives, waits for its timeout, logs that the client is
    not connected and is dropped.  Nothing is ever sent. *)
Theorem main_survives_an_unreachable_broker window e :
  paho_connect (net app) [] BROKER_HOST 1883 60 = Raise e ->
  is_Exception e = true ->
  ~ In (Delivered (On_connect 0)) (List.concat window) ->
  fst (main app window (new_app app)) = Ret tt /\
  publish_calls (calls (fst (snd (main app window (new_app app))))) = [] /\
  exists earlier,
    log (fst (snd (main app window (new_app app)))) =
    earlier ++ [(ERROR, Msg_publish_not_connected)].
Proof.
  intros Hraise Hexc Hnone.
  rewrite main_unfold.
  assert (Hret : fst (start (as_client app unused_handler) (fst (new_app app)))
                 = Ret tt).
  { apply start_returns; [reflexivity |].
    unfold start_raises. cbn. rewrite Hraise.
    intros e' He. now injection He as <-. }
  destruct (start_calls_connect (as_client app unused_handler)
              (fst (new_app app)) eq_refl) as (Hcalls & Hclear).
  destruct (start (as_client app unused_handler) (fst (new_app app)))
    as [[[] | e'] c]; [| discriminate].
  cbn [fst snd] in *.
  destruct (app_wait_without_acknowledgement window (c, snd (new_app app))
              Hclear Hnone) as (Hquiet & _ & Hsent).
  destruct (app_wait app window (c, snd (new_app app))) as [woken s1] eqn:Hwait.
  cbn [fst snd] in Hquiet, Hsent. subst woken.
  rewrite Hcalls in Hsent. cbn in Hsent.
  rewrite (app_publish_timed_out _ _ _ _ _ _ _ Hwait).
  cbn [fst snd]. split; [reflexivity |]. split; [exact Hsent |].
  eexists. reflexivity.
Qed.

(** *** [on_window_destroy] *)


End Application.

(** * The wrapper on the demo configuration *)

Import Doubles.

(** [start()] on the page of Flet: the loop is handed to the page and the
    client is running, but the [await] of what [page.run_task] returned
    has raised, which [start] has caught and logged. *)
Example started_is_running :
  _is_running started = true /\ connected_event started = false /\
  scheduled started = 1%nat /\
  calls started = [Call_connect "broker.hivemq.com" 1883 60] /\
  log started =
    [(INFO, Msg_starting); (ERROR, Msg_unexpected_error not_awaitable)].
Proof. repeat split. Qed.

Example connected_has_subscribed :
  connected_event connected = true /\
  calls connected =
    [Call_connect "broker.hivemq.com" 1883 60;
     Call_subscribe "demo/light/state" 0;
     Call_subscribe "demo/light/set" 0].
Proof. repeat split. Qed.

(** The first publish of the demo, [publish(STATE_TOPIC, {"state": "OFF"},
    retain=True)], on the connected client. *)
Example demo_publish_state_off :
  publish_calls
    (calls (snd (publish demo "demo/light/state"
                   (PyDict [(PyStr "state", PyStr "OFF")]) None true []
                   connected))) =
  [Call_publish "demo/light/state"
     (PyStr (append "{" (append (quoted "state")
               (append ": " (append (quoted "OFF") "}")))))
     0 true].
Proof. reflexivity. Qed.

Example accepted_connection_on_test_broker :
  let st := snd (_on_connect test_broker 0
                   (__init__ test_broker)) in
  connected_event st = true /\ calls st = [Call_subscribe "a/b" 0].
Proof. split; reflexivity. Qed.

(** [stop()] then [start()]: a new acknowledgement makes the client able to
    publish again. *)
Example stop_then_start_publishes_again :
  let st := run_events demo
              [Called App_stop; Called App_start; Delivered (On_connect 0)]
              connected in
  _is_running st = true /\ connected_event st = true /\
  publish_calls
    (calls (snd (publish demo "demo/light/set"
                   (PyStr "ON") None false [] st))) =
  [Call_publish "demo/light/set" (PyStr "ON") 0 false].
Proof. repeat split. Qed.

(** A failed enqueue is logged and the call returns. *)
Example failed_enqueue_is_logged :
  let r := publish not_enqueuing "demo/light/set"
             (PyStr "ON") None false [] connected in
  fst r = Ret tt /\
  last (log (snd r)) (INFO, Msg_starting) =
    (ERROR, Msg_queue_failed "demo/light/set").
Proof. split; reflexivity. Qed.

(** A publish that waits is resumed at the end of the network step that
    set the flag: when the same step has delivered a disconnect after the
    acknowledgement, the message is sent although the flag is clear
    again. *)
Example publish_resumes_after_the_network_step :
  let r := publish demo "demo/light/set" (PyStr "ON") None false
             [[Delivered (On_connect 0); Delivered (On_disconnect 7)]]
             started in
  fst r = Ret tt /\
  connected_event (snd r) = false /\
  publish_calls (calls (snd r))
  = [Call_publish "demo/light/set" (PyStr "ON") 0 false].
Proof. repeat split. Qed.

(** The topic checks of the protocol client. *)
Example wildcards_are_checked :
  checked_subscribe "demo/+/state" 0 = Ret tt /\
  checked_subscribe "demo/#" 0 = Ret tt /\
  checked_subscribe "demo/#/state" 0
  = Raise (mk_exn ValueError "Invalid subscription filter.") /\
  checked_subscribe "demo/a+/state" 0
  = Raise (mk_exn ValueError "Invalid subscription filter.") /\
  checked_publish 0 "demo/+/state" (PyStr "ON") 0
  = Raise (mk_exn ValueError "Publish topic cannot contain wildcards.").
Proof. repeat split. Qed.

Example dumps_nested :
  py_json_dumps (PyDict [(PyStr "v", PyInt 1);
                         (PyInt 2, PyList [PyNone; PyBool true; PyInt (-4)])]) =
  Ret (append "{" (append (quoted "v") (append ": 1, "
         (append (quoted "2") ": [null, true, -4]}")))).
Proof. reflexivity. Qed.

Example dumps_tuple_and_float :
  py_json_dumps (PyTuple [PyFloat "1.5"; PyFloat "nan"; PyStr "x"]) =
  Ret (append "[1.5, NaN, " (append (quoted "x") "]")) /\
  py_json_dumps (PyList [PyObject "set"]) = Raise (not_serializable "set").
Proof. split; reflexivity. Qed.

Example decode_rejects_overlong : utf8_valid [xc0; x80] = false.
Proof. reflexivity. Qed.

Example decode_rejects_surrogate : utf8_valid [xed; xa0; x80] = false.
Proof. reflexivity. Qed.

Example decode_accepts_euro_sign : utf8_decode [226; 130; 172]%N = Some [8364%N].
Proof. reflexivity. Qed.

(** * The results at concrete inputs *)

Import Scenarios.


(** C2 as the specification words it fails: [stop()] on a running client
    does not clear the connected condition when the protocol client's
    [disconnect] raises.  After [start()], an accepted connection and
    [stop()], the [stop()] call has raised, the client is stopped and the
    condition is still true. *)
Lemma stop_leaves_connected_when_disconnect_raises :
  _is_running
    (run_events not_disconnecting [Called App_start; Delivered (On_connect 0)]
       (__init__ not_disconnecting)) = true /\
  fst (stop not_disconnecting
         (run_events not_disconnecting
            [Called App_start; Delivered (On_connect 0)]
            (__init__ not_disconnecting))) = Raise broken_pipe /\
  _is_running
    (run_events not_disconnecting
       [Called App_start; Delivered (On_connect 0); Called App_stop]
       (__init__ not_disconnecting)) = false /\
  connected_event
    (run_events not_disconnecting
       [Called App_start; Delivered (On_connect 0); Called App_stop]
       (__init__ not_disconnecting)) = true.
Proof. repeat split. Qed.

(** C3 as the specification words it fails: a configuration with three
    topics, the second of which the protocol client rejects, gets two
    subscribe calls from an accepted connection, not three. *)
Lemma rejected_topic_ends_the_subscriptions :
  List.length (subscribe_topics bad_topic_config) = 3%nat /\
  fst (_on_connect bad_topic 0 (__init__ bad_topic))
  = Raise (mk_exn ValueError "Invalid topic.") /\
  calls (snd (_on_connect bad_topic 0 (__init__ bad_topic)))
  = [Call_subscribe "demo/light/state" 1; Call_subscribe "" 1].
Proof. repeat split. Qed.

(** C4 as the specification words it fails: on the connected demo client,
    a [publish] of a dict that holds a [bytes] value does not call the send
    primitive at all. *)
Lemma unserializable_payload_is_never_sent :
  connected_event connected = true /\
  fst (publish demo "demo/light/set"
         (PyDict [(PyStr "state", PyBytes (bytes_of "ON"))]) None false []
         connected) = Raise (not_serializable "bytes") /\
  publish_calls
    (calls (snd (publish demo "demo/light/set"
                   (PyDict [(PyStr "state", PyBytes (bytes_of "ON"))])
                   None false [] connected))) = [].
Proof. repeat split. Qed.

(** C6 as the specification words it fails: a tuple is a sequence, and one
    that [json.dumps] would serialize, but [publish] hands it to the send
    primitive as it is, which the protocol client rejects. *)
Lemma tuple_payload_is_not_serialized :
  spec_structured (PyTuple [PyStr "ON"; PyInt 1]) = true /\
  py_json_dumps (PyTuple [PyStr "ON"; PyInt 1])
  = Ret (append "[" (append (quoted "ON") ", 1]")) /\
  publish_calls
    (calls (snd (publish demo "demo/light/set"
                   (PyTuple [PyStr "ON"; PyInt 1]) None false []
                   connected)))
  = [Call_publish "demo/light/set" (PyTuple [PyStr "ON"; PyInt 1]) 0 false] /\
  fst (publish demo "demo/light/set"
         (PyTuple [PyStr "ON"; PyInt 1]) None false [] connected)
  = Raise (mk_exn TypeError
             "payload must be a string, bytearray, int, float or None.").
Proof. repeat split. Qed.

(** C7 as the specification words it fails: a handler that raises
    [SystemExit] is not contained.  The exception leaves the dispatch
    callback without an error record, and it ends the background loop. *)
Lemma system_exit_is_not_contained :
  fst (_on_message_internal exiting (state_message "ON") connected)
  = Raise system_exit /\
  handler_errors
    (snd (_on_message_internal exiting (state_message "ON") connected))
  = handler_errors connected /\
  fst (_background_loop exiting
         [([On_message (state_message "ON")], [])] connected)
  = Raise system_exit.
Proof. repeat split. Qed.

Lemma connected_only_between_accept_and_disconnect_witness :
  connected_event (snd (_on_connect demo 0 started)) = true /\
  (3 <> 0 /\
   exists st', _on_connect demo 3 connected = (Ret tt, st') /\
               connected_event st' = false) /\
  (exists st', _on_disconnect 1 connected = (Ret tt, st') /\
               connected_event st' = false) /\
  (_is_running connected = true /\
   fst (stop demo connected) = Ret tt /\
   connected_event (snd (stop demo connected)) = false) /\
  (connected_event started = false /\
   connected_event
     (run_events demo
        [Delivered (On_disconnect 1); Delivered (On_connect 0);
         Delivered (On_message (state_message "ON")); Called App_start]
        started) = true).
Proof.
  pose proof (connected_only_between_accept_and_disconnect demo)
    as (Haccept & Hrefused & Hdisconnect & Hstop & _ & _ & _ & _ & _ & _
        & Hbetween).
  split; [apply Haccept |].
  split; [split; [discriminate | apply Hrefused; discriminate] |].
  split; [apply Hdisconnect |].
  split; [split; [reflexivity | apply (Hstop connected); reflexivity] |].
  split; [reflexivity |].
  apply (Hbetween _ started eq_refl).
  exists [Delivered (On_disconnect 1)],
         [Delivered (On_message (state_message "ON")); Called App_start].
  split; reflexivity.
Defined.

Lemma connect_accepted_subscribes_in_order_witness :
  (forall done t rest,
      subscribe_topics demo_config = done ++ t :: rest ->
      paho_subscribe (world demo)
        (calls started ++ map (fun t' => Call_subscribe t' (qos demo_config)) done)
        t (qos demo_config) = Ret tt) /\
  (exists st',
      _on_connect demo 0 started = (Ret tt, st') /\
      connected_event st' = true /\
      calls st' =
        calls started
        ++ map (fun t => Call_subscribe t (qos demo_config))
               (subscribe_topics demo_config) /\
      List.length (calls st') =
        (List.length (calls started)
         + List.length (subscribe_topics demo_config))%nat /\
      (subscribe_topics demo_config = [] -> calls st' = calls started)) /\
  (exists st',
      _on_connect bad_topic 0 (__init__ bad_topic)
      = (Raise (mk_exn ValueError "Invalid topic."), st') /\
      connected_event st' = true /\
      calls st' =
        calls (__init__ bad_topic)
        ++ map (fun x => Call_subscribe x (qos bad_topic_config))
               (["demo/light/state"] ++ [""]) /\
      List.length (calls st') =
        (List.length (calls (__init__ bad_topic))
         + List.length ["demo/light/state"] + 1)%nat).
Proof.
  assert (Hreturns : forall done t rest,
             subscribe_topics demo_config = done ++ t :: rest ->
             paho_subscribe (world demo)
               (calls started
                ++ map (fun t' => Call_subscribe t' (qos demo_config)) done)
               t (qos demo_config) = Ret tt).
  { intros done t rest Htopics.
    destruct done as [| t0 [| t1 [| t2 done]]]; cbn in Htopics;
      inversion Htopics; subst; reflexivity. }
  split; [exact Hreturns |]. split.
  - exact (proj1 (connect_accepted_subscribes_in_order demo started) Hreturns).
  - apply (proj1 (proj2 (connect_accepted_subscribes_in_order bad_topic
                           (__init__ bad_topic)))
             ["demo/light/state"] "" ["demo/light/set"]).
    + reflexivity.
    + intros before t' after Hdone.
      destruct before as [| b0 [| b1 before]]; cbn in Hdone;
        inversion Hdone; subst; reflexivity.
    + reflexivity.
Defined.

Lemma publish_sends_once_when_connected_witness :
  (exists k,
      connected_event
        (run_events demo
           (firstn k (List.concat [[Delivered (On_connect 0)]])) started)
      = true) /\
  (exists s, py_json_dumps (PyDict [(PyStr "state", PyStr "OFF")]) = Ret s) /\
  exists p',
    publish_calls
      (calls (snd (publish demo "demo/light/state"
                     (PyDict [(PyStr "state", PyStr "OFF")]) None true
                     [[Delivered (On_connect 0)]] started))) =
    publish_calls (calls started)
    ++ [Call_publish "demo/light/state" p' (qos demo_config) true].
Proof.
  assert (Hk : exists k,
             connected_event
               (run_events demo
                  (firstn k (List.concat [[Delivered (On_connect 0)]]))
                  started) = true)
    by (exists 1%nat; reflexivity).
  assert (Hs : exists s,
             py_json_dumps (PyDict [(PyStr "state", PyStr "OFF")]) = Ret s)
    by (eexists; reflexivity).
  split; [exact Hk |]. split; [exact Hs |].
  exact (proj1 (publish_sends_once_when_connected demo
                  "demo/light/state" (PyDict [(PyStr "state", PyStr "OFF")])
                  None true [[Delivered (On_connect 0)]] started Hk)
           (fun _ => Hs)).
Defined.

Lemma publish_dropped_when_never_connected_witness :
  (forall k,
      connected_event
        (run_events demo
           (firstn k (List.concat
                        [[Delivered (On_disconnect 1)]; [Called App_stop]]))
           started)
      = false) /\
  exists st',
    publish demo "demo/light/set" (PyStr "ON")
            (Some 1) false [[Delivered (On_disconnect 1)]; [Called App_stop]]
            started
    = (Ret tt, st') /\
    log st' =
      log (run_events demo
             (List.concat [[Delivered (On_disconnect 1)]; [Called App_stop]])
             started)
      ++ [(ERROR, Msg_publish_not_connected)] /\
    calls st' =
      calls (run_events demo
               (List.concat [[Delivered (On_disconnect 1)]; [Called App_stop]])
               started) /\
    publish_calls (calls st') = publish_calls (calls started) /\
    (forall later,
        publish_calls
          (calls (run_events demo later st')) =
        publish_calls (calls started)).
Proof.
  assert (Hnever : forall k,
             connected_event
               (run_events demo
                  (firstn k (List.concat
                               [[Delivered (On_disconnect 1)];
                                [Called App_stop]]))
                  started) = false)
    by (intros [| [| [| k]]]; reflexivity).
  split; [exact Hnever |].
  exact (publish_dropped_when_never_connected demo
           "demo/light/set" (PyStr "ON") (Some 1) false
           [[Delivered (On_disconnect 1)]; [Called App_stop]] started Hnever).
Defined.

Lemma publish_payload_on_the_wire_witness :
  (exists k,
      connected_event
        (run_events demo (firstn k (List.concat [])) connected)
      = true) /\
  publish_calls
    (calls (snd (publish demo "x/y"
                   (PyDict [(PyStr "v", PyInt 1)]) None true [] connected))) =
  publish_calls (calls connected)
  ++ [Call_publish "x/y" (PyStr (append "{" (append (quoted "v") ": 1}")))
        (qos demo_config) true] /\
  publish_calls
    (calls (snd (publish demo "x/y"
                   (PyBytes (bytes_of "ON")) (Some 1) false [] connected))) =
  publish_calls (calls connected)
  ++ [Call_publish "x/y" (PyBytes (bytes_of "ON")) 1 false] /\
  publish_calls
    (calls (snd (publish demo "x/y"
                   (PyTuple [PyStr "ON"]) None false [] connected))) =
  publish_calls (calls connected)
  ++ [Call_publish "x/y" (PyTuple [PyStr "ON"]) (qos demo_config) false].
Proof.
  assert (Hk : exists k,
             connected_event
               (run_events demo (firstn k (List.concat []))
                  connected) = true)
    by (exists 0%nat; reflexivity).
  split; [exact Hk |]. split; [| split].
  - apply (proj1 (publish_payload_on_the_wire demo
                    "x/y" (PyDict [(PyStr "v", PyInt 1)]) None true []
                    connected Hk));
      reflexivity.
  - apply (proj2 (proj2
             (publish_payload_on_the_wire demo
                "x/y" (PyBytes (bytes_of "ON")) (Some 1) false []
                connected Hk))).
    reflexivity.
  - apply (proj2 (proj2
             (publish_payload_on_the_wire demo
                "x/y" (PyTuple [PyStr "ON"]) None false []
                connected Hk))).
    reflexivity.
Defined.

Lemma handler_exception_is_contained_witness :
  (decode (payload (state_message "ON")) = Ret "ON" /\
   failing_handler (handled connected) (state_message "ON") =
     Raise (mk_exn OtherException "handler failed") /\
   is_Exception (mk_exn OtherException "handler failed") = true) /\
  _on_message_internal failing (state_message "ON") connected =
  (Ret tt,
   with_log (ERROR,
             Msg_handler_error (mk_exn OtherException "handler failed"))
     (with_handled (state_message "ON")
        (with_log (INFO, Msg_received "demo/light/state" "ON") connected))) /\
  _on_message_internal exiting (state_message "ON") connected =
  (Raise system_exit,
   with_handled (state_message "ON")
     (with_log (INFO, Msg_received "demo/light/state" "ON") connected)) /\
  exists st',
    _background_loop failing
      [([On_message (state_message "ON"); On_message (state_message "OFF")], []);
       ([On_message (state_message "ON")], [])] connected = (Ret Alive, st') /\
    _is_running st' = true /\
    handled st' =
      handled connected
      ++ [state_message "ON"; state_message "OFF"; state_message "ON"] /\
    handler_errors st' = (handler_errors connected + 3)%nat.
Proof.
  pose proof (handler_exception_is_contained failing failing_handler eq_refl)
    as (Hone & _ & Hloop).
  pose proof (handler_exception_is_contained exiting exiting_handler eq_refl)
    as (_ & Hexit & _).
  split; [repeat split |]. split; [| split].
  - apply Hone; reflexivity.
  - apply Hexit; reflexivity.
  - apply (Hloop (fun _ _ => ex_intro _ _ (conj eq_refl eq_refl))
             [([On_message (state_message "ON");
                On_message (state_message "OFF")], []);
              ([On_message (state_message "ON")], [])] connected eq_refl).
    intros cbs during_sleep [Heq | [Heq | []]]; inversion Heq; subst;
      (split; [reflexivity |]);
      intros cb Hin; cbn in Hin;
      repeat (destruct Hin as [<- | Hin]; [eexists; split; reflexivity |]);
      contradiction.
Defined.

Lemma start_connect_failure_leaves_stopped_witness :
  (_is_running fresh = false /\
   paho_connect (world unreachable) (calls fresh) (broker_host demo_config)
                (broker_port demo_config) (keepalive demo_config)
   = Raise connection_refused /\
   is_Exception connection_refused = true) /\
  exists st',
    start unreachable fresh = (Ret tt, st') /\
    _is_running st' = false /\
    scheduled st' = scheduled fresh /\
    log st' =
      log fresh
      ++ [(INFO, Msg_starting);
          (ERROR, Msg_could_not_connect "broker.hivemq.com" connection_refused)].
Proof.
  split; [repeat split |].
  apply (start_connect_failure_leaves_stopped unreachable
           connection_refused fresh); reflexivity.
Defined.

Lemma stop_never_unblocks_publish_witness :
  (connected_event started = false /\
   connected_event (snd (stop demo started)) = false) /\
  (~ In (Delivered (On_connect 0))
        (List.concat [[Called App_stop]; [Called App_stop]])) /\
  exists st',
    publish demo "demo/light/set" (PyStr "ON") None
            false [[Called App_stop]; [Called App_stop]] started
    = (Ret tt, st') /\
    log st' =
      log (run_events demo
             (List.concat [[Called App_stop]; [Called App_stop]]) started)
      ++ [(ERROR, Msg_publish_not_connected)] /\
    publish_calls (calls st') = publish_calls (calls started).
Proof.
  pose proof (stop_never_unblocks_publish demo)
    as [Hstop Hwait].
  assert (Hnoack : ~ In (Delivered (On_connect 0))
                        (List.concat [[Called App_stop]; [Called App_stop]]))
    by (intros [Heq | [Heq | []]]; discriminate).
  split; [split; [reflexivity | apply Hstop; reflexivity] |].
  split; [exact Hnoack |].
  apply Hwait; [reflexivity | exact Hnoack].
Defined.

Lemma undecodable_payload_escapes_dispatch_witness :
  utf8_valid [x4f; xff] = false /\
  _on_message_internal failing
    {| topic := "demo/light/state"; payload := [x4f; xff] |} connected =
  (Raise undecodable, connected).
Proof.
  split; [reflexivity |].
  apply (undecodable_payload_escapes_dispatch failing
           {| topic := "demo/light/state"; payload := [x4f; xff] |} connected).
  reflexivity.
Defined.


(** * The lifecycle results at concrete inputs *)

Lemma start_on_a_stopped_client_witness :
  _is_running fresh = false /\
  calls (snd (start demo fresh)) = [Call_connect "broker.hivemq.com" 1883 60] /\
  _is_running (snd (start unreachable fresh)) = false /\
  scheduled (snd (start demo fresh)) = 1%nat.
Proof.
  pose proof (start_on_a_stopped_client demo fresh eq_refl)
    as (Hcalls & _ & _ & _ & Hscheduled).
  pose proof (start_on_a_stopped_client unreachable fresh eq_refl)
    as (_ & _ & _ & Hrunning & _).
  split; [reflexivity |]. split; [exact Hcalls |].
  split; [exact Hrunning | exact Hscheduled].
Defined.

Lemma start_twice_connects_once_witness :
  (_is_running fresh = false /\
   paho_connect (world demo) (calls fresh) (broker_host (config demo))
                (broker_port (config demo)) (keepalive (config demo)) = Ret tt) /\
  start demo started = (Ret tt, with_log (WARNING, Msg_already_running) started).
Proof.
  split; [split; reflexivity |].
  exact (start_twice_connects_once demo fresh eq_refl eq_refl).
Defined.

Lemma stop_on_a_running_client_witness :
  _is_running connected = true /\
  calls (snd (stop demo connected)) = calls connected ++ [Call_disconnect] /\
  _is_running (snd (stop demo connected)) = false /\
  connected_event (snd (stop demo connected)) = false.
Proof.
  pose proof (stop_on_a_running_client demo connected eq_refl)
    as (Hcalls & Hstopped & _ & Hclear & _).
  split; [reflexivity |]. split; [exact Hcalls |].
  split; [exact Hstopped | exact Hclear].
Defined.

Lemma disconnect_event_blocks_restart_witness :
  _is_running connected = true /\
  exists st1,
    _on_disconnect 7 connected = (Ret tt, st1) /\
    _is_running st1 = true /\
    connected_event st1 = false /\
    log st1 = log connected ++ [(WARNING, Msg_unexpected_disconnect)] /\
    start demo st1 = (Ret tt, with_log (WARNING, Msg_already_running) st1).
Proof.
  split; [reflexivity |].
  exact (disconnect_event_blocks_restart demo 7 connected eq_refl).
Defined.

Lemma stop_then_start_reconnects_witness :
  _is_running connected = true /\
  calls (snd (start demo (snd (stop demo connected)))) =
    calls connected
    ++ [Call_disconnect; Call_connect "broker.hivemq.com" 1883 60] /\
  _is_running (snd (start demo (snd (stop demo connected)))) = true.
Proof.
  pose proof (stop_then_start_reconnects demo connected eq_refl)
    as (Hcalls & _ & Hrunning).
  split; [reflexivity |]. split; [exact Hcalls |].
  apply Hrunning. reflexivity.
Defined.

Lemma subscribe_failure_skips_later_topics_witness :
  subscribe_topics (config bad_topic)
  = ["demo/light/state"] ++ "" :: ["demo/light/set"] /\
  exists st',
    _on_connect bad_topic 0 (__init__ bad_topic)
    = (Raise (mk_exn ValueError "Invalid topic."), st') /\
    connected_event st' = true /\
    calls st' = [Call_subscribe "demo/light/state" 1; Call_subscribe "" 1].
Proof.
  split; [reflexivity |].
  apply (subscribe_failure_skips_later_topics bad_topic
           ["demo/light/state"] "" ["demo/light/set"]
           (mk_exn ValueError "Invalid topic.") (__init__ bad_topic) eq_refl);
    [| reflexivity].
  intros before t' after Hdone.
  destruct before as [| b [| b' before]]; inversion Hdone; subst; reflexivity.
Defined.

Lemma subscribes_only_what_is_configured_witness :
  ~ In (Delivered (On_connect 0))
       [Delivered (On_connect 5); Called App_stop; Called App_start] /\
  subscribe_calls
    (calls (run_events demo
              [Delivered (On_connect 5); Called App_stop; Called App_start]
              connected))
  = subscribe_calls (calls connected).
Proof.
  assert (Hnone : ~ In (Delivered (On_connect 0))
                       [Delivered (On_connect 5); Called App_stop;
                        Called App_start])
    by (intros [H | [H | [H | []]]]; discriminate).
  split; [exact Hnone |].
  destruct (subscribes_only_what_is_configured demo
              [Delivered (On_connect 5); Called App_stop; Called App_start]
              connected) as (added & Hadded & _ & Hnil).
  rewrite Hadded, (Hnil Hnone). apply app_nil_r.
Defined.

Lemma placeholder_handler_only_warns_witness :
  (on_message_handler demo = None /\
   decode (payload (state_message "ON")) = Ret "ON") /\
  _on_message_internal demo (state_message "ON") connected =
  (Ret tt,
   with_log (WARNING, Msg_not_implemented)
     (with_handled (state_message "ON")
        (with_log (INFO, Msg_received "demo/light/state" "ON") connected))).
Proof.
  split; [split; reflexivity |].
  exact (placeholder_handler_only_warns demo (state_message "ON") "ON"
           connected eq_refl eq_refl).
Defined.

Lemma system_exit_leaves_the_dispatcher_witness :
  (on_message_handler exiting = Some exiting_handler /\
   decode (payload (state_message "ON")) = Ret "ON" /\
   exiting_handler (handled connected) (state_message "ON") = Raise system_exit /\
   is_Exception system_exit = false) /\
  _on_message_internal exiting (state_message "ON") connected =
    (Raise system_exit,
     with_handled (state_message "ON")
       (with_log (INFO, Msg_received "demo/light/state" "ON") connected)) /\
  fst (_background_loop exiting
         [([On_message (state_message "ON")], [])] connected)
  = Raise system_exit.
Proof.
  pose proof (system_exit_leaves_the_dispatcher exiting exiting_handler
                (state_message "ON") "ON" system_exit connected
                eq_refl eq_refl eq_refl eq_refl) as [Hdispatch Hloop].
  split; [repeat split |]. split; [exact Hdispatch |].
  exact (Hloop eq_refl [] [] []).
Defined.

Lemma loop_ends_when_stopped_witness :
  (_is_running fresh = false /\
   _background_loop demo [([], [])] fresh =
   (Ret Stopped,
    with_log (INFO, Msg_loop_stopped)
      (with_log (INFO, Msg_loop_started) fresh))) /\
  (_is_running connected = true /\
   fst (_background_loop demo
          [([On_message (state_message "ON")], [App_stop]);
           ([On_message (state_message "OFF")], [])] connected)
   = Ret Stopped /\
   handled (snd (_background_loop demo
                   [([On_message (state_message "ON")], [App_stop]);
                    ([On_message (state_message "OFF")], [])] connected))
   = [state_message "ON"]).
Proof.
  pose proof (loop_ends_when_stopped demo) as [Hnever Hafter].
  split.
  - split; [reflexivity |]. apply Hnever. reflexivity.
  - split; [reflexivity |].
    rewrite (Hafter [On_message (state_message "ON")] [App_stop]
               [([On_message (state_message "OFF")], [])] connected
               _ eq_refl eq_refl eq_refl).
    split; reflexivity.
Defined.

Lemma undecodable_payload_ends_the_loop_witness :
  (_is_running connected = true /\ utf8_valid (payload garbled_message) = false) /\
  fst (_background_loop demo
         [([On_message (state_message "ON"); On_message garbled_message;
            On_message (state_message "OFF")], []);
          ([On_message (state_message "ON")], [])] connected)
  = Raise undecodable /\
  handled (snd (_background_loop demo
                  [([On_message (state_message "ON");
                     On_message garbled_message;
                     On_message (state_message "OFF")], []);
                   ([On_message (state_message "ON")], [])] connected))
  = [state_message "ON"].
Proof.
  split; [split; reflexivity |].
  destruct (undecodable_payload_ends_the_loop demo
              [On_message (state_message "ON")] garbled_message
              [On_message (state_message "OFF")] []
              [([On_message (state_message "ON")], [])] connected
              _ eq_refl eq_refl eq_refl) as (Hloop & _).
  cbn [app] in Hloop. rewrite Hloop. split; reflexivity.
Defined.

Lemma credentials_need_user_and_password_witness :
  (broker_user (config secured) = Some "alice" /\
   broker_password (config secured) = Some "secret" /\
   "alice" <> "" /\ "secret" <> "") /\
  In (Call_username_pw_set "alice" "secret") (calls (__init__ secured)).
Proof.
  assert (H : broker_user (config secured) = Some "alice" /\
              broker_password (config secured) = Some "secret" /\
              "alice" <> "" /\ "secret" <> "")
    by (repeat split; discriminate).
  split; [exact H |].
  exact (proj2 (proj1 (credentials_need_user_and_password secured)
                  "alice" "secret") H).
Defined.

Lemma setup_logging_adds_one_handler_witness :
  logger_handlers untouched_logger = [] /\
  Nat.iter 3 _setup_logging untouched_logger =
  {| logger_level := logging_INFO; logger_handlers := [stdout_handler] |}.
Proof.
  split; [reflexivity |].
  destruct (setup_logging_adds_one_handler 2 untouched_logger)
    as (Hiter & Hfirst & _).
  rewrite Hiter. apply Hfirst. reflexivity.
Defined.

Lemma publish_sends_after_the_connection_is_lost_witness :
  connected_event started = false /\
  connected_event
    (run_events demo
       [Delivered (On_connect 0);
        Delivered (On_message (state_message "ON"));
        Delivered (On_disconnect 7)] started) = false /\
  publish_calls
    (calls (snd (publish demo "demo/light/set" (PyStr "ON") None false
                   [[Delivered (On_connect 0);
                     Delivered (On_message (state_message "ON"));
                     Delivered (On_disconnect 7)]] started)))
  = [Call_publish "demo/light/set" (PyStr "ON") 0 false].
Proof.
  pose proof (publish_sends_after_the_connection_is_lost demo
                "demo/light/set" "ON" None false []
                [Delivered (On_message (state_message "ON"))] 7 [] started
                eq_refl) as (Hlost & _ & Hsent).
  split; [reflexivity |]. split; [exact Hlost | exact Hsent].
Defined.

(** * The demo application at concrete inputs *)

Import LightControlApp AppDoubles.

Lemma state_message_is_shown_witness :
  on_message light_app (message_with (state_json "on")) _setup_ui =
  (Ret tt,
   {| light_icon_name := LIGHTBULB;
      light_icon_color := YELLOW_600;
      status_text := "ON";
      last_updated_text := "Last update: 12:00:00";
      toggle_button_disabled := false;
      page_updates := 2;
      app_log := [] |}).
Proof.
  exact (state_message_is_shown light_app (message_with (state_json "on"))
           (state_json "on") [("state", JStr "on")] "state" "on" _setup_ui
           eq_refl eq_refl eq_refl eq_refl).
Defined.

Lemma widgets_change_only_on_a_string_state_witness :
  widgets (snd (on_message light_app (message_with numeric_state_json)
                           _setup_ui)) = widgets _setup_ui /\
  page_updates (snd (on_message light_app (message_with numeric_state_json)
                                _setup_ui)) = 1%nat.
Proof.
  apply (widgets_change_only_on_a_string_state light_app
           (message_with numeric_state_json) _setup_ui).
  intros text items k s Hdecode Hloads.
  vm_compute in Hdecode. injection Hdecode as <-.
  vm_compute in Hloads. injection Hloads as <-.
  vm_compute. discriminate.
Defined.

Lemma view_is_always_well_formed_witness :
  view_ok (snd (on_message light_app (message_with (state_json "ON"))
                           _setup_ui)) /\
  view_ok (snd (snd (toggle_light_state_async light_app [] connected_app))).
Proof.
  pose proof (view_is_always_well_formed light_app)
    as (Hsetup & Hmessage & _ & Htoggle).
  split.
  - apply Hmessage. exact Hsetup.
  - apply Htoggle. left. reflexivity.
Defined.

Lemma toggle_publishes_the_opposite_state_witness :
  connected_event (fst connected_app) = true /\
  calls (fst (snd (toggle_light_state_async light_app [] connected_app))) =
    calls (fst connected_app)
    ++ [Call_publish (COMMAND_TOPIC light_app) (PyStr (state_json "ON"))
                     0 false].
Proof.
  split; [reflexivity |].
  exact (proj1 (toggle_publishes_the_opposite_state light_app []
                  connected_app (state_json "ON") eq_refl eq_refl)).
Defined.

Lemma toggle_echo_shows_the_new_state_witness :
  status_text
    (snd (app_event light_app
            (Delivered (On_message (message_with (state_json "ON"))))
            (snd (toggle_light_state_async light_app [] connected_app))))
  = "ON" /\
  toggle_button_disabled
    (snd (app_event light_app
            (Delivered (On_message (message_with (state_json "ON"))))
            (snd (toggle_light_state_async light_app [] connected_app))))
  = false.
Proof.
  pose proof (toggle_echo_shows_the_new_state light_app [] connected_app
                (state_json "ON") (message_with (state_json "ON"))
                eq_refl eq_refl eq_refl eq_refl eq_refl eq_refl eq_refl
                eq_refl) as (Hstatus & Hbutton & _).
  split; [exact Hstatus | exact Hbutton].
Defined.


Lemma main_survives_an_unreachable_broker_witness :
  fst (main offline_app [[Delivered (On_connect 5)]] (new_app offline_app))
  = Ret tt /\
  publish_calls
    (calls (fst (snd (main offline_app [[Delivered (On_connect 5)]]
                           (new_app offline_app))))) = [].
Proof.
  assert (Hnone : ~ In (Delivered (On_connect 0))
                       (List.concat [[Delivered (On_connect 5)]]))
    by (intros [H | []]; discriminate).
  pose proof (main_survives_an_unreachable_broker offline_app
                [[Delivered (On_connect 5)]] Doubles.connection_refused
                eq_refl eq_refl Hnone) as (Hret & Hsent & _).
  split; [exact Hret | exact Hsent].
Defined.

